(** * Journal-AI: the browser client [app.js] (class [DailyLogApp])

    A shallow embedding of the client-side state machine: the three
    in-memory collections (logs, diary entries, tasks), their next-id
    counters, and the operations that read and write them.  The Flask
    backend, the page and the user are the environment: the backend is an
    arbitrary state machine answering each [fetch], the page is a record
    of the elements whose presence or value the code branches on, and the
    user's answers to [prompt] and [confirm] are arguments.

    Conventions.
    - A JavaScript string is the list of its UTF-16 code units.
    - Ids and counters are JavaScript numbers holding integers; they are
      modelled in [Z] (exact below 2^53).
    - JSON values delivered by the backend have the documented shape,
      except where the code itself tolerates a missing field ([x || d]):
      such fields are optional.
    - Purely presentational updates (spinners, disabled buttons, counters,
      the last-sync label) never feed back into the data and are elided;
      element lookups the code branches on are kept. *)

From Stdlib Require Import List ZArith NArith Lia Bool String Ascii.
From Stdlib Require Import Permutation Sorted.
Import ListNotations.

Local Open Scope Z_scope.

(* ================================================================== *)
(** ** JavaScript primitives used by the application *)

Module JS.

(** A string is a sequence of UTF-16 code units. *)
Definition code_unit := N.
Definition jsstring := list code_unit.

(** A source-code string literal (ASCII only). *)
Definition lit (s : string) : jsstring :=
  map N_of_ascii (list_ascii_of_string s).
Arguments lit : simpl never.

Fixpoint str_eqb (a b : jsstring) : bool :=
  match a, b with
  | [], [] => true
  | x :: a', y :: b' => N.eqb x y && str_eqb a' b'
  | _, _ => false
  end.

(** [WhiteSpace] and [LineTerminator] of ECMAScript, the code units
    stripped by [String.prototype.trim]. *)
Definition isWhiteSpace (c : code_unit) : bool :=
  (N.leb 9 c && N.leb c 13)            (* TAB LF VT FF CR *)
  || N.eqb c 32 || N.eqb c 160         (* SP NBSP *)
  || N.eqb c 5760                      (* U+1680 *)
  || (N.leb 8192 c && N.leb c 8202)    (* U+2000 .. U+200A *)
  || N.eqb c 8232 || N.eqb c 8233      (* LS PS *)
  || N.eqb c 8239 || N.eqb c 8287      (* U+202F U+205F *)
  || N.eqb c 12288 || N.eqb c 65279.   (* U+3000 U+FEFF *)

Fixpoint trimStart (s : jsstring) : jsstring :=
  match s with
  | [] => []
  | c :: r => if isWhiteSpace c then trimStart r else s
  end.

Definition trimEnd (s : jsstring) : jsstring := rev (trimStart (rev s)).

(** [s.trim()] *)
Definition trim (s : jsstring) : jsstring := trimEnd (trimStart s).

(** Truthiness of a string: [!s] holds exactly for the empty string. *)
Definition falsy_str (s : jsstring) : bool :=
  match s with [] => true | _ => false end.

(** [s.substring(i, j)] for [0 <= i <= j]. *)
Definition substring (i j : nat) (s : jsstring) : jsstring :=
  firstn (j - i) (skipn i s).

(** Decimal digits of a positive number, most significant first. *)
Fixpoint uint_units (d : Decimal.uint) : jsstring :=
  match d with
  | Decimal.Nil => []
  | Decimal.D0 r => 48%N :: uint_units r
  | Decimal.D1 r => 49%N :: uint_units r
  | Decimal.D2 r => 50%N :: uint_units r
  | Decimal.D3 r => 51%N :: uint_units r
  | Decimal.D4 r => 52%N :: uint_units r
  | Decimal.D5 r => 53%N :: uint_units r
  | Decimal.D6 r => 54%N :: uint_units r
  | Decimal.D7 r => 55%N :: uint_units r
  | Decimal.D8 r => 56%N :: uint_units r
  | Decimal.D9 r => 57%N :: uint_units r
  end.

(** [String(n)] for an integer-valued number. *)
Definition String_of (n : Z) : jsstring :=
  match n with
  | Z0 => [48%N]
  | Zpos p => uint_units (Pos.to_uint p)
  | Zneg p => 45%N :: uint_units (Pos.to_uint p)
  end.

(** [s.padStart(len, fill)] with a one-character [fill]. *)
Definition padStart (len : nat) (fill : code_unit) (s : jsstring) : jsstring :=
  repeat fill (len - List.length s) ++ s.

(** Code-unit lexicographic comparison, with the sign convention of
    [a.localeCompare(b)].  On strings of ASCII digits of one width, the
    timestamps the application writes, every locale's collation agrees
    with it; on other strings a locale may order differently, so a
    property that rests on the order asks for such strings. *)
Fixpoint localeCompare (a b : jsstring) : Z :=
  match a, b with
  | [], [] => 0
  | [], _ :: _ => -1
  | _ :: _, [] => 1
  | x :: a', y :: b' =>
      match N.compare x y with
      | Lt => -1
      | Gt => 1
      | Eq => localeCompare a' b'
      end
  end.

(** A number that may be [NaN]. *)
Definition number := option Z.

(** [Array.prototype.sort(cmp)].  The comparator's result [v] is read
    as [+0] when it is [NaN]; [x] is moved behind [y] only when
    [cmp(x, y) > 0].  The sort is stable, so for a consistent comparator
    this insertion sort is the result of every conforming engine; for
    an inconsistent one (a [NaN] among the results) the order is the
    engine's choice, and a property that rests on the order asks for a
    consistent comparator. *)
Definition goes_after {A} (cmp : A -> A -> number) (x y : A) : bool :=
  match cmp x y with
  | Some v => 0 <? v
  | None => false
  end.

Fixpoint insert {A} (cmp : A -> A -> number) (x : A) (l : list A) : list A :=
  match l with
  | [] => [x]
  | y :: r => if goes_after cmp x y then y :: insert cmp x r else x :: l
  end.

Fixpoint sort {A} (cmp : A -> A -> number) (l : list A) : list A :=
  match l with
  | [] => []
  | x :: r => insert cmp x (sort cmp r)
  end.

(** [arr.find(p)] *)
Definition find {A} (p : A -> bool) (l : list A) : option A := List.find p l.

End JS.

Import JS.

(* ================================================================== *)
(** ** Data model *)

(** A log as the backend serialises it ([GET /api/logs]). *)
Record LogEntry := mkLog {
  log_id : Z;
  log_content : jsstring;
  log_timestamp : jsstring;
  log_wordCount : Z
}.

(** A diary entry ([GET /api/diary]). *)
Record DiaryEntry := mkDiary {
  diary_id : Z;
  diary_date : jsstring;
  diary_content : jsstring;
  diary_createdAt : jsstring;
  diary_lastUpdated : jsstring;
  diary_logIds : list Z
}.

(** A task.  Backend tasks carry [createdAt] and [date]; tasks built by
    [addManualTask] carry [extractedAt] instead. *)
Record Task := mkTask {
  task_id : Z;
  task_description : jsstring;
  task_completed : bool;
  task_priority : jsstring;
  task_sourceLogId : option Z;
  task_createdAt : option jsstring;
  task_date : option jsstring;
  task_extractedAt : option jsstring
}.

(** The fields of [DailyLogApp] set by its constructor. *)
Record App := mkApp {
  logs : list LogEntry;
  diaryEntries : list DiaryEntry;
  tasks : list Task;
  currentTab : jsstring;
  nextLogId : Z;
  nextTaskId : Z;
  nextDiaryId : Z;
  apiConnected : bool
}.

(** [constructor()] *)
Definition constructor : App :=
  {| logs := []; diaryEntries := []; tasks := [];
     currentTab := lit "logs";
     nextLogId := 1; nextTaskId := 1; nextDiaryId := 1;
     apiConnected := false |}.

Definition set_logs (v : list LogEntry) (a : App) : App :=
  {| logs := v; diaryEntries := diaryEntries a; tasks := tasks a;
     currentTab := currentTab a; nextLogId := nextLogId a;
     nextTaskId := nextTaskId a; nextDiaryId := nextDiaryId a;
     apiConnected := apiConnected a |}.

Definition set_diaryEntries (v : list DiaryEntry) (a : App) : App :=
  {| logs := logs a; diaryEntries := v; tasks := tasks a;
     currentTab := currentTab a; nextLogId := nextLogId a;
     nextTaskId := nextTaskId a; nextDiaryId := nextDiaryId a;
     apiConnected := apiConnected a |}.

Definition set_tasks (v : list Task) (a : App) : App :=
  {| logs := logs a; diaryEntries := diaryEntries a; tasks := v;
     currentTab := currentTab a; nextLogId := nextLogId a;
     nextTaskId := nextTaskId a; nextDiaryId := nextDiaryId a;
     apiConnected := apiConnected a |}.

Definition set_nextLogId (v : Z) (a : App) : App :=
  {| logs := logs a; diaryEntries := diaryEntries a; tasks := tasks a;
     currentTab := currentTab a; nextLogId := v;
     nextTaskId := nextTaskId a; nextDiaryId := nextDiaryId a;
     apiConnected := apiConnected a |}.

Definition set_nextTaskId (v : Z) (a : App) : App :=
  {| logs := logs a; diaryEntries := diaryEntries a; tasks := tasks a;
     currentTab := currentTab a; nextLogId := nextLogId a;
     nextTaskId := v; nextDiaryId := nextDiaryId a;
     apiConnected := apiConnected a |}.

Definition set_nextDiaryId (v : Z) (a : App) : App :=
  {| logs := logs a; diaryEntries := diaryEntries a; tasks := tasks a;
     currentTab := currentTab a; nextLogId := nextLogId a;
     nextTaskId := nextTaskId a; nextDiaryId := v;
     apiConnected := apiConnected a |}.

(* ================================================================== *)
(** ** The environment: clock, page, backend *)

(** What [new Date()] reports: the local-time getters read by
    [generateTimestamp] and the UTC calendar date
    [toISOString().split('T')[0]]. *)
Record Clock := mkClock {
  getHours : Z;
  getMinutes : Z;
  getSeconds : Z;
  getDate : Z;
  getMonth : Z;          (* 0 .. 11 *)
  getFullYear : Z;
  isoDate : jsstring     (* YYYY-MM-DD *)
}.

(** Ranges guaranteed by the [Date] getters. *)
Definition valid_clock (c : Clock) : Prop :=
  0 <= getHours c <= 23 /\ 0 <= getMinutes c <= 59 /\
  0 <= getSeconds c <= 59 /\ 1 <= getDate c <= 31 /\
  0 <= getMonth c <= 11.

(** The year is written with four digits (years 1000 to 9999). *)
Definition four_digit_year (c : Clock) : Prop :=
  1000 <= getFullYear c <= 9999.

(** What [renderLogs] writes into [#logs-list]. *)
Inductive LogsView :=
| LogsEmptyState
| LogsItems (items : list (jsstring * LogEntry)).  (* shown timestamp, log *)

(** What [renderTasks] writes into [#tasks-list]. *)
Inductive TasksView :=
| TasksEmptyState
| TaskItems (items : list Task).

(** The page.  [None] means the element is not in the document. *)
Record Dom := mkDom {
  log_input : option jsstring;            (* #log-input .value *)
  auto_diary : option bool;               (* #auto-diary .checked *)
  auto_tasks : option bool;               (* #auto-tasks .checked *)
  update_diary_btn : option bool;         (* #update-diary-btn has class hidden *)
  diary_text : option jsstring;           (* #diary-text .textContent *)
  manual_task_input : option jsstring;    (* #manual-task-input .value *)
  manual_task_priority : option jsstring; (* #manual-task-priority .value *)
  logs_list : option LogsView;            (* #logs-list *)
  tasks_list : option TasksView           (* #tasks-list *)
}.

Definition set_log_input (v : option jsstring) (d : Dom) : Dom :=
  {| log_input := v; auto_diary := auto_diary d; auto_tasks := auto_tasks d;
     update_diary_btn := update_diary_btn d; diary_text := diary_text d;
     manual_task_input := manual_task_input d;
     manual_task_priority := manual_task_priority d;
     logs_list := logs_list d; tasks_list := tasks_list d |}.

Definition set_update_diary_btn (v : option bool) (d : Dom) : Dom :=
  {| log_input := log_input d; auto_diary := auto_diary d;
     auto_tasks := auto_tasks d;
     update_diary_btn := v; diary_text := diary_text d;
     manual_task_input := manual_task_input d;
     manual_task_priority := manual_task_priority d;
     logs_list := logs_list d; tasks_list := tasks_list d |}.

Definition set_diary_text (v : option jsstring) (d : Dom) : Dom :=
  {| log_input := log_input d; auto_diary := auto_diary d;
     auto_tasks := auto_tasks d;
     update_diary_btn := update_diary_btn d; diary_text := v;
     manual_task_input := manual_task_input d;
     manual_task_priority := manual_task_priority d;
     logs_list := logs_list d; tasks_list := tasks_list d |}.

Definition set_manual_task_input (v : option jsstring) (d : Dom) : Dom :=
  {| log_input := log_input d; auto_diary := auto_diary d;
     auto_tasks := auto_tasks d;
     update_diary_btn := update_diary_btn d; diary_text := diary_text d;
     manual_task_input := v;
     manual_task_priority := manual_task_priority d;
     logs_list := logs_list d; tasks_list := tasks_list d |}.

Definition set_logs_list (v : option LogsView) (d : Dom) : Dom :=
  {| log_input := log_input d; auto_diary := auto_diary d;
     auto_tasks := auto_tasks d;
     update_diary_btn := update_diary_btn d; diary_text := diary_text d;
     manual_task_input := manual_task_input d;
     manual_task_priority := manual_task_priority d;
     logs_list := v; tasks_list := tasks_list d |}.

Definition set_tasks_list (v : option TasksView) (d : Dom) : Dom :=
  {| log_input := log_input d; auto_diary := auto_diary d;
     auto_tasks := auto_tasks d;
     update_diary_btn := update_diary_btn d; diary_text := diary_text d;
     manual_task_input := manual_task_input d;
     manual_task_priority := manual_task_priority d;
     logs_list := logs_list d; tasks_list := v |}.

(** Requests sent with [fetch], relative to [API_BASE_URL]. *)
Inductive Request :=
| GET_logs
| GET_diary
| GET_tasks
| POST_logs (content : jsstring)
| DELETE_log (logId : Z)
| POST_generate_diary (date : jsstring)
| POST_generate_tasks (date : jsstring).

Inductive ToastType := success | error.

(** What an operation does to the outside, in order. *)
Inductive Event :=
| Fetch (r : Request)
| Toast (message : jsstring) (type : ToastType)   (* showToast(message, type) *)
| ConsoleError (label : jsstring) (message : jsstring).

(** [await response.json()]: a parsed body or a rejection. *)
Inductive Json (A : Type) :=
| JsonError (message : jsstring)
| JsonValue (a : A).
Arguments JsonError {A} message.
Arguments JsonValue {A} a.

(** [await fetch(...)]: a rejection (network failure) or a response with
    its [ok] flag and body. *)
Inductive FetchResult (A : Type) :=
| NetworkError (message : jsstring)
| Response (ok : bool) (body : Json A).
Arguments NetworkError {A} message.
Arguments Response {A} ok body.

(** Bodies.  Fields read through [x || default] are optional. *)
Record LogsData := mkLogsData {
  ld_logs : option (list LogEntry);
  ld_nextId : option Z
}.
Record DiaryData := mkDiaryData {
  dd_entries : option (list DiaryEntry);
  dd_nextId : option Z
}.
Record TasksData := mkTasksData {
  td_tasks : option (list Task);
  td_nextId : option Z
}.
Record LogReply := mkLogReply { reply_log : LogEntry }.
Record MessageBody := mkMessageBody { body_message : option jsstring }.

(** The backend: a state machine answering each endpoint. *)
Record Backend (Server : Type) := mkBackend {
  serve_get_logs : Server -> FetchResult LogsData * Server;
  serve_get_diary : Server -> FetchResult DiaryData * Server;
  serve_get_tasks : Server -> FetchResult TasksData * Server;
  serve_post_logs : jsstring -> Server -> FetchResult LogReply * Server;
  serve_delete_log : Z -> Server -> FetchResult unit * Server;
  serve_generate_diary : jsstring -> Server -> FetchResult MessageBody * Server;
  serve_generate_tasks : jsstring -> Server -> FetchResult MessageBody * Server
}.
Arguments serve_get_logs {Server} _ _.
Arguments serve_get_diary {Server} _ _.
Arguments serve_get_tasks {Server} _ _.
Arguments serve_post_logs {Server} _ _ _.
Arguments serve_delete_log {Server} _ _ _.
Arguments serve_generate_diary {Server} _ _ _.
Arguments serve_generate_tasks {Server} _ _ _.

(** Everything an operation can read or write. *)
Record World (Server : Type) := mkWorld {
  app : App;
  dom : Dom;
  clock : Clock;
  server : Server
}.
Arguments mkWorld {Server} _ _ _ _.
Arguments app {Server} _.
Arguments dom {Server} _.
Arguments clock {Server} _.
Arguments server {Server} _.

(* ================================================================== *)
(** ** Effects: state, exceptions, and a log of outside events *)

(** How a statement completes: normally, or by a thrown error whose
    [message] is kept. *)
Inductive Completion (A : Type) :=
| Normal (a : A)
| Throw (message : jsstring).
Arguments Normal {A} a.
Arguments Throw {A} message.

Definition M (Server A : Type) : Type :=
  World Server -> Completion A * World Server * list Event.

Definition ret {Server A} (a : A) : M Server A :=
  fun w => (Normal a, w, []).

Definition bind {Server A B} (c : M Server A) (k : A -> M Server B) : M Server B :=
  fun w =>
    match c w with
    | (Normal a, w1, ev1) =>
        match k a w1 with
        | (r, w2, ev2) => (r, w2, ev1 ++ ev2)
        end
    | (Throw m, w1, ev1) => (Throw m, w1, ev1)
    end.

Declare Scope js_scope.
Delimit Scope js_scope with js.
Notation "x <- c ;; k" := (bind c (fun x => k))
  (at level 61, c at next level, right associativity) : js_scope.
Notation "c ;; k" := (bind c (fun _ => k))
  (at level 61, right associativity) : js_scope.
Local Open Scope js_scope.

(** [throw new Error(message)] *)
Definition throw {Server A} (message : jsstring) : M Server A :=
  fun w => (Throw message, w, []).

(** [try { body } catch (error) { handler(error.message) }] *)
Definition try_catch {Server} (body : M Server unit)
    (handler : jsstring -> M Server unit) : M Server unit :=
  fun w =>
    match body w with
    | (Normal a, w1, ev1) => (Normal a, w1, ev1)
    | (Throw m, w1, ev1) =>
        match handler m w1 with
        | (r, w2, ev2) => (r, w2, ev1 ++ ev2)
        end
    end.

Definition emit {Server} (e : Event) : M Server unit :=
  fun w => (Normal tt, w, [e]).

Definition get_app {Server} : M Server App :=
  fun w => (Normal (app w), w, []).

Definition get_dom {Server} : M Server Dom :=
  fun w => (Normal (dom w), w, []).

Definition get_clock {Server} : M Server Clock :=
  fun w => (Normal (clock w), w, []).

Definition modify_app {Server} (f : App -> App) : M Server unit :=
  fun w => (Normal tt, mkWorld (f (app w)) (dom w) (clock w) (server w), []).

Definition modify_dom {Server} (f : Dom -> Dom) : M Server unit :=
  fun w => (Normal tt, mkWorld (app w) (f (dom w)) (clock w) (server w), []).

(** [await fetch(request)]: the request goes out, the backend moves, and
    a network failure rejects. *)
Definition fetch {Server A} (r : Request)
    (serve : Server -> FetchResult A * Server) : M Server (bool * Json A) :=
  fun w =>
    match serve (server w) with
    | (NetworkError m, sv) =>
        (Throw m, mkWorld (app w) (dom w) (clock w) sv, [Fetch r])
    | (Response ok body, sv) =>
        (Normal (ok, body), mkWorld (app w) (dom w) (clock w) sv, [Fetch r])
    end.

(** [await response.json()] *)
Definition json {Server A} (body : Json A) : M Server A :=
  match body with
  | JsonError m => throw m
  | JsonValue a => ret a
  end.

(** Projections of a run. *)
Definition completion {Server A} (r : Completion A * World Server * list Event) :=
  fst (fst r).
Definition final {Server A} (r : Completion A * World Server * list Event) :=
  snd (fst r).
Definition events {Server A} (r : Completion A * World Server * list Event) :=
  snd r.

(** [x || d] on an optional array: an array is always truthy. *)
Definition or_array {A} (x : option (list A)) : list A :=
  match x with Some l => l | None => [] end.

(** [x || 1] on an optional number: [undefined] and [0] are falsy. *)
Definition or_one (x : option Z) : Z :=
  match x with
  | Some n => if n =? 0 then 1 else n
  | None => 1
  end.

(** [x || d] on an optional string: [undefined] and [''] are falsy. *)
Definition or_str (x : option jsstring) (d : jsstring) : jsstring :=
  match x with
  | Some s => if falsy_str s then d else s
  | None => d
  end.

(* ================================================================== *)
(** ** The methods of [DailyLogApp] *)

(** [generateTimestamp()], from the reading of [new Date()]. *)
Definition generateTimestamp (now : Clock) : jsstring :=
  let hours := padStart 2 48%N (String_of (getHours now)) in
  let minutes := padStart 2 48%N (String_of (getMinutes now)) in
  let seconds := padStart 2 48%N (String_of (getSeconds now)) in
  let day := padStart 2 48%N (String_of (getDate now)) in
  let month := padStart 2 48%N (String_of (getMonth now + 1)) in
  let year := String_of (getFullYear now) in
  hours ++ minutes ++ seconds ++ day ++ month ++ year.

(** [formatTimestamp(timestamp)] *)
Definition formatTimestamp (timestamp : jsstring) : jsstring :=
  if falsy_str timestamp || negb (Nat.eqb (List.length timestamp) 12)
  then lit "Invalid timestamp"
  else
    let hours := substring 0 2 timestamp in
    let minutes := substring 2 4 timestamp in
    let seconds := substring 4 6 timestamp in
    let day := substring 6 8 timestamp in
    let month := substring 8 10 timestamp in
    let year := substring 10 12 timestamp in
    day ++ lit "/" ++ month ++ lit "/20" ++ year ++ lit " at "
        ++ hours ++ lit ":" ++ minutes ++ lit ":" ++ seconds.

(** The comparator of [renderLogs]:
    [(a, b) => b.timestamp.localeCompare(a.timestamp)]. *)
Definition newestFirst (a b : LogEntry) : number :=
  Some (localeCompare (log_timestamp b) (log_timestamp a)).

(** [priorityOrder[p]]; a key outside the table yields nothing usable in
    arithmetic. *)
Definition priorityOrder (p : jsstring) : number :=
  if str_eqb p (lit "High") then Some 3
  else if str_eqb p (lit "Medium") then Some 2
  else if str_eqb p (lit "Low") then Some 1
  else None.

(** A boolean used as a number. *)
Definition bool_num (b : bool) : Z := if b then 1 else 0.

(** The comparator of [renderTasks]. *)
Definition taskOrder (a b : Task) : number :=
  if negb (Bool.eqb (task_completed a) (task_completed b))
  then Some (bool_num (task_completed a) - bool_num (task_completed b))
  else
    match priorityOrder (task_priority b), priorityOrder (task_priority a) with
    | Some pb, Some pa => Some (pb - pa)
    | _, _ => None
    end.

(** [log.content = v] on the object returned by
    [logs.find(l => l.id === logId)]: the first log with that id. *)
Fixpoint assign_content (logId : Z) (v : jsstring) (l : list LogEntry)
  : list LogEntry :=
  match l with
  | [] => []
  | x :: r =>
      if log_id x =? logId
      then mkLog (log_id x) v (log_timestamp x) (log_wordCount x) :: r
      else x :: assign_content logId v r
  end.

Section Methods.

Context {Server : Type} (backend : Backend Server).

(** [showToast(message, type)]: the call is what gets recorded; the
    message becomes visible when the page has its toast container. *)
Definition showToast (message : jsstring) (type : ToastType) : M Server unit :=
  emit (Toast message type).

(** [loadData()] *)
Definition loadData : M Server unit :=
  try_catch
    (logsResponse <- fetch GET_logs (serve_get_logs backend) ;;
     (if fst logsResponse then
        logsData <- json (snd logsResponse) ;;
        modify_app (set_logs (or_array (ld_logs logsData))) ;;
        modify_app (set_nextLogId (or_one (ld_nextId logsData)))
      else ret tt) ;;
     diaryResponse <- fetch GET_diary (serve_get_diary backend) ;;
     (if fst diaryResponse then
        diaryData <- json (snd diaryResponse) ;;
        modify_app (set_diaryEntries (or_array (dd_entries diaryData))) ;;
        modify_app (set_nextDiaryId (or_one (dd_nextId diaryData)))
      else ret tt) ;;
     tasksResponse <- fetch GET_tasks (serve_get_tasks backend) ;;
     (if fst tasksResponse then
        tasksData <- json (snd tasksResponse) ;;
        modify_app (set_tasks (or_array (td_tasks tasksData))) ;;
        modify_app (set_nextTaskId (or_one (td_nextId tasksData)))
      else ret tt))
    (fun message =>
       emit (ConsoleError (lit "Error loading data:") message) ;;
       showToast (lit "Failed to load data from server") error).

(** [renderLogs()] *)
Definition renderLogs : M Server unit :=
  d <- get_dom ;;
  match logs_list d with
  | None => ret tt
  | Some _ =>
      a <- get_app ;;
      match logs a with
      | [] => modify_dom (set_logs_list (Some LogsEmptyState))
      | _ =>
          let sortedLogs := sort newestFirst (logs a) in
          modify_dom (set_logs_list (Some (LogsItems
            (map (fun log => (formatTimestamp (log_timestamp log), log))
                 sortedLogs))))
      end
  end.

(** The array [renderTasks] works on: [this.tasks] itself, or a fresh
    array for the two filters. *)
Definition filteredTasks (filter : jsstring) (ts : list Task) : list Task :=
  if str_eqb filter (lit "completed") then List.filter task_completed ts
  else if str_eqb filter (lit "pending")
       then List.filter (fun task => negb (task_completed task)) ts
       else ts.

Definition aliases_tasks (filter : jsstring) : bool :=
  negb (str_eqb filter (lit "completed") || str_eqb filter (lit "pending")).

(** [renderTasks(filter)].  [sort] works in place: without a filter the
    sorted array is [this.tasks]. *)
Definition renderTasks (filter : jsstring) : M Server unit :=
  d <- get_dom ;;
  match tasks_list d with
  | None => ret tt
  | Some _ =>
      a <- get_app ;;
      match filteredTasks filter (tasks a) with
      | [] => modify_dom (set_tasks_list (Some TasksEmptyState))
      | filtered =>
          let sorted := sort taskOrder filtered in
          (if aliases_tasks filter then modify_app (set_tasks sorted)
           else ret tt) ;;
          modify_dom (set_tasks_list (Some (TaskItems sorted)))
      end
  end.

(** [displayDiaryEntry(diaryEntry)] *)
Definition displayDiaryEntry (diaryEntry : DiaryEntry) : M Server unit :=
  modify_dom (fun d =>
    match diary_text d with
    | Some _ => set_diary_text (Some (diary_content diaryEntry)) d
    | None => d
    end) ;;
  modify_dom (fun d =>
    match update_diary_btn d with
    | Some _ => set_update_diary_btn (Some true) d
    | None => d
    end).

(** [handleLogChange()] *)
Definition handleLogChange : M Server unit :=
  now <- get_clock ;;
  let today := isoDate now in
  a <- get_app ;;
  match find (fun entry => str_eqb (diary_date entry) today) (diaryEntries a) with
  | Some _ =>
      modify_dom (fun d =>
        match update_diary_btn d with
        | Some _ => set_update_diary_btn (Some false) d
        | None => d
        end)
  | None => ret tt
  end.

(** [generateDiary(isRegenerate, isIncremental)] *)
Definition generateDiary (isRegenerate isIncremental : bool) : M Server unit :=
  a <- get_app ;;
  match logs a with
  | [] => showToast (lit "Add some logs first to generate a diary entry") error
  | _ =>
      if negb (apiConnected a)
      then showToast (lit "Backend server not available") error
      else
        try_catch
          (now <- get_clock ;;
           let today := isoDate now in
           response <- fetch (POST_generate_diary today)
                             (serve_generate_diary backend today) ;;
           (if negb (fst response) then
              errorData <- json (snd response) ;;
              throw (or_str (body_message errorData)
                            (lit "Failed to generate diary"))
            else ret tt) ;;
           _ <- json (snd response) ;;
           loadData ;;
           a' <- get_app ;;
           match find (fun entry => str_eqb (diary_date entry) today)
                      (diaryEntries a') with
           | Some diaryEntry => displayDiaryEntry diaryEntry
           | None => ret tt
           end ;;
           let actionText :=
             if isRegenerate then lit "regenerated"
             else if isIncremental then lit "updated"
                  else lit "generated" in
           showToast (lit "Diary entry " ++ actionText ++ lit " successfully!")
                     success)
          (fun message =>
             emit (ConsoleError (lit "Error generating diary:") message) ;;
             showToast (lit "Failed to generate diary entry: " ++ message) error)
  end.

(** [extractTasks(onlyNew)] *)
Definition extractTasks (onlyNew : bool) : M Server unit :=
  a <- get_app ;;
  match logs a with
  | [] => showToast (lit "Add some logs first to extract tasks") error
  | _ =>
      if negb (apiConnected a)
      then showToast (lit "Backend server not available") error
      else
        try_catch
          (now <- get_clock ;;
           let today := isoDate now in
           response <- fetch (POST_generate_tasks today)
                             (serve_generate_tasks backend today) ;;
           (if negb (fst response) then
              errorData <- json (snd response) ;;
              throw (or_str (body_message errorData)
                            (lit "Failed to generate tasks"))
            else ret tt) ;;
           result <- json (snd response) ;;
           loadData ;;
           renderTasks (lit "all") ;;
           showToast (or_str (body_message result)
                             (lit "Tasks extracted successfully!")) success)
          (fun message =>
             emit (ConsoleError (lit "Error extracting tasks:") message) ;;
             showToast (lit "Failed to extract tasks: " ++ message) error)
  end.

(** [addLog()] *)
Definition addLog : M Server unit :=
  d <- get_dom ;;
  match log_input d with
  | None => ret tt
  | Some value =>
      let content := trim value in
      if falsy_str content
      then showToast (lit "Please enter some content for your log") error
      else
        try_catch
          (response <- fetch (POST_logs content)
                             (serve_post_logs backend content) ;;
           (if negb (fst response) then throw (lit "Failed to save log")
            else ret tt) ;;
           result <- json (snd response) ;;
           modify_app (fun a => set_logs (logs a ++ [reply_log result]) a) ;;
           modify_app (set_nextLogId (log_id (reply_log result) + 1)) ;;
           modify_dom (set_log_input (Some [])) ;;
           renderLogs ;;
           showToast (lit "Log entry added successfully!") success ;;
           d' <- get_dom ;;
           (match auto_diary d' with
            | Some true => generateDiary false true
            | _ => ret tt
            end) ;;
           (match auto_tasks d' with
            | Some true => extractTasks true
            | _ => ret tt
            end))
          (fun message =>
             emit (ConsoleError (lit "Error adding log:") message) ;;
             showToast (lit "Failed to add log entry") error)
  end.

(** [editLog(logId)]; [answer] is what [prompt] returns ([None] when the
    dialog is cancelled). *)
Definition editLog (logId : Z) (answer : option jsstring) : M Server unit :=
  a <- get_app ;;
  match find (fun l => log_id l =? logId) (logs a) with
  | None => ret tt
  | Some _ =>
      match answer with
      | Some newContent =>
          if negb (falsy_str (trim newContent)) then
            modify_app (fun a =>
              set_logs (assign_content logId (trim newContent) (logs a)) a) ;;
            renderLogs ;;
            showToast (lit "Log updated successfully!") success ;;
            handleLogChange
          else ret tt
      | None => ret tt
      end
  end.

(** [deleteLog(logId)]; [confirmed] is what [confirm] returns. *)
Definition deleteLog (logId : Z) (confirmed : bool) : M Server unit :=
  if confirmed then
    try_catch
      (a <- get_app ;;
       (if apiConnected a then
          response <- fetch (DELETE_log logId) (serve_delete_log backend logId) ;;
          if negb (fst response)
          then throw (lit "Failed to delete log from server")
          else ret tt
        else ret tt) ;;
       modify_app (fun a =>
         set_logs (List.filter (fun l => negb (log_id l =? logId)) (logs a)) a) ;;
       renderLogs ;;
       showToast (lit "Log deleted successfully!") success ;;
       handleLogChange)
      (fun message =>
         emit (ConsoleError (lit "Error deleting log:") message) ;;
         showToast (lit "Failed to delete log: " ++ message) error)
  else ret tt.

(** [addManualTask()] *)
Definition addManualTask : M Server unit :=
  d <- get_dom ;;
  match manual_task_input d, manual_task_priority d with
  | Some value, Some priority =>
      let description := trim value in
      if falsy_str description
      then showToast (lit "Please enter a task description") error
      else
        a <- get_app ;;
        now <- get_clock ;;
        let task :=
          {| task_id := nextTaskId a;
             task_description := description;
             task_completed := false;
             task_priority := priority;
             task_sourceLogId := None;
             task_createdAt := None;
             task_date := None;
             task_extractedAt := Some (generateTimestamp now) |} in
        modify_app (set_nextTaskId (nextTaskId a + 1)) ;;
        modify_app (fun a => set_tasks (tasks a ++ [task]) a) ;;
        modify_dom (set_manual_task_input (Some [])) ;;
        renderTasks (lit "all") ;;
        showToast (lit "Manual task added successfully!") success
  | _, _ => ret tt
  end.

End Methods.

(* ================================================================== *)
(** ** Further methods: connection check, start-up, tabs, task actions *)

Definition set_apiConnected (v : bool) (a : App) : App :=
  {| logs := logs a; diaryEntries := diaryEntries a; tasks := tasks a;
     currentTab := currentTab a; nextLogId := nextLogId a;
     nextTaskId := nextTaskId a; nextDiaryId := nextDiaryId a;
     apiConnected := v |}.

Definition set_currentTab (v : jsstring) (a : App) : App :=
  {| logs := logs a; diaryEntries := diaryEntries a; tasks := tasks a;
     currentTab := v; nextLogId := nextLogId a;
     nextTaskId := nextTaskId a; nextDiaryId := nextDiaryId a;
     apiConnected := apiConnected a |}.

(** The endpoints [/status], [/tasks/<id>/toggle] (PUT) and [/tasks/<id>]
    (DELETE) of the backend; their bodies are never read. *)
Record TaskBackend (Server : Type) := mkTaskBackend {
  serve_status : Server -> FetchResult unit * Server;
  serve_toggle_task : Z -> Server -> FetchResult unit * Server;
  serve_delete_task : Z -> Server -> FetchResult unit * Server
}.
Arguments serve_status {Server} _ _.
Arguments serve_toggle_task {Server} _ _ _.
Arguments serve_delete_task {Server} _ _ _.

(** [await fetch(...)] on one of these endpoints: the backend moves and a
    network failure rejects.  The event vocabulary has no name for these
    requests, so they show as the step of the backend only. *)
Definition call {Server A}
    (serve : Server -> FetchResult A * Server) : M Server (bool * Json A) :=
  fun w =>
    match serve (server w) with
    | (NetworkError m, sv) =>
        (Throw m, mkWorld (app w) (dom w) (clock w) sv, [])
    | (Response ok body, sv) =>
        (Normal (ok, body), mkWorld (app w) (dom w) (clock w) sv, [])
    end.

(** [task.completed = !task.completed] on the object returned by
    [tasks.find(t => t.id === taskId)]: the first task with that id. *)
Definition flip_completed (t : Task) : Task :=
  {| task_id := task_id t;
     task_description := task_description t;
     task_completed := negb (task_completed t);
     task_priority := task_priority t;
     task_sourceLogId := task_sourceLogId t;
     task_createdAt := task_createdAt t;
     task_date := task_date t;
     task_extractedAt := task_extractedAt t |}.

Fixpoint toggle_completed (taskId : Z) (l : list Task) : list Task :=
  match l with
  | [] => []
  | x :: r =>
      if task_id x =? taskId
      then flip_completed x :: r
      else x :: toggle_completed taskId r
  end.

(** The three numbers [updateTasksStats()] writes into the page:
    total, completed, pending. *)
Definition updateTasksStats (ts : list Task) : Z * Z * Z :=
  let totalTasks := Z.of_nat (List.length ts) in
  let completedTasks := Z.of_nat (List.length (List.filter task_completed ts)) in
  let pendingTasks := totalTasks - completedTasks in
  (totalTasks, completedTasks, pendingTasks).

Section FurtherMethods.

Context {Server : Type} (backend : Backend Server) (tb : TaskBackend Server).

(** [checkApiConnection()].  What it does to the application record, the
    backend and the console; the class and text that [updateApiStatus]
    gives [#api-status-indicator] are not among the elements of [Dom],
    so nothing here speaks of them. *)
Definition checkApiConnection : M Server unit :=
  try_catch
    (response <- call (serve_status tb) ;;
     if fst response
     then modify_app (set_apiConnected true)
     else throw (lit "API not responding"))
    (fun message =>
       modify_app (set_apiConnected false) ;;
       emit (ConsoleError (lit "API connection failed:") message)).

(** [filterTasks(filter)] *)
Definition filterTasks (filter : jsstring) : M Server unit :=
  renderTasks filter.

(** [updateDiarySection()] *)
Definition updateDiarySection : M Server unit :=
  now <- get_clock ;;
  let today := isoDate now in
  a <- get_app ;;
  let hasDiary :=
    find (fun entry => str_eqb (diary_date entry) today) (diaryEntries a) in
  match logs a with
  | [] => ret tt
  | _ =>
      match hasDiary with
      | Some entry => displayDiaryEntry entry
      | None => ret tt
      end
  end.

(** [updateTasksSection()] *)
Definition updateTasksSection : M Server unit :=
  renderTasks (lit "all").

(** [showEmptyStates()] *)
Definition showEmptyStates : M Server unit :=
  a <- get_app ;;
  if str_eqb (currentTab a) (lit "diary") then updateDiarySection
  else if str_eqb (currentTab a) (lit "tasks") then updateTasksSection
  else ret tt.

(** [switchTab(tabName)]; [tabName] is [None] when the button carries no
    [data-tab] attribute.  [document.querySelector] is handed the name
    between double quotes inside an attribute selector and throws a
    SyntaxError when the browser does not read the result as a selector,
    as it may for a name that holds a double quote; [selector_error]
    is the browser's verdict on a name, with the message of the error.
    Nothing catches the error, and it is thrown before [this.currentTab]
    is assigned. *)
Definition switchTab (selector_error : jsstring -> option jsstring)
    (tabName : option jsstring) : M Server unit :=
  match tabName with
  | None => ret tt
  | Some name =>
      if falsy_str name then ret tt
      else
        match selector_error name with
        | Some message => throw message
        | None =>
            modify_app (set_currentTab name) ;;
            if str_eqb name (lit "logs") then renderLogs
            else if str_eqb name (lit "diary") then updateDiarySection
            else if str_eqb name (lit "tasks") then updateTasksSection
            else ret tt
        end
  end.

(** [hideDiaryHistory()] *)
Definition hideDiaryHistory : M Server unit :=
  now <- get_clock ;;
  let today := isoDate now in
  a <- get_app ;;
  match find (fun entry => str_eqb (diary_date entry) today) (diaryEntries a) with
  | Some todaysDiary => displayDiaryEntry todaysDiary
  | None => ret tt
  end.

(** [viewHistoryEntry(date)] *)
Definition viewHistoryEntry (date : jsstring) : M Server unit :=
  a <- get_app ;;
  match find (fun e => str_eqb (diary_date e) date) (diaryEntries a) with
  | Some entry => hideDiaryHistory ;; displayDiaryEntry entry
  | None => ret tt
  end.

(** [init()], without the wiring of the event listeners. *)
Definition init : M Server unit :=
  checkApiConnection ;;
  loadData backend ;;
  renderLogs ;;
  showEmptyStates.

(** [toggleTaskComplete(taskId)] *)
Definition toggleTaskComplete (taskId : Z) : M Server unit :=
  try_catch
    (response <- call (serve_toggle_task tb taskId) ;;
     (if negb (fst response) then throw (lit "Failed to update task")
      else ret tt) ;;
     a <- get_app ;;
     match find (fun t => task_id t =? taskId) (tasks a) with
     | Some task =>
         modify_app (fun a => set_tasks (toggle_completed taskId (tasks a)) a) ;;
         renderTasks (lit "all") ;;
         let status :=
           if negb (task_completed task) then lit "completed"
           else lit "reopened" in
         showToast (lit "Task " ++ status ++ lit "!") success
     | None => ret tt
     end)
    (fun message =>
       emit (ConsoleError (lit "Error toggling task:") message) ;;
       showToast (lit "Failed to update task") error).

(** [deleteTask(taskId)]; [confirmed] is what [confirm] returns. *)
Definition deleteTask (taskId : Z) (confirmed : bool) : M Server unit :=
  if confirmed then
    try_catch
      (a <- get_app ;;
       (if apiConnected a then
          response <- call (serve_delete_task tb taskId) ;;
          if negb (fst response)
          then throw (lit "Failed to delete task from server")
          else ret tt
        else ret tt) ;;
       modify_app (fun a =>
         set_tasks (List.filter (fun t => negb (task_id t =? taskId)) (tasks a)) a) ;;
       renderTasks (lit "all") ;;
       showToast (lit "Task deleted successfully!") success)
      (fun message =>
         emit (ConsoleError (lit "Error deleting task:") message) ;;
         showToast (lit "Failed to delete task: " ++ message) error)
  else ret tt.

End FurtherMethods.

(* ================================================================== *)
(** ** Vocabulary of the properties *)

(** A two-digit, zero-padded decimal field. *)
Definition two_digits (n : Z) : jsstring :=
  [Z.to_N (48 + n / 10); Z.to_N (48 + n mod 10)].

(** A four-digit decimal field. *)
Definition four_digits (n : Z) : jsstring :=
  [Z.to_N (48 + n / 1000); Z.to_N (48 + (n / 100) mod 10);
   Z.to_N (48 + (n / 10) mod 10); Z.to_N (48 + n mod 10)].

Definition isDigit (c : code_unit) : bool := N.leb 48 c && N.leb c 57.

(** Seconds since local midnight: the chronological position of a clock
    reading within its calendar date. *)
Definition timeOfDay (c : Clock) : Z :=
  3600 * getHours c + 60 * getMinutes c + getSeconds c.

Definition same_calendar_date (c1 c2 : Clock) : Prop :=
  getDate c1 = getDate c2 /\ getMonth c1 = getMonth c2 /\
  getFullYear c1 = getFullYear c2.

(** The priorities of the data model. *)
Definition known_priority (t : Task) : Prop :=
  task_priority t = lit "High" \/ task_priority t = lit "Medium" \/
  task_priority t = lit "Low".

(** [p] is a strictly higher priority than [q]. *)
Definition outranks (p q : jsstring) : Prop :=
  (p = lit "High" /\ (q = lit "Medium" \/ q = lit "Low")) \/
  (p = lit "Medium" /\ q = lit "Low").

(** [a] may stand before [b] in the rendered list: a completed task is
    never before an incomplete one, and within a group a task is never
    before one of higher priority. *)
Definition in_render_order (a b : Task) : Prop :=
  (task_completed a = true -> task_completed b = true) /\
  (task_completed a = task_completed b ->
   ~ outranks (task_priority b) (task_priority a)).

(** [a] may stand before [b] as far as completion goes. *)
Definition incomplete_first (a b : Task) : Prop :=
  task_completed a = true -> task_completed b = true.

Definition shown_tasks (v : option TasksView) : list Task :=
  match v with
  | Some (TaskItems items) => items
  | _ => []
  end.

(** The events of a run that are requests to the backend. *)
Definition is_fetch (e : Event) : bool :=
  match e with Fetch _ => true | _ => false end.

Definition requests (ev : list Event) : list Event := List.filter is_fetch ev.

Definition rank (p : jsstring) : Z :=
  match priorityOrder p with Some v => v | None => 0 end.

(** Position of a task in the rendered order: incomplete before
    completed, then by decreasing priority. *)
Definition render_key (t : Task) : Z :=
  4 * bool_num (task_completed t) + (3 - rank (task_priority t)).

(** The page after the hook has offered the manual update: the update
    button, when the page has one, is no longer hidden. *)
Definition offer_update (d : Dom) : Dom :=
  match update_diary_btn d with
  | Some _ => set_update_diary_btn (Some false) d
  | None => d
  end.

(** "A diary exists for this date." *)
Definition diary_exists (date : jsstring) (entries : list DiaryEntry) : bool :=
  existsb (fun entry => str_eqb (diary_date entry) date) entries.

(** The task object built by [addManualTask]. *)
Definition manual_task {Server} (w : World Server) (value priority : jsstring) : Task :=
  {| task_id := nextTaskId (app w);
     task_description := trim value;
     task_completed := false;
     task_priority := priority;
     task_sourceLogId := None;
     task_createdAt := None;
     task_date := None;
     task_extractedAt := Some (generateTimestamp (clock w)) |}.

(** The body a response delivers: it must be [ok] and parse. *)
Definition delivered {A} (r : FetchResult A) : option A :=
  match r with
  | Response true (JsonValue a) => Some a
  | _ => None
  end.

(** A field of the delivered body; [None] when the response, the body or
    the field is missing. *)
Definition field {A B} (f : A -> option B) (r : FetchResult A) : option B :=
  match delivered r with
  | Some a => f a
  | None => None
  end.

(** A response at which a [try] block that fetches and, when [ok], reads
    the body is left for its [catch]: the request was rejected, or the
    body of an [ok] response is not JSON. *)
Definition interrupts {A} (r : FetchResult A) : bool :=
  match r with
  | NetworkError _ => true
  | Response true (JsonError _) => true
  | _ => false
  end.

(** [c] never changes the observation [f] of the world, however it
    completes. *)
Definition preserves {Server A X} (f : World Server -> X) (c : M Server A) : Prop :=
  forall w, f (final (c w)) = f w.

(** [c] always completes normally. *)
Definition total {Server A} (c : M Server A) : Prop :=
  forall w, exists a, completion (c w) = Normal a.

(** Every event of [c] satisfies [Q]. *)
Definition emits {Server A} (Q : Event -> Prop) (c : M Server A) : Prop :=
  forall w, Forall Q (events (c w)).

(** An event other than the [console.error] of the given catch block. *)
Definition not_console (label : jsstring) (e : Event) : Prop :=
  match e with
  | ConsoleError l _ => l <> label
  | _ => True
  end.

(** When [c] throws, the observation [g] is as it was before [c]. *)
Definition throws_clean {Server A X} (g : World Server -> X) (c : M Server A) : Prop :=
  forall w m, completion (c w) = Throw m -> g (final (c w)) = g w.

(** Refinement side, following the specification's words: the calendar
    date [YYYY-MM-DD] on which a [HHMMSSDDMMYYYY] timestamp falls, and the
    logs of a date. *)
Definition spec_timestampDate (ts : jsstring) : jsstring :=
  substring 10 14 ts ++ lit "-" ++ substring 8 10 ts ++ lit "-" ++ substring 6 8 ts.

Definition spec_logsForDate (date : jsstring) (l : list LogEntry) : list LogEntry :=
  List.filter (fun log => str_eqb (spec_timestampDate (log_timestamp log)) date) l.

(* ================================================================== *)
(** ** Sample environments *)

(** A log written at noon of the day before [noon], and the diary entry
    synthesised from it that day. *)
Definition yesterday_log : LogEntry :=
  mkLog 1 (lit "Need to call the dentist") (lit "12000001102025") 5.

Definition sample_diary : DiaryEntry :=
  mkDiary 1 (lit "2025-10-01") (lit "A quiet day.") (lit "2025-10-01T19:00:00.000Z")
          (lit "2025-10-01T19:00:00.000Z") [1].

Definition sample_tasks : list Task :=
  [ mkTask 1 (lit "File taxes") true (lit "High") (Some 1) None None None;
    mkTask 2 (lit "Water plants") false (lit "Low") None None None None;
    mkTask 3 (lit "Call the dentist") false (lit "High") (Some 1) None None None;
    mkTask 4 (lit "Buy stamps") false (lit "Medium") None None None None ].

(** A backend on a fresh store: it answers every request, and its
    collections carry neither entries nor counters. *)
Definition fresh_store : Backend unit :=
  {| serve_get_logs := fun sv =>
       (Response true (JsonValue (mkLogsData None None)), sv);
     serve_get_diary := fun sv =>
       (Response true (JsonValue (mkDiaryData None None)), sv);
     serve_get_tasks := fun sv =>
       (Response true (JsonValue (mkTasksData None None)), sv);
     serve_post_logs := fun content sv =>
       (Response true (JsonValue (mkLogReply
          (mkLog 1 content (lit "120000011025") 1))), sv);
     serve_delete_log := fun _ sv => (Response true (JsonValue tt), sv);
     serve_generate_diary := fun _ sv =>
       (Response true (JsonValue (mkMessageBody None)), sv);
     serve_generate_tasks := fun _ sv =>
       (Response true (JsonValue (mkMessageBody None)), sv) |}.

(** A backend holding yesterday's log, diary entry and tasks; its
    generation endpoints succeed. *)
Definition day_after : Backend unit :=
  {| serve_get_logs := fun sv =>
       (Response true (JsonValue (mkLogsData (Some [yesterday_log]) (Some 2))), sv);
     serve_get_diary := fun sv =>
       (Response true (JsonValue (mkDiaryData (Some [sample_diary]) (Some 2))), sv);
     serve_get_tasks := fun sv =>
       (Response true (JsonValue (mkTasksData (Some sample_tasks) (Some 5))), sv);
     serve_post_logs := fun content sv =>
       (Response true (JsonValue (mkLogReply
          (mkLog 2 content (lit "120000021025") 1))), sv);
     serve_delete_log := fun _ sv => (Response true (JsonValue tt), sv);
     serve_generate_diary := fun _ sv =>
       (Response true (JsonValue (mkMessageBody
          (Some (lit "Diary entry generated successfully")))), sv);
     serve_generate_tasks := fun _ sv =>
       (Response true (JsonValue (mkMessageBody (Some (lit "Generated 0 tasks")))), sv) |}.

(** A backend whose generation endpoints answer 500 with a message. *)
Definition oracle_down : Backend unit :=
  {| serve_get_logs := fun sv =>
       (Response true (JsonValue (mkLogsData None None)), sv);
     serve_get_diary := fun sv =>
       (Response true (JsonValue (mkDiaryData None None)), sv);
     serve_get_tasks := fun sv =>
       (Response true (JsonValue (mkTasksData None None)), sv);
     serve_post_logs := fun _ sv => (Response false (JsonError []), sv);
     serve_delete_log := fun _ sv => (Response true (JsonValue tt), sv);
     serve_generate_diary := fun _ sv =>
       (Response false (JsonValue (mkMessageBody (Some (lit "Groq unavailable")))), sv);
     serve_generate_tasks := fun _ sv =>
       (Response false (JsonValue (mkMessageBody (Some (lit "Groq unavailable")))), sv) |}.

(** 12:00:00 on 02/10/2025. *)
Definition noon : Clock :=
  {| getHours := 12; getMinutes := 0; getSeconds := 0;
     getDate := 2; getMonth := 9; getFullYear := 2025;
     isoDate := lit "2025-10-02" |}.

(** 18:30:05 on the same date. *)
Definition evening : Clock :=
  {| getHours := 18; getMinutes := 30; getSeconds := 5;
     getDate := 2; getMonth := 9; getFullYear := 2025;
     isoDate := lit "2025-10-02" |}.

(** A page with every element present. *)
Definition page : Dom :=
  {| log_input := Some (lit "   "); auto_diary := Some false;
     auto_tasks := Some false; update_diary_btn := Some true;
     diary_text := Some []; manual_task_input := Some (lit " Buy milk ");
     manual_task_priority := Some (lit "High");
     logs_list := Some LogsEmptyState; tasks_list := Some TasksEmptyState |}.

Definition sample_app : App :=
  {| logs := [yesterday_log]; diaryEntries := [sample_diary];
     tasks := sample_tasks; currentTab := lit "logs";
     nextLogId := 2; nextTaskId := 5; nextDiaryId := 2;
     apiConnected := true |}.

Definition sample_world : World unit :=
  mkWorld sample_app page noon tt.

(* ================================================================== *)
(** ** Vocabulary and sample environments of the further properties *)

(** What [#logs-list] shows: the formatted timestamp and the log of each
    entry, top to bottom. *)
Definition shown_logs (v : option LogsView) : list (jsstring * LogEntry) :=
  match v with
  | Some (LogsItems items) => items
  | _ => []
  end.

(** [a] may stand above [b] in the log list: its timestamp is not
    smaller, in the order of [localeCompare]. *)
Definition not_older (a b : LogEntry) : Prop :=
  localeCompare (log_timestamp b) (log_timestamp a) <= 0.

(** Timestamps as the application and its backend write them: ASCII
    digits only, all of one width.  On such strings the order of
    [localeCompare] is the one every locale's collation gives. *)
Definition digit_stamps (ls : list LogEntry) : Prop :=
  exists width : nat,
    Forall (fun l => forallb isDigit (log_timestamp l) = true /\
                     List.length (log_timestamp l) = width) ls.

(** The world [renderTasks(filter)] leaves, in closed form. *)
Definition rendered {Server} (filter : jsstring) (w : World Server) : World Server :=
  match tasks_list (dom w) with
  | None => w
  | Some _ =>
      match filteredTasks filter (tasks (app w)) with
      | [] =>
          mkWorld (app w) (set_tasks_list (Some TasksEmptyState) (dom w))
                  (clock w) (server w)
      | filtered =>
          mkWorld
            (if aliases_tasks filter
             then set_tasks (sort taskOrder filtered) (app w)
             else app w)
            (set_tasks_list (Some (TaskItems (sort taskOrder filtered))) (dom w))
            (clock w) (server w)
      end
  end.

(** The world [renderLogs()] leaves, in closed form. *)
Definition logs_rendered {Server} (w : World Server) : World Server :=
  match logs_list (dom w) with
  | None => w
  | Some _ =>
      mkWorld (app w)
        (set_logs_list
           (Some match logs (app w) with
                 | [] => LogsEmptyState
                 | ls => LogsItems
                           (map (fun log => (formatTimestamp (log_timestamp log), log))
                                (sort newestFirst ls))
                 end)
           (dom w))
        (clock w) (server w)
  end.

(** The world [handleLogChange()] leaves, in closed form. *)
Definition hook_applied {Server} (w : World Server) : World Server :=
  if diary_exists (isoDate (clock w)) (diaryEntries (app w))
  then mkWorld (app w) (offer_update (dom w)) (clock w) (server w)
  else w.

(** The ends of a string: its first and its last code unit, if any. *)
Definition ends_clean (s : jsstring) : Prop :=
  match hd_error s with Some c => isWhiteSpace c = false | None => True end /\
  match hd_error (rev s) with Some c => isWhiteSpace c = false | None => True end.

(** A backend that answers every request with a 500 whose body does not
    parse. *)
Definition refusing : Backend unit :=
  {| serve_get_logs := fun sv => (Response false (JsonError []), sv);
     serve_get_diary := fun sv => (Response false (JsonError []), sv);
     serve_get_tasks := fun sv => (Response false (JsonError []), sv);
     serve_post_logs := fun _ sv => (Response false (JsonError []), sv);
     serve_delete_log := fun _ sv => (Response false (JsonError []), sv);
     serve_generate_diary := fun _ sv => (Response false (JsonError []), sv);
     serve_generate_tasks := fun _ sv => (Response false (JsonError []), sv) |}.

(** An event that does not write the backend's log collection: anything
    but [POST /logs] and [DELETE /logs/<id>]. *)
Definition writes_no_log (e : Event) : Prop :=
  match e with
  | Fetch (POST_logs _) => False
  | Fetch (DELETE_log _) => False
  | _ => True
  end.

(** A property of events that holds of every report and of every request
    other than the two that write the backend's log collection. *)
Definition benign (Q : Event -> Prop) : Prop :=
  (forall m t, Q (Toast m t)) /\
  (forall l m, Q (ConsoleError l m)) /\
  (forall r, writes_no_log (Fetch r) -> Q (Fetch r)).

(** The world [displayDiaryEntry(entry)] leaves, in closed form. *)
Definition diary_displayed {Server} (entry : DiaryEntry) (w : World Server)
  : World Server :=
  mkWorld (app w)
    (match update_diary_btn
             (match diary_text (dom w) with
              | Some _ => set_diary_text (Some (diary_content entry)) (dom w)
              | None => dom w
              end) with
     | Some _ =>
         set_update_diary_btn (Some true)
           (match diary_text (dom w) with
            | Some _ => set_diary_text (Some (diary_content entry)) (dom w)
            | None => dom w
            end)
     | None =>
         match diary_text (dom w) with
         | Some _ => set_diary_text (Some (diary_content entry)) (dom w)
         | None => dom w
         end
     end)
    (clock w) (server w).

(** Task endpoints that accept everything, and task endpoints that are
    unreachable. *)
Definition task_ok : TaskBackend unit :=
  {| serve_status := fun sv => (Response true (JsonValue tt), sv);
     serve_toggle_task := fun _ sv => (Response true (JsonValue tt), sv);
     serve_delete_task := fun _ sv => (Response true (JsonValue tt), sv) |}.

Definition task_down : TaskBackend unit :=
  {| serve_status := fun sv => (NetworkError (lit "Failed to fetch"), sv);
     serve_toggle_task := fun _ sv => (NetworkError (lit "Failed to fetch"), sv);
     serve_delete_task := fun _ sv => (NetworkError (lit "Failed to fetch"), sv) |}.

(** The invariant of the task ids: they are pairwise distinct and all
    below the next-id counter. *)
Definition task_ids_fresh (a : App) : Prop :=
  NoDup (map task_id (tasks a)) /\
  Forall (fun t => task_id t < nextTaskId a) (tasks a).

(** A backend whose diary endpoint is unreachable. *)
Definition diary_down : Backend unit :=
  {| serve_get_logs := fun sv =>
       (Response true (JsonValue (mkLogsData (Some [yesterday_log]) (Some 2))), sv);
     serve_get_diary := fun sv => (NetworkError (lit "Failed to fetch"), sv);
     serve_get_tasks := fun sv =>
       (Response true (JsonValue (mkTasksData (Some sample_tasks) (Some 5))), sv);
     serve_post_logs := fun _ sv => (NetworkError (lit "Failed to fetch"), sv);
     serve_delete_log := fun _ sv => (NetworkError (lit "Failed to fetch"), sv);
     serve_generate_diary := fun _ sv => (NetworkError (lit "Failed to fetch"), sv);
     serve_generate_tasks := fun _ sv => (NetworkError (lit "Failed to fetch"), sv) |}.

(** The diary entry of [noon]'s date, and a backend that holds it. *)
Definition today_diary : DiaryEntry :=
  mkDiary 2 (lit "2025-10-02") (lit "Called the dentist.")
          (lit "2025-10-02T12:00:00.000Z") (lit "2025-10-02T12:00:00.000Z") [1].

Definition synthesised : Backend unit :=
  {| serve_get_logs := fun sv =>
       (Response true (JsonValue (mkLogsData (Some [yesterday_log]) (Some 2))), sv);
     serve_get_diary := fun sv =>
       (Response true
          (JsonValue (mkDiaryData (Some [sample_diary; today_diary]) (Some 3))), sv);
     serve_get_tasks := fun sv =>
       (Response true (JsonValue (mkTasksData (Some sample_tasks) (Some 5))), sv);
     serve_post_logs := fun _ sv => (Response false (JsonError []), sv);
     serve_delete_log := fun _ sv => (Response true (JsonValue tt), sv);
     serve_generate_diary := fun _ sv =>
       (Response true (JsonValue (mkMessageBody None)), sv);
     serve_generate_tasks := fun _ sv =>
       (Response true (JsonValue (mkMessageBody None)), sv) |}.

(** [flip_completed] on the tasks carrying the id, and no other. *)
Definition flip_if (taskId : Z) (t : Task) : Task :=
  if task_id t =? taskId then flip_completed t else t.

(* ================================================================== *)
(** ** Facts about the primitives *)

Lemma str_eqb_eq (a b : jsstring) : str_eqb a b = true <-> a = b.
Proof.
  revert b; induction a as [|x a IH]; intros [|y b]; simpl;
    try (split; [discriminate | discriminate]); try tauto.
  rewrite andb_true_iff, N.eqb_eq, IH.
  split; [intros [-> ->]; reflexivity | intros H; inversion H; auto].
Qed.

Lemma str_eqb_refl (a : jsstring) : str_eqb a a = true.
Proof. apply str_eqb_eq; reflexivity. Qed.

Lemma falsy_str_nil (s : jsstring) : falsy_str s = true <-> s = [].
Proof. destruct s; simpl; split; congruence. Qed.

Lemma localeCompare_refl (s : jsstring) : localeCompare s s = 0.
Proof.
  induction s as [|x s IH]; simpl; [reflexivity|].
  rewrite N.compare_refl; exact IH.
Qed.

(** Comparing two strings that start with a two-digit field. *)
Lemma localeCompare_two_digits (a b : Z) (r1 r2 : jsstring) :
  0 <= a <= 99 -> 0 <= b <= 99 ->
  localeCompare (two_digits a ++ r1) (two_digits b ++ r2) =
  match a ?= b with
  | Lt => -1
  | Gt => 1
  | Eq => localeCompare r1 r2
  end.
Proof.
  intros Ha Hb. unfold two_digits. cbn [List.app localeCompare].
  pose proof (Z.div_mod a 10 ltac:(lia)) as Ea.
  pose proof (Z.div_mod b 10 ltac:(lia)) as Eb.
  pose proof (Z.mod_pos_bound a 10 ltac:(lia)) as Ma.
  pose proof (Z.mod_pos_bound b 10 ltac:(lia)) as Mb.
  assert (0 <= a / 10) by (apply Z.div_pos; lia).
  assert (0 <= b / 10) by (apply Z.div_pos; lia).
  rewrite !Z2N.inj_compare by lia.
  destruct (Z.compare_spec (48 + a / 10) (48 + b / 10)) as [E|L|G].
  - destruct (Z.compare_spec (48 + a mod 10) (48 + b mod 10)) as [E'|L'|G'];
      destruct (Z.compare_spec a b); try lia; reflexivity.
  - destruct (Z.compare_spec a b); try lia; reflexivity.
  - destruct (Z.compare_spec a b); try lia; reflexivity.
Qed.

(** Every number of a finite range satisfies a decidable property that
    holds on each of them. *)
Lemma range_check (P : Z -> bool) (lo n : Z) :
  forallb (fun k => P (lo + Z.of_nat k)) (seq 0 (Z.to_nat n)) = true ->
  forall z, lo <= z < lo + n -> P z = true.
Proof.
  intros H z Hz. rewrite forallb_forall in H.
  specialize (H (Z.to_nat (z - lo))).
  replace (lo + Z.of_nat (Z.to_nat (z - lo))) with z in H by lia.
  apply H. apply in_seq. lia.
Qed.

(** [String(n).padStart(2, '0')] is the two-digit field of [n]. *)
Lemma padStart_two_digits (n : Z) :
  0 <= n <= 99 -> padStart 2 48%N (String_of n) = two_digits n.
Proof.
  intros Hn. apply str_eqb_eq.
  apply (range_check
           (fun z => str_eqb (padStart 2 48%N (String_of z)) (two_digits z))
           0 100); [vm_compute; reflexivity | lia].
Qed.

(** [String(n)] of a four-digit year. *)
Lemma String_of_four_digits (n : Z) :
  1000 <= n <= 9999 -> String_of n = four_digits n.
Proof.
  intros Hn. apply str_eqb_eq.
  apply (range_check (fun z => str_eqb (String_of z) (four_digits z))
                     1000 9000); [vm_compute; reflexivity | lia].
Qed.

Lemma two_digits_isDigit (n : Z) :
  0 <= n <= 99 -> forallb isDigit (two_digits n) = true.
Proof.
  intros Hn.
  apply (range_check (fun z => forallb isDigit (two_digits z)) 0 100);
    [vm_compute; reflexivity | lia].
Qed.

Lemma four_digits_isDigit (n : Z) :
  1000 <= n <= 9999 -> forallb isDigit (four_digits n) = true.
Proof.
  intros Hn.
  apply (range_check (fun z => forallb isDigit (four_digits z)) 1000 9000);
    [vm_compute; reflexivity | lia].
Qed.

(** *** [sort] *)

Lemma insert_perm {A} (cmp : A -> A -> number) (x : A) (l : list A) :
  Permutation (insert cmp x l) (x :: l).
Proof.
  induction l as [|y r IH]; simpl; [reflexivity|].
  destruct (goes_after cmp x y); [|reflexivity].
  rewrite IH. apply perm_swap.
Qed.

Lemma sort_perm {A} (cmp : A -> A -> number) (l : list A) :
  Permutation (sort cmp l) l.
Proof.
  induction l as [|x r IH]; simpl; [reflexivity|].
  rewrite insert_perm. constructor. exact IH.
Qed.

Section SortByKey.

(** A comparator that, on the elements satisfying [P], moves [x] behind
    [y] only when [y] has no larger key, and leaves [x] in front of [y]
    only when [x] has no larger key. *)
Context {A : Type} (cmp : A -> A -> number) (P : A -> Prop) (key : A -> Z).
Hypothesis cmp_after :
  forall x y, P x -> P y -> goes_after cmp x y = true -> key y <= key x.
Hypothesis cmp_stay :
  forall x y, P x -> P y -> goes_after cmp x y = false -> key x <= key y.

Lemma insert_sorted (x : A) (l : list A) :
  P x -> Forall P l ->
  StronglySorted (fun a b => key a <= key b) l ->
  StronglySorted (fun a b => key a <= key b) (insert cmp x l).
Proof.
  intros Px Pl Hs. induction Hs as [|y r Hr IH Hy]; simpl.
  - constructor; constructor.
  - inversion Pl as [|? ? Py Pr]; subst.
    destruct (goes_after cmp x y) eqn:E.
    + apply cmp_after in E; auto.
      constructor; [apply IH; assumption|].
      eapply Permutation_Forall; [symmetry; apply insert_perm|].
      constructor; assumption.
    + apply cmp_stay in E; auto.
      constructor; [constructor; assumption|].
      constructor; [exact E|].
      eapply Forall_impl; [|exact Hy]. intros; simpl in *; lia.
Qed.

Lemma sort_sorted (l : list A) :
  Forall P l -> StronglySorted (fun a b => key a <= key b) (sort cmp l).
Proof.
  induction l as [|x r IH]; intros Hl; simpl; [constructor|].
  inversion Hl; subst.
  apply insert_sorted; auto.
  eapply Permutation_Forall; [symmetry; apply sort_perm | assumption].
Qed.

End SortByKey.

(* ================================================================== *)
(** ** Timestamps *)

(** The five padded fields of a timestamp, followed by the year as
    [String] prints it. *)
Lemma generateTimestamp_fields (c : Clock) :
  valid_clock c ->
  generateTimestamp c =
  two_digits (getHours c) ++ two_digits (getMinutes c) ++
  two_digits (getSeconds c) ++ two_digits (getDate c) ++
  two_digits (getMonth c + 1) ++ String_of (getFullYear c).
Proof.
  intros (Hh & Hm & Hs & Hd & Hmo). unfold generateTimestamp.
  rewrite !padStart_two_digits by lia. reflexivity.
Qed.

Lemma generateTimestamp_length (c : Clock) :
  valid_clock c -> four_digit_year c ->
  List.length (generateTimestamp c) = 14%nat.
Proof.
  intros Hc Hy. rewrite generateTimestamp_fields by assumption.
  rewrite String_of_four_digits by assumption. reflexivity.
Qed.

(** The sign of [b.timestamp.localeCompare(a.timestamp)] for two readings
    of the same calendar date is decided by the time of day alone. *)
Lemma localeCompare_same_date (ca cb : Clock) :
  valid_clock ca -> valid_clock cb -> same_calendar_date ca cb ->
  localeCompare (generateTimestamp cb) (generateTimestamp ca) =
  match timeOfDay cb ?= timeOfDay ca with
  | Lt => -1
  | Gt => 1
  | Eq => 0
  end.
Proof.
  intros Ha Hb (Ed & Em & Ey).
  rewrite !generateTimestamp_fields by assumption.
  destruct Ha as (Hh & Hm & Hs & _), Hb as (Hh' & Hm' & Hs' & _).
  rewrite Ed, Em, Ey.
  rewrite !localeCompare_two_digits by lia.
  rewrite localeCompare_refl.
  unfold timeOfDay.
  destruct (Z.compare_spec (getHours cb) (getHours ca));
    destruct (Z.compare_spec (getMinutes cb) (getMinutes ca));
    destruct (Z.compare_spec (getSeconds cb) (getSeconds ca));
    match goal with
    | |- _ = match ?x ?= ?y with _ => _ end =>
        destruct (Z.compare_spec x y); try lia; reflexivity
    end.
Qed.

(** C6.  For every reading of the clock with a four-digit year,
    [generateTimestamp] returns the fourteen digits HH MM SS DD MM YYYY,
    each field zero-padded to its fixed width; and for two logs stamped
    by readings of the same calendar date, the comparator of the
    newest-first sort, [b.timestamp.localeCompare(a.timestamp)], is
    negative, zero or positive exactly when [a] is later than, as old as
    or earlier than [b]. *)
Theorem generateTimestamp_fixed_width_sortable
    (ca cb : Clock) (a b : LogEntry) :
  valid_clock ca -> valid_clock cb ->
  four_digit_year ca ->
  same_calendar_date ca cb ->
  log_timestamp a = generateTimestamp ca ->
  log_timestamp b = generateTimestamp cb ->
  (generateTimestamp ca =
     two_digits (getHours ca) ++ two_digits (getMinutes ca) ++
     two_digits (getSeconds ca) ++ two_digits (getDate ca) ++
     two_digits (getMonth ca + 1) ++ four_digits (getFullYear ca)
   /\ List.length (generateTimestamp ca) = 14%nat
   /\ forallb isDigit (generateTimestamp ca) = true)
  /\ exists v, newestFirst a b = Some v
       /\ (v < 0 <-> timeOfDay cb < timeOfDay ca)
       /\ (v = 0 <-> timeOfDay cb = timeOfDay ca)
       /\ (0 < v <-> timeOfDay ca < timeOfDay cb).
Proof.
  intros Ha Hb Hy Hsame Ta Tb. split.
  - split; [|split].
    + rewrite generateTimestamp_fields by assumption.
      rewrite String_of_four_digits by assumption. reflexivity.
    + apply generateTimestamp_length; assumption.
    + rewrite generateTimestamp_fields by assumption.
      rewrite String_of_four_digits by assumption.
      destruct Ha as (Hh & Hm & Hs & Hd & Hmo).
      rewrite !forallb_app, !two_digits_isDigit by lia.
      rewrite four_digits_isDigit by assumption. reflexivity.
  - unfold newestFirst. rewrite Ta, Tb.
    rewrite localeCompare_same_date by assumption.
    eexists; split; [reflexivity|].
    destruct (Z.compare_spec (timeOfDay cb) (timeOfDay ca)); lia.
Qed.

Lemma generateTimestamp_fixed_width_sortable_witness :
  (generateTimestamp evening = lit "18300502102025"
   /\ List.length (generateTimestamp evening) = 14%nat
   /\ forallb isDigit (generateTimestamp evening) = true)
  /\ exists v,
       newestFirst (mkLog 2 (lit "later") (generateTimestamp evening) 1)
                   (mkLog 1 (lit "sooner") (generateTimestamp noon) 1) = Some v
       /\ (v < 0 <-> timeOfDay noon < timeOfDay evening)
       /\ (v = 0 <-> timeOfDay noon = timeOfDay evening)
       /\ (0 < v <-> timeOfDay evening < timeOfDay noon).
Proof.
  apply (generateTimestamp_fixed_width_sortable evening noon
           (mkLog 2 (lit "later") (generateTimestamp evening) 1)
           (mkLog 1 (lit "sooner") (generateTimestamp noon) 1)).
  - unfold valid_clock; simpl; lia.
  - unfold valid_clock; simpl; lia.
  - unfold four_digit_year; simpl; lia.
  - unfold same_calendar_date; simpl; auto.
  - reflexivity.
  - reflexivity.
Defined.

(** C10.  For every reading of the clock with a four-digit year, the
    timestamp [generateTimestamp] produces has fourteen characters, and
    [formatTimestamp], which accepts twelve, answers
    ['Invalid timestamp']. *)
Theorem formatTimestamp_rejects_generated (c : Clock) :
  valid_clock c -> four_digit_year c ->
  List.length (generateTimestamp c) = 14%nat /\
  formatTimestamp (generateTimestamp c) = lit "Invalid timestamp".
Proof.
  intros Hc Hy.
  pose proof (generateTimestamp_length c Hc Hy) as L.
  split; [exact L|].
  unfold formatTimestamp. rewrite L. simpl.
  rewrite orb_true_r. reflexivity.
Qed.

Lemma formatTimestamp_rejects_generated_witness :
  List.length (generateTimestamp noon) = 14%nat /\
  formatTimestamp (generateTimestamp noon) = lit "Invalid timestamp".
Proof.
  apply (formatTimestamp_rejects_generated noon).
  - unfold valid_clock; simpl; lia.
  - unfold four_digit_year; simpl; lia.
Defined.

(* ================================================================== *)
(** ** Task ordering *)

Lemma known_priority_rank (t : Task) :
  known_priority t ->
  priorityOrder (task_priority t) = Some (rank (task_priority t)) /\
  1 <= rank (task_priority t) <= 3.
Proof.
  unfold rank. intros [E|[E|E]]; rewrite E; vm_compute; intuition congruence.
Qed.

Lemma outranks_rank (p q : jsstring) : outranks p q -> rank q < rank p.
Proof.
  unfold outranks.
  intros [[-> [-> | ->]] | [-> ->]]; vm_compute; reflexivity.
Qed.

Lemma taskOrder_key (x y : Task) :
  known_priority x -> known_priority y ->
  (goes_after taskOrder x y = true <-> render_key y < render_key x).
Proof.
  intros Hx Hy.
  destruct (known_priority_rank x Hx) as [Ex Rx].
  destruct (known_priority_rank y Hy) as [Ey Ry].
  unfold goes_after, taskOrder, render_key. rewrite Ex, Ey.
  destruct (task_completed x), (task_completed y);
    cbn [negb Bool.eqb bool_num goes_after];
    rewrite Z.ltb_lt; lia.
Qed.

Lemma render_key_order (a b : Task) :
  known_priority a -> known_priority b ->
  render_key a <= render_key b -> in_render_order a b.
Proof.
  intros Ha Hb.
  destruct (known_priority_rank a Ha) as [_ Ra].
  destruct (known_priority_rank b Hb) as [_ Rb].
  unfold render_key, in_render_order. intros Hk. split.
  - intros Ca. rewrite Ca in Hk.
    destruct (task_completed b); [reflexivity | unfold bool_num in Hk; lia].
  - intros Ec Ho. apply outranks_rank in Ho. rewrite Ec in Hk. lia.
Qed.

Lemma StronglySorted_weaken {A} (R R' : A -> A -> Prop) (P : A -> Prop)
    (l : list A) :
  (forall a b, P a -> P b -> R a b -> R' a b) ->
  Forall P l -> StronglySorted R l -> StronglySorted R' l.
Proof.
  intros HR Hl Hs. induction Hs as [|x r Hr IH Hx]; [constructor|].
  inversion Hl as [|? ? Px Pr]; subst.
  constructor; [apply IH; assumption|].
  rewrite Forall_forall in *. intros y Hy. apply HR; auto.
Qed.

(** The array produced by [sort] with the comparator of [renderTasks]. *)
Lemma sort_taskOrder (l : list Task) :
  Forall known_priority l ->
  StronglySorted in_render_order (sort taskOrder l).
Proof.
  intros Hl.
  apply (StronglySorted_weaken (fun a b => render_key a <= render_key b)
                               in_render_order known_priority).
  - apply render_key_order.
  - eapply Permutation_Forall; [symmetry; apply sort_perm | exact Hl].
  - apply (sort_sorted taskOrder known_priority render_key); [| |exact Hl].
    + intros x y Hx Hy E. apply (taskOrder_key x y Hx Hy) in E. lia.
    + intros x y Hx Hy E.
      destruct (Z_lt_le_dec (render_key y) (render_key x)) as [L|G]; [|exact G].
      apply (taskOrder_key x y Hx Hy) in L. congruence.
Qed.

(** Whatever the priorities are, completion alone already separates the
    sorted array. *)
Lemma sort_taskOrder_completion (l : list Task) :
  StronglySorted incomplete_first (sort taskOrder l).
Proof.
  apply (StronglySorted_weaken
           (fun a b => bool_num (task_completed a) <= bool_num (task_completed b))
           incomplete_first (fun _ => True)).
  - unfold incomplete_first. intros a b _ _ H Ha. rewrite Ha in H.
    destruct (task_completed b); [reflexivity | simpl in H; lia].
  - apply Forall_forall; auto.
  - apply (sort_sorted taskOrder (fun _ => True)
                       (fun t => bool_num (task_completed t)));
      [| |apply Forall_forall; auto].
    + intros x y _ _. unfold goes_after, taskOrder.
      destruct (task_completed x), (task_completed y);
        cbn [negb Bool.eqb bool_num]; intros; try lia; discriminate.
    + intros x y _ _. unfold goes_after, taskOrder.
      destruct (task_completed x), (task_completed y);
        cbn [negb Bool.eqb bool_num]; intros; try lia; discriminate.
Qed.

Lemma filteredTasks_incl (filter : jsstring) (l : list Task) (P : Task -> Prop) :
  Forall P l -> Forall P (filteredTasks filter l).
Proof.
  intros H. unfold filteredTasks.
  destruct (str_eqb filter (lit "completed")).
  - rewrite Forall_forall in *. intros x Hx.
    apply filter_In in Hx. apply H, Hx.
  - destruct (str_eqb filter (lit "pending")); [|exact H].
    rewrite Forall_forall in *. intros x Hx.
    apply filter_In in Hx. apply H, Hx.
Qed.

(** C5.  Whatever the filter, the list [renderTasks] writes into the task
    list element holds exactly the selected tasks, with every incomplete
    task before every completed one; and when the tasks carry the three
    priorities of the data model, each of the two groups is ordered High
    before Medium before Low. *)
Theorem renderTasks_priority_order
    {Server : Type} (filter : jsstring) (w : World Server) :
  tasks_list (dom w) <> None ->
  Permutation (shown_tasks (tasks_list (dom (final (renderTasks filter w)))))
              (filteredTasks filter (tasks (app w))) /\
  StronglySorted incomplete_first
    (shown_tasks (tasks_list (dom (final (renderTasks filter w))))) /\
  (Forall known_priority (tasks (app w)) ->
   StronglySorted in_render_order
     (shown_tasks (tasks_list (dom (final (renderTasks filter w)))))).
Proof.
  intros Hel.
  unfold renderTasks, bind, get_dom, get_app, modify_dom, modify_app, ret.
  cbn [fst snd final].
  destruct (tasks_list (dom w)) as [v|] eqn:Ev; [|congruence].
  pose proof (filteredTasks_incl filter (tasks (app w)) known_priority) as Hf.
  destruct (filteredTasks filter (tasks (app w))) as [|t r] eqn:Ef.
  - cbn. repeat split; constructor.
  - pose proof (sort_perm taskOrder (t :: r)) as Hp.
    pose proof (sort_taskOrder_completion (t :: r)) as Hc.
    pose proof (sort_taskOrder (t :: r)) as Hs.
    destruct (aliases_tasks filter); cbn; repeat split; auto.
Qed.

Lemma sample_tasks_known : Forall known_priority sample_tasks.
Proof.
  unfold known_priority.
  repeat (apply Forall_cons;
          [ first [ left; reflexivity
                  | right; left; reflexivity
                  | right; right; reflexivity ] | ]).
  apply Forall_nil.
Qed.

Lemma renderTasks_priority_order_witness :
  Permutation
    (shown_tasks (tasks_list (dom (final (renderTasks (lit "all") sample_world)))))
    (filteredTasks (lit "all") sample_tasks) /\
  StronglySorted incomplete_first
    (shown_tasks (tasks_list (dom (final (renderTasks (lit "all") sample_world))))) /\
  StronglySorted in_render_order
    (shown_tasks (tasks_list (dom (final (renderTasks (lit "all") sample_world))))).
Proof.
  destruct (renderTasks_priority_order (lit "all") sample_world)
    as (Hp & Hc & Hs).
  - simpl; discriminate.
  - split; [exact Hp|]. split; [exact Hc|].
    apply Hs. exact sample_tasks_known.
Defined.

(** The sample tasks are shown in the order 3 (High), 4 (Medium),
    2 (Low), then the completed 1. *)
Lemma sample_tasks_rendered :
  map task_id
    (shown_tasks (tasks_list (dom (final (renderTasks (lit "all") sample_world)))))
  = [3; 4; 2; 1].
Proof. reflexivity. Qed.

(* ================================================================== *)
(** ** Frame reasoning for the effect layer *)

Section Frame.

Context {Server : Type}.
Implicit Types w : World Server.

Lemma preserves_ret {A X} (f : World Server -> X) (a : A) :
  preserves f (ret a).
Proof. intros w; reflexivity. Qed.

Lemma preserves_throw {A X} (f : World Server -> X) (m : jsstring) :
  preserves f (throw (A:=A) m).
Proof. intros w; reflexivity. Qed.

Lemma preserves_emit {X} (f : World Server -> X) (e : Event) :
  preserves f (emit e).
Proof. intros w; reflexivity. Qed.

Lemma preserves_get_app {X} (f : World Server -> X) : preserves f get_app.
Proof. intros w; reflexivity. Qed.

Lemma preserves_get_dom {X} (f : World Server -> X) : preserves f get_dom.
Proof. intros w; reflexivity. Qed.

Lemma preserves_get_clock {X} (f : World Server -> X) : preserves f get_clock.
Proof. intros w; reflexivity. Qed.

Lemma preserves_bind {A B X} (f : World Server -> X)
    (c : M Server A) (k : A -> M Server B) :
  preserves f c -> (forall a, preserves f (k a)) -> preserves f (bind c k).
Proof.
  intros Hc Hk w. unfold bind, final.
  specialize (Hc w). unfold final in Hc.
  destruct (c w) as [[[a|m] w1] ev1]; simpl in *; [|exact Hc].
  specialize (Hk a w1). unfold final in Hk.
  destruct (k a w1) as [[r w2] ev2]; simpl in *. congruence.
Qed.

Lemma preserves_try_catch {X} (f : World Server -> X)
    (body : M Server unit) (handler : jsstring -> M Server unit) :
  preserves f body -> (forall m, preserves f (handler m)) ->
  preserves f (try_catch body handler).
Proof.
  intros Hb Hh w. unfold try_catch, final.
  specialize (Hb w). unfold final in Hb.
  destruct (body w) as [[[a|m] w1] ev1]; simpl in *; [exact Hb|].
  specialize (Hh m w1). unfold final in Hh.
  destruct (handler m w1) as [[r w2] ev2]; simpl in *. congruence.
Qed.

(** Observations of the application record survive page updates and
    requests. *)
Lemma preserves_modify_dom {X} (g : App -> X) (h : Dom -> Dom) :
  preserves (fun w => g (app w)) (modify_dom h).
Proof. intros w; reflexivity. Qed.

Lemma preserves_fetch {A X} (g : App -> X) (r : Request)
    (serve : Server -> FetchResult A * Server) :
  preserves (fun w => g (app w)) (fetch r serve).
Proof.
  intros w. unfold fetch, final.
  destruct (serve (server w)) as [[m|ok body] sv]; reflexivity.
Qed.

Lemma preserves_modify_app {X} (g : App -> X) (h : App -> App) :
  (forall a, g (h a) = g a) ->
  preserves (fun w => g (app w)) (modify_app h).
Proof. intros H w. simpl. apply H. Qed.

Lemma bind_get_app {A} (k : App -> M Server A) w :
  bind get_app k w = k (app w) w.
Proof.
  unfold bind, get_app. destruct (k (app w) w) as [[r w2] ev2]. reflexivity.
Qed.

Lemma bind_get_dom {A} (k : Dom -> M Server A) w :
  bind get_dom k w = k (dom w) w.
Proof.
  unfold bind, get_dom. destruct (k (dom w) w) as [[r w2] ev2]. reflexivity.
Qed.

Lemma bind_get_clock {A} (k : Clock -> M Server A) w :
  bind get_clock k w = k (clock w) w.
Proof.
  unfold bind, get_clock. destruct (k (clock w) w) as [[r w2] ev2]. reflexivity.
Qed.

Lemma bind_modify_app {A} (h : App -> App) (k : unit -> M Server A) w :
  bind (modify_app h) k w =
  k tt (mkWorld (h (app w)) (dom w) (clock w) (server w)).
Proof.
  unfold bind, modify_app.
  destruct (k tt _) as [[r w2] ev2]. reflexivity.
Qed.

Lemma bind_modify_dom {A} (h : Dom -> Dom) (k : unit -> M Server A) w :
  bind (modify_dom h) k w =
  k tt (mkWorld (app w) (h (dom w)) (clock w) (server w)).
Proof.
  unfold bind, modify_dom.
  destruct (k tt _) as [[r w2] ev2]. reflexivity.
Qed.

Lemma total_ret {A} (a : A) : total (Server:=Server) (ret a).
Proof. intros w; eexists; reflexivity. Qed.

Lemma total_emit (e : Event) : total (Server:=Server) (emit e).
Proof. intros w; eexists; reflexivity. Qed.

Lemma total_get_app : total (Server:=Server) get_app.
Proof. intros w; eexists; reflexivity. Qed.

Lemma total_get_dom : total (Server:=Server) get_dom.
Proof. intros w; eexists; reflexivity. Qed.

Lemma total_modify_app (h : App -> App) : total (Server:=Server) (modify_app h).
Proof. intros w; eexists; reflexivity. Qed.

Lemma total_modify_dom (h : Dom -> Dom) : total (Server:=Server) (modify_dom h).
Proof. intros w; eexists; reflexivity. Qed.

Lemma total_bind {A B} (c : M Server A) (k : A -> M Server B) :
  total c -> (forall a, total (k a)) -> total (bind c k).
Proof.
  intros Hc Hk w. unfold bind, completion.
  destruct (Hc w) as [a Ha]. unfold completion in Ha.
  destruct (c w) as [[r w1] ev1]; simpl in Ha; subst r.
  destruct (Hk a w1) as [b Hb]. unfold completion in Hb.
  destruct (k a w1) as [[r w2] ev2]; simpl in *. eauto.
Qed.

Lemma total_try_catch (body : M Server unit) (handler : jsstring -> M Server unit) :
  (forall m, total (handler m)) -> total (try_catch body handler).
Proof.
  intros Hh w. unfold try_catch, completion.
  destruct (body w) as [[[a|m] w1] ev1]; simpl; [eauto|].
  destruct (Hh m w1) as [b Hb]. unfold completion in Hb.
  destruct (handler m w1) as [[r w2] ev2]; simpl in *. eauto.
Qed.

Lemma emits_ret {A} (Q : Event -> Prop) (a : A) :
  emits (Server:=Server) Q (ret a).
Proof. intros w; constructor. Qed.

Lemma emits_throw {A} (Q : Event -> Prop) (m : jsstring) :
  emits (Server:=Server) Q (throw (A:=A) m).
Proof. intros w; constructor. Qed.

Lemma emits_get_app (Q : Event -> Prop) : emits (Server:=Server) Q get_app.
Proof. intros w; constructor. Qed.

Lemma emits_get_dom (Q : Event -> Prop) : emits (Server:=Server) Q get_dom.
Proof. intros w; constructor. Qed.

Lemma emits_get_clock (Q : Event -> Prop) : emits (Server:=Server) Q get_clock.
Proof. intros w; constructor. Qed.

Lemma emits_modify_app (Q : Event -> Prop) (h : App -> App) :
  emits (Server:=Server) Q (modify_app h).
Proof. intros w; constructor. Qed.

Lemma emits_modify_dom (Q : Event -> Prop) (h : Dom -> Dom) :
  emits (Server:=Server) Q (modify_dom h).
Proof. intros w; constructor. Qed.

Lemma emits_emit (Q : Event -> Prop) (e : Event) :
  Q e -> emits (Server:=Server) Q (emit e).
Proof. intros H w; repeat constructor; exact H. Qed.

Lemma emits_fetch {A} (Q : Event -> Prop) (r : Request)
    (serve : Server -> FetchResult A * Server) :
  Q (Fetch r) -> emits Q (fetch r serve).
Proof.
  intros H w. unfold fetch, events.
  destruct (serve (server w)) as [[m|ok body] sv]; repeat constructor; exact H.
Qed.

Lemma emits_bind {A B} (Q : Event -> Prop)
    (c : M Server A) (k : A -> M Server B) :
  emits Q c -> (forall a, emits Q (k a)) -> emits Q (bind c k).
Proof.
  intros Hc Hk w. unfold bind, events.
  specialize (Hc w). unfold events in Hc.
  destruct (c w) as [[[a|m] w1] ev1]; simpl in *; [|exact Hc].
  specialize (Hk a w1). unfold events in Hk.
  destruct (k a w1) as [[r w2] ev2]; simpl in *.
  apply Forall_app; split; assumption.
Qed.

Lemma emits_try_catch (Q : Event -> Prop)
    (body : M Server unit) (handler : jsstring -> M Server unit) :
  emits Q body -> (forall m, emits Q (handler m)) ->
  emits Q (try_catch body handler).
Proof.
  intros Hb Hh w. unfold try_catch, events.
  specialize (Hb w). unfold events in Hb.
  destruct (body w) as [[[a|m] w1] ev1]; simpl in *; [exact Hb|].
  specialize (Hh m w1). unfold events in Hh.
  destruct (handler m w1) as [[r w2] ev2]; simpl in *.
  apply Forall_app; split; assumption.
Qed.

End Frame.

(** Decomposes a method into its statements, one frame rule at a time. *)
Ltac frame_step :=
  first
    [ apply preserves_bind; [|intros ?]
    | apply preserves_try_catch; [|intros ?]
    | apply preserves_ret
    | apply preserves_throw
    | apply preserves_emit
    | apply preserves_get_app
    | apply preserves_get_dom
    | apply preserves_get_clock
    | apply (preserves_modify_dom _)
    | apply (preserves_fetch _)
    | apply (preserves_modify_app _); intros ?; reflexivity ].

Ltac total_step :=
  first
    [ apply total_bind; [|intros ?]
    | apply total_try_catch; intros ?
    | apply total_ret
    | apply total_emit
    | apply total_get_app
    | apply total_get_dom
    | apply total_modify_app
    | apply total_modify_dom ].

Ltac emits_step :=
  first
    [ apply emits_bind; [|intros ?]
    | apply emits_try_catch; [|intros ?]
    | apply emits_ret
    | apply emits_throw
    | apply emits_get_app
    | apply emits_get_dom
    | apply emits_get_clock
    | apply emits_modify_app
    | apply emits_modify_dom
    | apply emits_emit
    | apply emits_fetch ].

(* ================================================================== *)
(** ** Logs and the diary *)

Section LogProperties.

Context {Server : Type} (backend : Backend Server).
Implicit Types w : World Server.

Lemma find_existsb {A} (p : A -> bool) (l : list A) :
  existsb p l = match find p l with Some _ => true | None => false end.
Proof.
  induction l as [|x r IH]; simpl; [reflexivity|].
  destruct (p x); simpl; [reflexivity | exact IH].
Qed.

Lemma renderLogs_keeps_app {X} (g : App -> X) :
  preserves (Server:=Server) (fun w => g (app w)) renderLogs.
Proof.
  unfold renderLogs. frame_step; [frame_step|].
  destruct (logs_list a); [|frame_step].
  frame_step; [frame_step|].
  destruct (logs a0); frame_step.
Qed.

Lemma handleLogChange_keeps_app {X} (g : App -> X) :
  preserves (Server:=Server) (fun w => g (app w)) handleLogChange.
Proof.
  unfold handleLogChange. repeat (frame_step; [frame_step|]).
  destruct (find _ _); frame_step.
Qed.

Lemma editLog_keeps_diary (logId : Z) (answer : option jsstring) :
  preserves (Server:=Server) (fun w => diaryEntries (app w))
            (editLog logId answer).
Proof.
  unfold editLog. frame_step; [frame_step|].
  destruct (find _ _); [|frame_step].
  destruct answer as [newContent|]; [|frame_step].
  destruct (negb _); [|frame_step].
  frame_step; [frame_step|].
  frame_step; [apply renderLogs_keeps_app|].
  frame_step; [unfold showToast; frame_step|].
  apply handleLogChange_keeps_app.
Qed.

Lemma deleteLog_keeps_diary (logId : Z) (confirmed : bool) :
  preserves (fun w => diaryEntries (app w))
            (deleteLog backend logId confirmed).
Proof.
  unfold deleteLog. destruct confirmed; [|frame_step].
  frame_step.
  - frame_step; [frame_step|].
    frame_step.
    + destruct (apiConnected a); [|frame_step].
      frame_step; [frame_step|].
      destruct (negb _); frame_step.
    + frame_step; [frame_step|].
      frame_step; [apply renderLogs_keeps_app|].
      frame_step; [unfold showToast; frame_step|].
      apply handleLogChange_keeps_app.
  - frame_step; [frame_step | unfold showToast; frame_step].
Qed.

(** C1.  Editing a log, deleting a log and the log-changed hook leave
    the list of diary entries, hence every field of every entry, as it
    was, whatever the user answers and whatever the backend replies.
    The hook does a single thing: when a diary entry exists for today
    it reveals the update button, and otherwise nothing; it sends no
    request and reports nothing. *)
Theorem log_changes_never_touch_diary
    (w : World Server) (logId : Z) (answer : option jsstring) (confirmed : bool) :
  diaryEntries (app (final (editLog logId answer w))) = diaryEntries (app w) /\
  diaryEntries (app (final (deleteLog backend logId confirmed w)))
    = diaryEntries (app w) /\
  handleLogChange w =
    (Normal tt,
     (if diary_exists (isoDate (clock w)) (diaryEntries (app w))
      then mkWorld (app w) (offer_update (dom w)) (clock w) (server w)
      else w),
     []).
Proof.
  split; [apply editLog_keeps_diary|].
  split; [apply deleteLog_keeps_diary|].
  unfold handleLogChange, diary_exists, bind, get_clock, get_app. cbn.
  rewrite find_existsb.
  destruct (find _ _); cbn; [reflexivity|].
  destruct w; reflexivity.
Qed.

(** C2, as amended.  When the application holds no log at all,
    [generateDiary] sends no request, reports "Add some logs first to
    generate a diary entry" as an error, and leaves the whole world,
    diary entries included, as it was. *)
Theorem generateDiary_without_any_log
    (w : World Server) (isRegenerate isIncremental : bool) :
  logs (app w) = [] ->
  generateDiary backend isRegenerate isIncremental w =
    (Normal tt, w,
     [Toast (lit "Add some logs first to generate a diary entry") error]).
Proof.
  intros H. unfold generateDiary, bind, get_app. cbn.
  rewrite H. cbn. destruct w; reflexivity.
Qed.

(** C3.  When the trimmed value of the log input is empty, [addLog]
    reports "Please enter some content for your log" as an error and
    does nothing else: the world is unchanged (no log added, no id
    consumed, backend untouched) and no request is among the events. *)
Theorem addLog_rejects_empty_content (w : World Server) (value : jsstring) :
  log_input (dom w) = Some value ->
  trim value = [] ->
  addLog backend w =
    (Normal tt, w,
     [Toast (lit "Please enter some content for your log") error]).
Proof.
  intros Hv Ht. unfold addLog, bind, get_dom. cbn.
  rewrite Hv, Ht. cbn. destruct w; reflexivity.
Qed.

End LogProperties.

Lemma generateDiary_without_any_log_witness :
  generateDiary fresh_store false false
    (mkWorld constructor page noon tt) =
  (Normal tt, mkWorld constructor page noon tt,
   [Toast (lit "Add some logs first to generate a diary entry") error]).
Proof.
  apply (generateDiary_without_any_log fresh_store
           (mkWorld constructor page noon tt) false false).
  reflexivity.
Defined.

(** C2, as stated, fails: today (2025-10-02) has no log, the only log
    being of the day before, and yet [generateDiary] sends the
    generate-diary request for today and reports no "no logs"
    condition. *)
Lemma generateDiary_requests_for_date_without_logs :
  spec_logsForDate (isoDate (clock sample_world)) (logs (app sample_world)) = [] /\
  events (generateDiary day_after false false sample_world) =
    [ Fetch (POST_generate_diary (lit "2025-10-02"));
      Fetch GET_logs; Fetch GET_diary; Fetch GET_tasks;
      Toast (lit "Diary entry generated successfully!") success ].
Proof. split; reflexivity. Qed.

Lemma addLog_rejects_empty_content_witness :
  addLog fresh_store sample_world =
  (Normal tt, sample_world,
   [Toast (lit "Please enter some content for your log") error]).
Proof.
  apply (addLog_rejects_empty_content fresh_store sample_world (lit "   "));
    reflexivity.
Defined.

(* ================================================================== *)
(** ** Oracle failures *)

Section OracleProperties.

Context {Server : Type} (backend : Backend Server).
Implicit Types w : World Server.

Lemma throws_clean_total {A X} (g : World Server -> X) (c : M Server A) :
  total c -> throws_clean g c.
Proof.
  intros Hc w m Hm. destruct (Hc w) as [a Ha]. congruence.
Qed.

Lemma throws_clean_bind {A B X} (g : World Server -> X)
    (c : M Server A) (k : A -> M Server B) :
  preserves g c -> (forall a, throws_clean g (k a)) ->
  throws_clean g (bind c k).
Proof.
  intros Hc Hk w m. specialize (Hc w). unfold bind, completion, final in *.
  destruct (c w) as [[[a|m1] w1] ev1]; simpl in *; [|intros _; exact Hc].
  specialize (Hk a w1 m). unfold completion, final in Hk.
  destruct (k a w1) as [[r w2] ev2]; simpl in *.
  intros Hr. rewrite Hk by exact Hr. exact Hc.
Qed.

(** The catch blocks of [generateDiary] and [extractTasks]: the error
    is logged under [label] and reported with [prefix]. *)
Lemma try_catch_report {X} (g : World Server -> X) (body : M Server unit)
    (label prefix : jsstring) w (message : jsstring) :
  emits (not_console label) body ->
  throws_clean g body ->
  let run := try_catch body
               (fun m => emit (ConsoleError label m) ;;
                         showToast (prefix ++ m) error)%js w in
  In (ConsoleError label message) (events run) ->
  g (final run) = g w /\ In (Toast (prefix ++ message) error) (events run).
Proof.
  intros He Hc. specialize (He w). specialize (Hc w).
  unfold try_catch, events, final, completion in *. cbn.
  destruct (body w) as [[[a|m] w1] ev1]; cbn in *.
  - intros Hin. rewrite Forall_forall in He.
    apply He in Hin. simpl in Hin. congruence.
  - intros Hin. apply in_app_or in Hin. destruct Hin as [Hin|Hin].
    + rewrite Forall_forall in He. apply He in Hin. simpl in Hin. congruence.
    + simpl in Hin. destruct Hin as [Hin|[Hin|[]]]; [|discriminate].
      inversion Hin; subst m.
      split; [apply (Hc message); reflexivity|].
      apply in_or_app; right; simpl; auto.
Qed.

Lemma loadData_total : total (loadData backend).
Proof.
  unfold loadData. total_step.
  total_step; [total_step | unfold showToast; total_step].
Qed.

Lemma loadData_emits (label : jsstring) :
  label <> lit "Error loading data:" ->
  emits (not_console label) (loadData backend).
Proof.
  intros Hl. unfold loadData, json, showToast.
  repeat first
    [ emits_step
    | match goal with
      | |- emits _ (if ?b then _ else _) => destruct b
      | |- emits _ (match ?b with JsonError _ => _ | JsonValue _ => _ end) =>
          destruct b
      | |- not_console _ _ => simpl; auto; congruence
      end ].
Qed.

Lemma renderTasks_total (filter : jsstring) :
  total (Server:=Server) (renderTasks filter).
Proof.
  unfold renderTasks. total_step; [total_step|].
  destruct (tasks_list a); [|total_step].
  total_step; [total_step|].
  destruct (filteredTasks filter (tasks a0)); [total_step|].
  total_step; [destruct (aliases_tasks filter); total_step | total_step].
Qed.

Lemma renderTasks_emits (Q : Event -> Prop) (filter : jsstring) :
  emits (Server:=Server) Q (renderTasks filter).
Proof.
  unfold renderTasks. emits_step; [emits_step|].
  destruct (tasks_list a); [|emits_step].
  emits_step; [emits_step|].
  destruct (filteredTasks filter (tasks a0)); [emits_step|].
  emits_step; [destruct (aliases_tasks filter); emits_step | emits_step].
Qed.

Lemma displayDiaryEntry_total (e : DiaryEntry) :
  total (Server:=Server) (displayDiaryEntry e).
Proof. unfold displayDiaryEntry. repeat total_step. Qed.

Lemma displayDiaryEntry_emits (Q : Event -> Prop) (e : DiaryEntry) :
  emits (Server:=Server) Q (displayDiaryEntry e).
Proof. unfold displayDiaryEntry. repeat emits_step. Qed.

Lemma label_diary : lit "Error generating diary:" <> lit "Error loading data:".
Proof. intros H. apply str_eqb_eq in H. vm_compute in H. discriminate. Qed.

Lemma label_tasks : lit "Error extracting tasks:" <> lit "Error loading data:".
Proof. intros H. apply str_eqb_eq in H. vm_compute in H. discriminate. Qed.

Lemma generateDiary_error_path w (isRegenerate isIncremental : bool) message :
  let run := generateDiary backend isRegenerate isIncremental w in
  In (ConsoleError (lit "Error generating diary:") message) (events run) ->
  app (final run) = app w /\
  In (Toast (lit "Failed to generate diary entry: " ++ message) error)
     (events run).
Proof.
  unfold generateDiary. rewrite bind_get_app.
  destruct (logs (app w)) as [|l0 ls].
  { cbn. intros [H|[]]; discriminate. }
  destruct (apiConnected (app w)); cbn [negb].
  2:{ cbn. intros [H|[]]; discriminate. }
  apply (try_catch_report (fun w => app w)).
  - pose proof label_diary as Hl.
    unfold json, showToast.
    repeat first
      [ apply (loadData_emits _ Hl)
      | apply displayDiaryEntry_emits
      | emits_step
      | match goal with
        | |- emits _ (if ?b then _ else _) => destruct b
        | |- emits _ (match ?b with JsonError _ => _ | JsonValue _ => _ end) =>
            destruct b
        | |- emits _ (match ?b with Some _ => _ | None => _ end) => destruct b
        | |- not_console _ _ => exact I
        end ].
  - apply throws_clean_bind; [frame_step | intros now].
    apply throws_clean_bind; [apply (preserves_fetch (fun a => a)) | intros response].
    apply throws_clean_bind.
    { destruct (negb (fst response)); [|frame_step].
      unfold json. destruct (snd response); repeat frame_step. }
    intros _.
    apply throws_clean_bind.
    { unfold json. destruct (snd response); frame_step. }
    intros _. apply throws_clean_total.
    total_step; [apply loadData_total|].
    total_step; [total_step|].
    total_step; [|unfold showToast; total_step].
    destruct (find _ _); [apply displayDiaryEntry_total | total_step].
Qed.

Lemma extractTasks_error_path w (onlyNew : bool) message :
  let run := extractTasks backend onlyNew w in
  In (ConsoleError (lit "Error extracting tasks:") message) (events run) ->
  app (final run) = app w /\
  In (Toast (lit "Failed to extract tasks: " ++ message) error) (events run).
Proof.
  unfold extractTasks. rewrite bind_get_app.
  destruct (logs (app w)) as [|l0 ls].
  { cbn. intros [H|[]]; discriminate. }
  destruct (apiConnected (app w)); cbn [negb].
  2:{ cbn. intros [H|[]]; discriminate. }
  apply (try_catch_report (fun w => app w)).
  - pose proof label_tasks as Hl.
    unfold json, showToast.
    repeat first
      [ apply (loadData_emits _ Hl)
      | apply renderTasks_emits
      | emits_step
      | match goal with
        | |- emits _ (if ?b then _ else _) => destruct b
        | |- emits _ (match ?b with JsonError _ => _ | JsonValue _ => _ end) =>
            destruct b
        | |- not_console _ _ => exact I
        end ].
  - apply throws_clean_bind; [frame_step | intros now].
    apply throws_clean_bind; [apply (preserves_fetch (fun a => a)) | intros response].
    apply throws_clean_bind.
    { destruct (negb (fst response)); [|frame_step].
      unfold json. destruct (snd response); repeat frame_step. }
    intros _.
    destruct (snd response) as [m|result]; unfold json.
    { apply throws_clean_bind; [frame_step | intros ?].
      apply throws_clean_total.
      total_step; [apply loadData_total|].
      total_step; [apply renderTasks_total | unfold showToast; total_step]. }
    apply throws_clean_total.
    total_step; [total_step|].
    total_step; [apply loadData_total|].
    total_step; [apply renderTasks_total | unfold showToast; total_step].
Qed.

(** A rejected request is one way into the error path: the catch block
    runs with the rejection's message. *)
Lemma generateDiary_network_failure w (isRegenerate isIncremental : bool)
    (message : jsstring) (sv : Server) :
  logs (app w) <> [] -> apiConnected (app w) = true ->
  serve_generate_diary backend (isoDate (clock w)) (server w)
    = (NetworkError message, sv) ->
  generateDiary backend isRegenerate isIncremental w =
  (Normal tt, mkWorld (app w) (dom w) (clock w) sv,
   [ Fetch (POST_generate_diary (isoDate (clock w)));
     ConsoleError (lit "Error generating diary:") message;
     Toast (lit "Failed to generate diary entry: " ++ message) error ]).
Proof.
  intros Hl Hc Hs. unfold generateDiary. rewrite bind_get_app.
  destruct (logs (app w)); [congruence|]. rewrite Hc. cbn [negb].
  unfold try_catch, bind, get_clock, fetch. cbn. rewrite Hs. reflexivity.
Qed.

(** C4.  Whenever [generateDiary] or [extractTasks] runs its catch
    block (the [console.error] of that block is among the events), the
    application record after the call, with its three collections and
    three counters, equals the one before, and the error message has
    been reported by an error toast. *)
Theorem oracle_failure_commits_nothing
    (w : World Server) (isRegenerate isIncremental onlyNew : bool)
    (message : jsstring) :
  (In (ConsoleError (lit "Error generating diary:") message)
      (events (generateDiary backend isRegenerate isIncremental w)) ->
   app (final (generateDiary backend isRegenerate isIncremental w)) = app w /\
   In (Toast (lit "Failed to generate diary entry: " ++ message) error)
      (events (generateDiary backend isRegenerate isIncremental w)))
  /\
  (In (ConsoleError (lit "Error extracting tasks:") message)
      (events (extractTasks backend onlyNew w)) ->
   app (final (extractTasks backend onlyNew w)) = app w /\
   In (Toast (lit "Failed to extract tasks: " ++ message) error)
      (events (extractTasks backend onlyNew w))).
Proof.
  split.
  - apply generateDiary_error_path.
  - apply extractTasks_error_path.
Qed.

End OracleProperties.

Lemma oracle_failure_commits_nothing_witness :
  (app (final (generateDiary oracle_down false false sample_world))
     = app sample_world /\
   In (Toast (lit "Failed to generate diary entry: Groq unavailable") error)
      (events (generateDiary oracle_down false false sample_world)))
  /\
  (app (final (extractTasks oracle_down false sample_world)) = app sample_world /\
   In (Toast (lit "Failed to extract tasks: Groq unavailable") error)
      (events (extractTasks oracle_down false sample_world))).
Proof.
  destruct (oracle_failure_commits_nothing oracle_down sample_world
              false false false (lit "Groq unavailable")) as [Hd Ht].
  split.
  - apply Hd. vm_compute. right; left; reflexivity.
  - apply Ht. vm_compute. right; left; reflexivity.
Defined.

(* ================================================================== *)
(** ** Editing a log *)

Section EditProperties.

Context {Server : Type}.
Implicit Types w : World Server.

Lemma find_log_id (logId : Z) (l : list LogEntry) :
  In logId (map log_id l) ->
  exists x, find (fun y => log_id y =? logId) l = Some x.
Proof.
  induction l as [|y r IH]; simpl; [intros []|].
  intros [E|Hin].
  - rewrite E, Z.eqb_refl. eauto.
  - destruct (log_id y =? logId); eauto.
Qed.

(** [assign_content] rewrites the content of the first log carrying the
    id and nothing else. *)
Lemma assign_content_first (logId : Z) (v : jsstring) (l : list LogEntry) :
  In logId (map log_id l) ->
  exists l1 x l2,
    l = l1 ++ x :: l2 /\ log_id x = logId /\
    (forall y, In y l1 -> log_id y <> logId) /\
    assign_content logId v l =
      l1 ++ mkLog (log_id x) v (log_timestamp x) (log_wordCount x) :: l2.
Proof.
  induction l as [|y r IH]; simpl; [intros []|].
  intros Hin. destruct (log_id y =? logId) eqn:E.
  - apply Z.eqb_eq in E. exists [], y, r. simpl. intuition.
  - apply Z.eqb_neq in E. destruct Hin as [Hy|Hin]; [congruence|].
    destruct (IH Hin) as (l1 & x & l2 & El & Ex & Hl1 & Ea).
    exists (y :: l1), x, l2. simpl. rewrite El at 1. rewrite Ea.
    repeat split; auto.
    intros z [<-|Hz]; auto.
Qed.

(** C7, as amended.  For a log id present in the collection: when the
    trimmed answer is not empty, [editLog] replaces the content of the
    first log with that id by the trimmed answer and changes nothing
    else in the application record (the log's id, timestamp and word
    count, every other log, the diary entries, the tasks and the
    counters are as before); when the trimmed answer is empty, or the
    prompt is cancelled, nothing changes and nothing is reported. *)
Theorem editLog_changes_only_content
    (w : World Server) (logId : Z) (newContent : jsstring) :
  In logId (map log_id (logs (app w))) ->
  (trim newContent <> [] ->
   exists l1 x l2,
     logs (app w) = l1 ++ x :: l2 /\ log_id x = logId /\
     (forall y, In y l1 -> log_id y <> logId) /\
     app (final (editLog logId (Some newContent) w)) =
       set_logs (l1 ++ mkLog (log_id x) (trim newContent)
                             (log_timestamp x) (log_wordCount x) :: l2)
                (app w))
  /\ (trim newContent = [] ->
      editLog logId (Some newContent) w = (Normal tt, w, []))
  /\ editLog logId None w = (Normal tt, w, []).
Proof.
  intros Hin.
  destruct (find_log_id _ _ Hin) as [x0 Hf].
  split; [|split].
  - intros Hne.
    destruct (assign_content_first logId (trim newContent) _ Hin)
      as (l1 & x & l2 & El & Ex & Hl1 & Ea).
    exists l1, x, l2. repeat split; auto.
    unfold editLog. rewrite bind_get_app, Hf.
    destruct (trim newContent) as [|c r] eqn:Et; [congruence|].
    cbn [falsy_str negb]. rewrite bind_modify_app.
    match goal with
    | |- app (final (?k ?w')) = _ =>
        assert (preserves (fun w => app w) k) as Hp
    end.
    { frame_step; [apply (renderLogs_keeps_app (fun a => a))|].
      frame_step; [unfold showToast; frame_step|].
      apply (handleLogChange_keeps_app (fun a => a)). }
    rewrite (Hp _). cbn [app]. rewrite Ea. reflexivity.
  - intros He. unfold editLog. rewrite bind_get_app, Hf, He.
    cbn. reflexivity.
  - unfold editLog. rewrite bind_get_app, Hf. reflexivity.
Qed.

End EditProperties.

Lemma editLog_changes_only_content_witness :
  (exists l1 x l2,
     logs (app sample_world) = l1 ++ x :: l2 /\ log_id x = 1 /\
     (forall y, In y l1 -> log_id y <> 1) /\
     app (final (editLog 1 (Some (lit " Call the dentist at 9 ")) sample_world)) =
       set_logs (l1 ++ mkLog (log_id x) (lit "Call the dentist at 9")
                             (log_timestamp x) (log_wordCount x) :: l2)
                (app sample_world))
  /\ editLog 1 (Some (lit "   ")) sample_world = (Normal tt, sample_world, [])
  /\ editLog 1 None sample_world = (Normal tt, sample_world, []).
Proof.
  assert (In 1 (map log_id (logs (app sample_world)))) as Hin
    by (left; reflexivity).
  destruct (editLog_changes_only_content sample_world 1
              (lit " Call the dentist at 9 ") Hin) as (Hedit & _ & Hcancel).
  destruct (editLog_changes_only_content sample_world 1 (lit "   ") Hin)
    as (_ & Hblank & _).
  split; [|split].
  - apply Hedit. vm_compute. discriminate.
  - apply Hblank. reflexivity.
  - exact Hcancel.
Defined.

(** C7, as stated, fails on its last clause: with a blank answer to the
    prompt for an existing log, [editLog] reports no validation error;
    it reports nothing at all. *)
Lemma editLog_blank_answer_reports_nothing :
  In 1 (map log_id (logs (app sample_world))) /\
  trim (lit "   ") = [] /\
  events (editLog 1 (Some (lit "   ")) sample_world) = [].
Proof. split; [left; reflexivity | split; reflexivity]. Qed.

(* ================================================================== *)
(** ** Manual tasks *)

Section TaskProperties.

Context {Server : Type}.
Implicit Types w : World Server.



End TaskProperties.


(* ================================================================== *)
(** ** Loading *)

Section LoadProperties.

Context {Server : Type} (backend : Backend Server).
Implicit Types w : World Server.

(** C9.  From any state, whatever was loaded before: when the logs
    endpoint delivers a body, [loadData] assigns [logsData.logs || []]
    and [logsData.nextId || 1], so an absent [logs] field leaves the
    empty list and an absent [nextId] leaves 1; the same holds of the
    diary endpoint, reached unless the logs step was interrupted, and of
    the tasks endpoint, reached unless one of the two steps before it
    was.  On a first run, that is from the state the constructor sets
    up, a collection whose field is absent from its response, or whose
    response is missing altogether, is the empty list after [loadData]
    and a counter whose [nextId] is absent is 1, whatever the three
    endpoints answer. *)
Theorem loadData_tolerates_missing_store
    (w : World Server)
    (r1 : FetchResult LogsData) (r2 : FetchResult DiaryData)
    (r3 : FetchResult TasksData) (sv1 sv2 sv3 : Server) :
  serve_get_logs backend (server w) = (r1, sv1) ->
  serve_get_diary backend sv1 = (r2, sv2) ->
  serve_get_tasks backend sv2 = (r3, sv3) ->
  let after := app (final (loadData backend w)) in
  (forall d, delivered r1 = Some d ->
     logs after = or_array (ld_logs d) /\
     nextLogId after = or_one (ld_nextId d) /\
     (ld_logs d = None -> logs after = []) /\
     (ld_nextId d = None -> nextLogId after = 1)) /\
  (interrupts r1 = false ->
   forall d, delivered r2 = Some d ->
     diaryEntries after = or_array (dd_entries d) /\
     nextDiaryId after = or_one (dd_nextId d) /\
     (dd_entries d = None -> diaryEntries after = []) /\
     (dd_nextId d = None -> nextDiaryId after = 1)) /\
  (interrupts r1 = false -> interrupts r2 = false ->
   forall d, delivered r3 = Some d ->
     tasks after = or_array (td_tasks d) /\
     nextTaskId after = or_one (td_nextId d) /\
     (td_tasks d = None -> tasks after = []) /\
     (td_nextId d = None -> nextTaskId after = 1)) /\
  (app w = constructor ->
   (field ld_logs r1 = None -> logs after = []) /\
   (field ld_nextId r1 = None -> nextLogId after = 1) /\
   (field dd_entries r2 = None -> diaryEntries after = []) /\
   (field dd_nextId r2 = None -> nextDiaryId after = 1) /\
   (field td_tasks r3 = None -> tasks after = []) /\
   (field td_nextId r3 = None -> nextTaskId after = 1)).
Proof.
  intros E1 E2 E3.
  destruct w as [a page0 now sv]. cbn [server] in E1.
  unfold loadData, try_catch, bind, fetch, json, throw, ret, modify_app,
    emit, showToast, field, delivered, interrupts.
  cbn [server app dom clock]. rewrite E1.
  destruct r1 as [m1|[|] [m1|d1]]; cbn [fst snd final app server];
    rewrite ?E2;
    try destruct r2 as [m2|[|] [m2|d2]]; cbn [fst snd final app server];
    rewrite ?E3;
    try destruct r3 as [m3|[|] [m3|d3]]; cbn [fst snd final app server];
    (split; [|split; [|split]]);
    try (intros Ha; cbn [app] in Ha; subst a);
    intros;
    repeat match goal with
           | H : None = Some _ |- _ => discriminate H
           | H : true = false |- _ => discriminate H
           | H : Some _ = Some _ |- _ => injection H as <-
           end;
    cbn; repeat split; intros;
    repeat match goal with H : _ = None |- _ => rewrite H end;
    reflexivity.
Qed.

(** When the three endpoints deliver, [loadData] replaces every
    collection and counter by what was delivered, with the defaults
    standing in for absent fields, whatever the state was. *)
Lemma loadData_delivered
    (w : World Server) (d1 : LogsData) (d2 : DiaryData) (d3 : TasksData)
    (sv1 sv2 sv3 : Server) :
  serve_get_logs backend (server w) = (Response true (JsonValue d1), sv1) ->
  serve_get_diary backend sv1 = (Response true (JsonValue d2), sv2) ->
  serve_get_tasks backend sv2 = (Response true (JsonValue d3), sv3) ->
  app (final (loadData backend w)) =
  {| logs := or_array (ld_logs d1);
     diaryEntries := or_array (dd_entries d2);
     tasks := or_array (td_tasks d3);
     currentTab := currentTab (app w);
     nextLogId := or_one (ld_nextId d1);
     nextTaskId := or_one (td_nextId d3);
     nextDiaryId := or_one (dd_nextId d2);
     apiConnected := apiConnected (app w) |}.
Proof.
  intros E1 E2 E3.
  unfold loadData, try_catch, bind, fetch, json, ret, modify_app.
  cbn [server app dom clock]. rewrite E1.
  cbn [fst snd final app server]. rewrite E2.
  cbn [fst snd final app server]. rewrite E3.
  reflexivity.
Qed.

End LoadProperties.

Lemma loadData_tolerates_missing_store_witness :
  logs (app sample_world) = [yesterday_log] /\
  nextLogId (app sample_world) = 2 /\
  (let after := app (final (loadData fresh_store sample_world)) in
   logs after = [] /\ nextLogId after = 1 /\
   diaryEntries after = [] /\ nextDiaryId after = 1 /\
   tasks after = [] /\ nextTaskId after = 1) /\
  (let after := app (final (loadData refusing (mkWorld constructor page noon tt))) in
   logs after = [] /\ nextLogId after = 1 /\
   diaryEntries after = [] /\ nextDiaryId after = 1 /\
   tasks after = [] /\ nextTaskId after = 1).
Proof.
  split; [reflexivity|]. split; [reflexivity|]. split.
  - destruct (loadData_tolerates_missing_store fresh_store sample_world
                (Response true (JsonValue (mkLogsData None None)))
                (Response true (JsonValue (mkDiaryData None None)))
                (Response true (JsonValue (mkTasksData None None)))
                tt tt tt eq_refl eq_refl eq_refl)
      as (H1 & H2 & H3 & _).
    destruct (H1 _ eq_refl) as (_ & _ & L1 & L2).
    destruct (H2 eq_refl _ eq_refl) as (_ & _ & D1 & D2).
    destruct (H3 eq_refl eq_refl _ eq_refl) as (_ & _ & T1 & T2).
    cbv zeta.
    split; [exact (L1 eq_refl)|]. split; [exact (L2 eq_refl)|].
    split; [exact (D1 eq_refl)|]. split; [exact (D2 eq_refl)|].
    split; [exact (T1 eq_refl) | exact (T2 eq_refl)].
  - destruct (loadData_tolerates_missing_store refusing
                (mkWorld constructor page noon tt)
                _ _ _ tt tt tt eq_refl eq_refl eq_refl)
      as (_ & _ & _ & H4).
    destruct (H4 eq_refl) as (H1 & H2 & H3 & H5 & H6 & H7).
    cbv zeta.
    split; [exact (H1 eq_refl)|]. split; [exact (H2 eq_refl)|].
    split; [exact (H3 eq_refl)|]. split; [exact (H5 eq_refl)|].
    split; [exact (H6 eq_refl) | exact (H7 eq_refl)].
Defined.

(* ================================================================== *)
(** ** Further properties: timestamps *)

(** X1.  [formatTimestamp] answers ['Invalid timestamp'] exactly for the
    strings whose length is not twelve, the empty string included; a
    twelve-character string is never reported invalid. *)
Theorem formatTimestamp_invalid_iff (timestamp : jsstring) :
  formatTimestamp timestamp = lit "Invalid timestamp" <->
  List.length timestamp <> 12%nat.
Proof.
  unfold formatTimestamp.
  destruct (Nat.eqb (List.length timestamp) 12) eqn:E.
  - apply Nat.eqb_eq in E. split; [|congruence].
    do 12 (destruct timestamp as [|? timestamp]; [discriminate E|]).
    destruct timestamp; [|discriminate E].
    intros H. apply (f_equal (@List.length code_unit)) in H. discriminate H.
  - apply Nat.eqb_neq in E. rewrite orb_true_r. tauto.
Qed.

(** X2.  On a twelve-character timestamp made of six two-character
    fields HH MM SS DD MM YY, [formatTimestamp] returns
    ["DD/MM/20YY at HH:MM:SS"]. *)
Theorem formatTimestamp_fields (hh mi ss dd mo yy : jsstring) :
  List.length hh = 2%nat -> List.length mi = 2%nat ->
  List.length ss = 2%nat -> List.length dd = 2%nat ->
  List.length mo = 2%nat -> List.length yy = 2%nat ->
  formatTimestamp (hh ++ mi ++ ss ++ dd ++ mo ++ yy) =
  dd ++ lit "/" ++ mo ++ lit "/20" ++ yy ++ lit " at "
     ++ hh ++ lit ":" ++ mi ++ lit ":" ++ ss.
Proof.
  intros H1 H2 H3 H4 H5 H6.
  destruct hh as [|h1 [|h2 [|]]]; try discriminate H1.
  destruct mi as [|m1 [|m2 [|]]]; try discriminate H2.
  destruct ss as [|s1 [|s2 [|]]]; try discriminate H3.
  destruct dd as [|d1 [|d2 [|]]]; try discriminate H4.
  destruct mo as [|o1 [|o2 [|]]]; try discriminate H5.
  destruct yy as [|y1 [|y2 [|]]]; try discriminate H6.
  reflexivity.
Qed.

Lemma formatTimestamp_fields_witness :
  formatTimestamp (lit "120000011025") = lit "01/10/2025 at 12:00:00".
Proof.
  apply (formatTimestamp_fields (lit "12") (lit "00") (lit "00")
                                (lit "01") (lit "10") (lit "25"));
    reflexivity.
Defined.

Lemma two_digits_inj (a b : Z) :
  0 <= a <= 99 -> 0 <= b <= 99 -> two_digits a = two_digits b -> a = b.
Proof.
  intros Ha Hb H.
  pose proof (f_equal (fun l => nth 0 l 0%N) H) as H1.
  pose proof (f_equal (fun l => nth 1 l 0%N) H) as H2.
  cbn [nth two_digits] in H1, H2.
  Z.div_mod_to_equations; lia.
Qed.

Lemma four_digits_inj (a b : Z) :
  1000 <= a <= 9999 -> 1000 <= b <= 9999 ->
  four_digits a = four_digits b -> a = b.
Proof.
  intros Ha Hb H.
  pose proof (f_equal (fun l => nth 0 l 0%N) H) as H1.
  pose proof (f_equal (fun l => nth 1 l 0%N) H) as H2.
  pose proof (f_equal (fun l => nth 2 l 0%N) H) as H3.
  pose proof (f_equal (fun l => nth 3 l 0%N) H) as H4.
  cbn [nth four_digits] in H1, H2, H3, H4.
  Z.div_mod_to_equations; lia.
Qed.

(** X3.  Within four-digit years, [generateTimestamp] loses nothing: two
    readings of the clock with the same timestamp agree on hours,
    minutes, seconds, day, month and year. *)
Theorem generateTimestamp_injective (c1 c2 : Clock) :
  valid_clock c1 -> valid_clock c2 ->
  four_digit_year c1 -> four_digit_year c2 ->
  generateTimestamp c1 = generateTimestamp c2 ->
  getHours c1 = getHours c2 /\ getMinutes c1 = getMinutes c2 /\
  getSeconds c1 = getSeconds c2 /\ getDate c1 = getDate c2 /\
  getMonth c1 = getMonth c2 /\ getFullYear c1 = getFullYear c2.
Proof.
  intros V1 V2 Y1 Y2 H.
  rewrite !generateTimestamp_fields in H by assumption.
  rewrite !String_of_four_digits in H by assumption.
  destruct V1 as (Hh1 & Hm1 & Hs1 & Hd1 & Ho1).
  destruct V2 as (Hh2 & Hm2 & Hs2 & Hd2 & Ho2).
  assert (forall a b r1 r2, two_digits a ++ r1 = two_digits b ++ r2 ->
                            two_digits a = two_digits b /\ r1 = r2) as split2.
  { intros a b r1 r2 E. split.
    - apply (f_equal (firstn 2)) in E. exact E.
    - apply (f_equal (skipn 2)) in E. exact E. }
  apply split2 in H. destruct H as [Eh H].
  apply split2 in H. destruct H as [Em H].
  apply split2 in H. destruct H as [Es H].
  apply split2 in H. destruct H as [Ed H].
  apply split2 in H. destruct H as [Eo Ey].
  apply two_digits_inj in Eh, Em, Es, Ed, Eo; try lia.
  apply four_digits_inj in Ey; try assumption.
  repeat split; lia.
Qed.

Lemma generateTimestamp_injective_witness :
  getHours noon = getHours noon /\ getMinutes noon = getMinutes noon /\
  getSeconds noon = getSeconds noon /\ getDate noon = getDate noon /\
  getMonth noon = getMonth noon /\ getFullYear noon = getFullYear noon.
Proof.
  apply (generateTimestamp_injective noon noon);
    try (unfold valid_clock; simpl; lia);
    try (unfold four_digit_year; simpl; lia).
  reflexivity.
Defined.

(* ================================================================== *)
(** ** Further properties: the log list *)

Lemma localeCompare_antisym (a b : jsstring) :
  localeCompare a b = - localeCompare b a.
Proof.
  revert b; induction a as [|x a IH]; intros [|y b]; simpl; try reflexivity.
  rewrite (N.compare_antisym x y).
  destruct (N.compare x y); simpl; auto.
Qed.

Lemma localeCompare_le_trans (a b c : jsstring) :
  localeCompare a b <= 0 -> localeCompare b c <= 0 -> localeCompare a c <= 0.
Proof.
  revert b c; induction a as [|x a IH]; intros [|y b] [|z c]; simpl;
    try lia.
  destruct (N.compare_spec x y), (N.compare_spec y z), (N.compare_spec x z);
    subst; try lia.
  apply IH.
Qed.

Section SortByOrder.

(** A comparator that moves [x] behind [y] only when [y] may precede [x]
    in a transitive order [R], and leaves [x] in front of [y] only when
    [x] may precede [y]. *)
Context {A : Type} (cmp : A -> A -> number) (R : A -> A -> Prop).
Hypothesis R_trans : forall x y z, R x y -> R y z -> R x z.
Hypothesis cmp_after : forall x y, goes_after cmp x y = true -> R y x.
Hypothesis cmp_stay : forall x y, goes_after cmp x y = false -> R x y.

Lemma insert_ordered (x : A) (l : list A) :
  StronglySorted R l -> StronglySorted R (insert cmp x l).
Proof.
  intros Hs. induction Hs as [|y r Hr IH Hy]; simpl.
  - constructor; constructor.
  - destruct (goes_after cmp x y) eqn:E.
    + apply cmp_after in E.
      constructor; [exact IH|].
      eapply Permutation_Forall; [symmetry; apply insert_perm|].
      constructor; assumption.
    + apply cmp_stay in E.
      constructor; [constructor; assumption|].
      constructor; [exact E|].
      eapply Forall_impl; [|exact Hy]. intros; eapply R_trans; eassumption.
Qed.

Lemma sort_ordered (l : list A) : StronglySorted R (sort cmp l).
Proof.
  induction l as [|x r IH]; simpl; [constructor|].
  apply insert_ordered; exact IH.
Qed.

End SortByOrder.

Lemma sort_newestFirst (l : list LogEntry) :
  StronglySorted not_older (sort newestFirst l).
Proof.
  apply sort_ordered.
  - unfold not_older. intros x y z Hxy Hyz.
    eapply localeCompare_le_trans; eassumption.
  - unfold goes_after, newestFirst, not_older. intros x y H.
    apply Z.ltb_lt in H.
    rewrite localeCompare_antisym. lia.
  - unfold goes_after, newestFirst, not_older. intros x y H.
    apply Z.ltb_ge in H. exact H.
Qed.

(** X4.  With the log list element in the page, [renderLogs] shows
    every log of the collection exactly once, each beside
    [formatTimestamp] of its timestamp; it sorts a copy, so the
    application record, the order of [this.logs] included, is as it
    was, and it sends and reports nothing.  When the timestamps are
    strings of ASCII digits of one width, as the application writes
    them, no log stands above one with a greater timestamp. *)
Theorem renderLogs_newest_first {Server : Type} (w : World Server) :
  logs_list (dom w) <> None ->
  let run := renderLogs w in
  let shown := shown_logs (logs_list (dom (final run))) in
  app (final run) = app w /\
  events run = [] /\
  Permutation (map snd shown) (logs (app w)) /\
  Forall (fun item => fst item = formatTimestamp (log_timestamp (snd item))) shown /\
  (digit_stamps (logs (app w)) -> StronglySorted not_older (map snd shown)).
Proof.
  intros Hel. unfold renderLogs. rewrite bind_get_dom.
  destruct (logs_list (dom w)) as [v|] eqn:Ev; [|congruence].
  rewrite bind_get_app.
  destruct (logs (app w)) as [|l0 ls] eqn:El.
  - cbn. repeat split; constructor.
  - cbn [final events fst snd modify_dom dom set_logs_list logs_list shown_logs app].
    rewrite map_map. cbn [snd]. rewrite map_id.
    repeat split.
    + apply sort_perm.
    + apply Forall_forall. intros item Hin.
      apply in_map_iff in Hin. destruct Hin as (l & <- & _). reflexivity.
    + intros _. apply sort_newestFirst.
Qed.

Lemma renderLogs_newest_first_witness :
  let w := mkWorld
             (set_logs [mkLog 1 (lit "breakfast") (lit "080000021025") 1;
                        mkLog 2 (lit "dinner") (lit "193000021025") 1;
                        mkLog 3 (lit "lunch") (lit "123000021025") 1]
                       constructor)
             page noon tt in
  app (final (renderLogs w)) = app w /\
  StronglySorted not_older
    (map snd (shown_logs (logs_list (dom (final (renderLogs w)))))) /\
  map (fun item => (fst item, log_id (snd item)))
      (shown_logs (logs_list (dom (final (renderLogs w)))))
  = [(lit "02/10/2025 at 19:30:00", 2);
     (lit "02/10/2025 at 12:30:00", 3);
     (lit "02/10/2025 at 08:00:00", 1)].
Proof.
  intros w.
  destruct (renderLogs_newest_first w) as (Ha & _ & _ & _ & Hs);
    [simpl; discriminate|].
  split; [exact Ha|]. split; [|reflexivity].
  apply Hs. exists 12%nat.
  repeat (constructor; [split; reflexivity|]). constructor.
Defined.

(* ================================================================== *)
(** ** Further properties: the task list *)

Lemma insert_not_nil {A} (cmp : A -> A -> number) (x : A) (l : list A) :
  insert cmp x l <> [].
Proof. destruct l; simpl; [|destruct (goes_after cmp x a)]; discriminate. Qed.

Lemma sort_nil_inv {A} (cmp : A -> A -> number) (l : list A) :
  sort cmp l = [] -> l = [].
Proof.
  destruct l; simpl; [reflexivity|].
  intros H. apply insert_not_nil in H. destruct H.
Qed.

Lemma filter_all {A} (f : A -> bool) (l : list A) :
  Forall (fun x => f x = true) (List.filter f l).
Proof.
  apply Forall_forall. intros x Hx. apply filter_In in Hx. apply Hx.
Qed.

Lemma set_tasks_same (a : App) : set_tasks (tasks a) a = a.
Proof. destruct a; reflexivity. Qed.

(** X5.  [renderTasks] sorts in place.  Without a filter (any value
    other than ['completed'] and ['pending']) the sorted array is
    [this.tasks] itself: the same tasks, left in the order shown, which
    is the rendering order when every priority is one of High, Medium
    and Low; with one of the two filters the sorted array is a fresh
    one, [this.tasks] keeps its order and only completed, respectively
    only pending, tasks are shown.  Nothing else of the application
    record changes. *)
Theorem renderTasks_sorts_in_place
    {Server : Type} (filter : jsstring) (w : World Server) :
  tasks_list (dom w) <> None ->
  let after := final (renderTasks filter w) in
  let shown := shown_tasks (tasks_list (dom after)) in
  (filter = lit "completed" ->
   tasks (app after) = tasks (app w) /\
   Forall (fun t => task_completed t = true) shown) /\
  (filter = lit "pending" ->
   tasks (app after) = tasks (app w) /\
   Forall (fun t => task_completed t = false) shown) /\
  (filter <> lit "completed" -> filter <> lit "pending" ->
   Permutation (tasks (app after)) (tasks (app w)) /\
   shown = tasks (app after) /\
   (Forall known_priority (tasks (app w)) ->
    tasks (app after) = sort taskOrder (tasks (app w)))) /\
  app after = set_tasks (tasks (app after)) (app w).
Proof.
  intros Hel.
  unfold renderTasks. rewrite bind_get_dom.
  destruct (tasks_list (dom w)) as [v|] eqn:Ev; [|congruence].
  rewrite bind_get_app.
  unfold filteredTasks, aliases_tasks.
  destruct (str_eqb filter (lit "completed")) eqn:Ec.
  { apply str_eqb_eq in Ec. subst filter. cbn [orb negb].
    assert (Forall (fun t => task_completed t = true)
              (sort taskOrder (List.filter task_completed (tasks (app w))))) as Hall.
    { eapply Permutation_Forall; [symmetry; apply sort_perm | apply filter_all]. }
    destruct (List.filter task_completed (tasks (app w))) as [|t r] eqn:Ef;
      unfold bind, ret, modify_dom; cbn;
      (split; [intros _; split; [reflexivity | first [exact Hall | constructor]]|]);
      (split; [intros H; apply str_eqb_eq in H; discriminate H|]);
      (split; [intros H; congruence | symmetry; apply set_tasks_same]). }
  destruct (str_eqb filter (lit "pending")) eqn:Ep.
  { apply str_eqb_eq in Ep. subst filter. cbn [orb negb].
    assert (Forall (fun t => task_completed t = false)
              (sort taskOrder
                 (List.filter (fun task => negb (task_completed task))
                              (tasks (app w))))) as Hall.
    { eapply Permutation_Forall; [symmetry; apply sort_perm|].
      eapply Forall_impl; [|apply filter_all].
      intros a Ha. cbv beta in Ha. destruct (task_completed a); auto; discriminate. }
    destruct (List.filter (fun task => negb (task_completed task)) (tasks (app w)))
      as [|t r] eqn:Ef;
      unfold bind, ret, modify_dom; cbn;
      (split; [intros H; apply str_eqb_eq in H; discriminate H|]);
      (split; [intros _; split; [reflexivity | first [exact Hall | constructor]]|]);
      (split; [intros _ H; congruence | symmetry; apply set_tasks_same]). }
  cbn [orb negb].
  split; [intros E; apply str_eqb_eq in E; congruence|].
  split; [intros E; apply str_eqb_eq in E; congruence|].
  destruct (tasks (app w)) as [|t r] eqn:Et.
  - cbn. rewrite Et. split; [auto|]. rewrite <- Et. symmetry; apply set_tasks_same.
  - rewrite bind_modify_app. cbn.
    split; [|reflexivity]. intros _ _.
    split; [apply (sort_perm taskOrder (t :: r))|]. split; auto.
Qed.

Lemma renderTasks_sorts_in_place_witness :
  map task_id (tasks (app (final (renderTasks (lit "pending") sample_world))))
    = [1; 2; 3; 4] /\
  map task_id (shown_tasks (tasks_list (dom (final
    (renderTasks (lit "pending") sample_world))))) = [3; 4; 2] /\
  map task_id (tasks (app (final (renderTasks (lit "all") sample_world))))
    = [3; 4; 2; 1].
Proof.
  destruct (renderTasks_sorts_in_place (lit "pending") sample_world)
    as (_ & Hp & _); [simpl; discriminate|].
  destruct (renderTasks_sorts_in_place (lit "all") sample_world)
    as (_ & _ & Ha & _); [simpl; discriminate|].
  destruct (Hp eq_refl) as [Hp1 _].
  destruct Ha as (_ & _ & Ha1);
    [intros H; apply str_eqb_eq in H; discriminate H
    |intros H; apply str_eqb_eq in H; discriminate H|].
  split; [rewrite Hp1; reflexivity|].
  split; [reflexivity|].
  rewrite Ha1; [reflexivity|].
  repeat (constructor;
          [first [left; reflexivity
                 | right; left; reflexivity
                 | right; right; reflexivity]|]).
  constructor.
Defined.

Lemma sort_of_sorted (l : list Task) :
  Forall known_priority l ->
  StronglySorted (fun a b => render_key a <= render_key b) l ->
  sort taskOrder l = l.
Proof.
  intros Hk Hs. induction Hs as [|x r Hr IH Hx]; [reflexivity|].
  inversion Hk as [|? ? Kx Kr]; subst.
  simpl. rewrite (IH Kr).
  destruct r as [|y r']; [reflexivity|].
  simpl. inversion Hx as [|? ? Hxy _]; subst.
  inversion Kr as [|? ? Ky _]; subst.
  destruct (goes_after taskOrder x y) eqn:E; [|reflexivity].
  apply (taskOrder_key x y Kx Ky) in E. lia.
Qed.

Lemma sort_taskOrder_idempotent (l : list Task) :
  Forall known_priority l ->
  sort taskOrder (sort taskOrder l) = sort taskOrder l.
Proof.
  intros Hk. apply sort_of_sorted.
  - eapply Permutation_Forall; [symmetry; apply sort_perm | exact Hk].
  - apply (sort_sorted taskOrder known_priority render_key); [| |exact Hk].
    + intros x y Hx Hy E. apply (taskOrder_key x y Hx Hy) in E. lia.
    + intros x y Hx Hy E.
      destruct (Z_lt_le_dec (render_key y) (render_key x)) as [L|G]; [|exact G].
      apply (taskOrder_key x y Hx Hy) in L. congruence.
Qed.

(** [renderTasks] always completes, silently, in the world [rendered]. *)
Lemma renderTasks_run {Server : Type} (filter : jsstring) (w : World Server) :
  renderTasks filter w = (Normal tt, rendered filter w, []).
Proof.
  unfold renderTasks, rendered. rewrite bind_get_dom.
  destruct (tasks_list (dom w)) as [view|]; [|reflexivity].
  rewrite bind_get_app.
  destruct (filteredTasks filter (tasks (app w))) as [|t0 r0]; [reflexivity|].
  destruct (aliases_tasks filter).
  - rewrite bind_modify_app. reflexivity.
  - reflexivity.
Qed.

(** X6.  Rendering is idempotent: for tasks with the three priorities of
    the data model, rendering a second time with the same filter changes
    neither the page nor the application record. *)
Theorem renderTasks_idempotent
    {Server : Type} (filter : jsstring) (w : World Server) :
  Forall known_priority (tasks (app w)) ->
  final (renderTasks filter (final (renderTasks filter w)))
  = final (renderTasks filter w).
Proof.
  intros Hk. rewrite !renderTasks_run. cbn [final fst snd].
  unfold rendered at 2 3.
  destruct (tasks_list (dom w)) as [v|] eqn:Ev.
  2:{ unfold rendered. rewrite Ev. reflexivity. }
  destruct (filteredTasks filter (tasks (app w))) as [|t r] eqn:Ef.
  - unfold rendered. cbn [dom app set_tasks_list tasks_list]. rewrite Ef.
    reflexivity.
  - rewrite <- Ef.
    assert (Forall known_priority (filteredTasks filter (tasks (app w)))) as Hf
      by (apply filteredTasks_incl; exact Hk).
    unfold rendered. cbn [dom app clock server set_tasks_list tasks_list].
    unfold aliases_tasks, filteredTasks in *.
    destruct (str_eqb filter (lit "completed")) eqn:Ec; cbn [orb negb] in *.
    { rewrite Ef. reflexivity. }
    destruct (str_eqb filter (lit "pending")) eqn:Ep; cbn [orb negb] in *.
    { rewrite Ef. reflexivity. }
    cbn [set_tasks tasks].
    pose proof (sort_taskOrder_idempotent _ Hk) as Hid.
    destruct (sort taskOrder (tasks (app w))) as [|t' r'] eqn:Es.
    { apply sort_nil_inv in Es. congruence. }
    rewrite Hid. reflexivity.
Qed.

Lemma renderTasks_idempotent_witness :
  final (renderTasks (lit "all") (final (renderTasks (lit "all") sample_world)))
  = final (renderTasks (lit "all") sample_world).
Proof.
  apply (renderTasks_idempotent (lit "all") sample_world).
  exact sample_tasks_known.
Defined.

Lemma filter_length_split {A} (f : A -> bool) (l : list A) :
  (List.length (List.filter f l)
   + List.length (List.filter (fun x => negb (f x)) l))%nat = List.length l.
Proof.
  induction l as [|x r IH]; simpl; [reflexivity|].
  destruct (f x); simpl; lia.
Qed.

Lemma filter_length_perm {A} (f : A -> bool) (l l' : list A) :
  Permutation l l' ->
  List.length (List.filter f l) = List.length (List.filter f l').
Proof.
  induction 1 as [|x l l' _ IH|x y l|l l' l'' _ IH1 _ IH2]; simpl.
  - reflexivity.
  - destruct (f x); simpl; congruence.
  - destruct (f x), (f y); reflexivity.
  - congruence.
Qed.

Lemma rendered_tasks_perm {Server : Type} (filter : jsstring) (w : World Server) :
  Permutation (tasks (app (rendered filter w))) (tasks (app w)).
Proof.
  unfold rendered.
  destruct (tasks_list (dom w)) as [view|]; [|reflexivity].
  destruct (filteredTasks filter (tasks (app w))) as [|t0 r0] eqn:Ef;
    [reflexivity|].
  unfold aliases_tasks, filteredTasks in *.
  destruct (str_eqb filter (lit "completed")); cbn [orb negb]; [reflexivity|].
  destruct (str_eqb filter (lit "pending")); cbn [orb negb]; [reflexivity|].
  cbn [app tasks set_tasks]. rewrite Ef. apply sort_perm.
Qed.

(** X7.  The three counters of [updateTasksStats] are consistent: the
    pending count is the number of tasks not completed, total is
    completed plus pending, and none is negative; and they are the same
    before and after [renderTasks], whatever the filter. *)
Theorem updateTasksStats_consistent
    {Server : Type} (filter : jsstring) (w : World Server) :
  let '(total, completed, pending) := updateTasksStats (tasks (app w)) in
  pending = Z.of_nat (List.length
              (List.filter (fun t => negb (task_completed t)) (tasks (app w)))) /\
  total = completed + pending /\
  0 <= completed /\ 0 <= pending /\
  updateTasksStats (tasks (app (final (renderTasks filter w))))
  = updateTasksStats (tasks (app w)).
Proof.
  unfold updateTasksStats.
  pose proof (filter_length_split task_completed (tasks (app w))) as Hsplit.
  repeat split; try lia.
  assert (Permutation (tasks (app (final (renderTasks filter w)))) (tasks (app w)))
    as Hp.
  { rewrite renderTasks_run. apply rendered_tasks_perm. }
  rewrite (Permutation_length Hp).
  rewrite (filter_length_perm task_completed _ _ Hp). reflexivity.
Qed.

(* ================================================================== *)
(** ** Further properties: running the effect layer *)

Section Runs.

Context {Server : Type}.
Implicit Types w : World Server.

Lemma run_eta {A} (r : Completion A * World Server * list Event) :
  r = (completion r, final r, events r).
Proof. destruct r as [[c w] ev]. reflexivity. Qed.

Lemma bind_normal {A B} (c : M Server A) (k : A -> M Server B) w a w1 ev1 :
  c w = (Normal a, w1, ev1) ->
  bind c k w = (completion (k a w1), final (k a w1), ev1 ++ events (k a w1)).
Proof.
  intros H. unfold bind. rewrite H.
  destruct (k a w1) as [[r w2] ev2]. reflexivity.
Qed.

Lemma bind_throw {A B} (c : M Server A) (k : A -> M Server B) w m w1 ev1 :
  c w = (Throw m, w1, ev1) -> bind c k w = (Throw m, w1, ev1).
Proof. intros H. unfold bind. rewrite H. reflexivity. Qed.

Lemma try_catch_normal (body : M Server unit) (h : jsstring -> M Server unit)
    w a w1 ev1 :
  body w = (Normal a, w1, ev1) -> try_catch body h w = (Normal a, w1, ev1).
Proof. intros H. unfold try_catch. rewrite H. reflexivity. Qed.

Lemma try_catch_throw (body : M Server unit) (h : jsstring -> M Server unit)
    w m w1 ev1 :
  body w = (Throw m, w1, ev1) ->
  try_catch body h w =
  (completion (h m w1), final (h m w1), ev1 ++ events (h m w1)).
Proof.
  intros H. unfold try_catch. rewrite H.
  destruct (h m w1) as [[r w2] ev2]. reflexivity.
Qed.

Lemma bind_emit {A} (e : Event) (k : unit -> M Server A) w :
  bind (emit e) k w = (completion (k tt w), final (k tt w), e :: events (k tt w)).
Proof.
  unfold bind, emit. destruct (k tt w) as [[r w2] ev2]. reflexivity.
Qed.

Lemma renderLogs_run w : renderLogs w = (Normal tt, logs_rendered w, []).
Proof.
  unfold renderLogs, logs_rendered. rewrite bind_get_dom.
  destruct (logs_list (dom w)) as [view|]; [|reflexivity].
  rewrite bind_get_app. destruct (logs (app w)); reflexivity.
Qed.

Lemma handleLogChange_run w :
  handleLogChange w = (Normal tt, hook_applied w, []).
Proof.
  unfold handleLogChange, hook_applied, diary_exists.
  rewrite bind_get_clock, bind_get_app, find_existsb.
  destruct (find _ _); [reflexivity|].
  destruct w; reflexivity.
Qed.

Lemma logs_rendered_app w : app (logs_rendered w) = app w.
Proof. unfold logs_rendered. destruct (logs_list (dom w)); reflexivity. Qed.

Lemma hook_applied_app w : app (hook_applied w) = app w.
Proof. unfold hook_applied. destruct (diary_exists _ _); reflexivity. Qed.

Lemma logs_rendered_server w : server (logs_rendered w) = server w.
Proof. unfold logs_rendered. destruct (logs_list (dom w)); reflexivity. Qed.

Lemma hook_applied_server w : server (hook_applied w) = server w.
Proof. unfold hook_applied. destruct (diary_exists _ _); reflexivity. Qed.

End Runs.

(* ================================================================== *)
(** ** Further properties: deleting and adding logs *)

Section DeleteAddProperties.

Context {Server : Type} (backend : Backend Server).
Implicit Types w : World Server.

(** The local part of a deletion, once the backend has agreed or was
    never asked. *)
Lemma deleteLog_local w (logId : Z) :
  bind (modify_app (fun a =>
          set_logs (List.filter (fun l => negb (log_id l =? logId)) (logs a)) a))
       (fun _ => renderLogs ;;
                 showToast (lit "Log deleted successfully!") success ;;
                 handleLogChange) w
  = (Normal tt,
     hook_applied (logs_rendered
       (mkWorld
          (set_logs (List.filter (fun l => negb (log_id l =? logId))
                                 (logs (app w))) (app w))
          (dom w) (clock w) (server w))),
     [Toast (lit "Log deleted successfully!") success]).
Proof.
  rewrite bind_modify_app.
  rewrite (bind_normal _ _ _ _ _ _ (renderLogs_run _)).
  unfold showToast. rewrite bind_emit, handleLogChange_run. reflexivity.
Qed.

Lemma deleteLog_offline_run w (logId : Z) :
  apiConnected (app w) = false ->
  deleteLog backend logId true w =
  (Normal tt,
   hook_applied (logs_rendered
     (mkWorld
        (set_logs (List.filter (fun l => negb (log_id l =? logId))
                               (logs (app w))) (app w))
        (dom w) (clock w) (server w))),
   [Toast (lit "Log deleted successfully!") success]).
Proof.
  intros Ec. unfold deleteLog. apply try_catch_normal.
  rewrite bind_get_app, Ec.
  rewrite (bind_normal _ _ w tt w []); [|reflexivity].
  rewrite deleteLog_local. reflexivity.
Qed.

Lemma deleteLog_accepted_run w (logId : Z) (body : Json unit) (sv : Server) :
  apiConnected (app w) = true ->
  serve_delete_log backend logId (server w) = (Response true body, sv) ->
  deleteLog backend logId true w =
  (Normal tt,
   hook_applied (logs_rendered
     (mkWorld
        (set_logs (List.filter (fun l => negb (log_id l =? logId))
                               (logs (app w))) (app w))
        (dom w) (clock w) sv)),
   [Fetch (DELETE_log logId); Toast (lit "Log deleted successfully!") success]).
Proof.
  intros Ec Hs. unfold deleteLog. apply try_catch_normal.
  assert (fetch (DELETE_log logId) (serve_delete_log backend logId) w
          = (Normal (true, body), mkWorld (app w) (dom w) (clock w) sv,
             [Fetch (DELETE_log logId)])) as Hf
    by (unfold fetch; rewrite Hs; reflexivity).
  rewrite bind_get_app, Ec.
  rewrite (bind_normal _ _ w tt (mkWorld (app w) (dom w) (clock w) sv)
             [Fetch (DELETE_log logId)]).
  2:{ rewrite (bind_normal _ _ _ _ _ _ Hf). reflexivity. }
  rewrite deleteLog_local. reflexivity.
Qed.

Lemma filter_id_gone (logId : Z) (l : list LogEntry) :
  ~ In logId (map log_id (List.filter (fun l => negb (log_id l =? logId)) l)).
Proof.
  intros Hin. apply in_map_iff in Hin. destruct Hin as (x & Ex & Hx).
  apply filter_In in Hx. destruct Hx as [_ Hx].
  rewrite <- Ex, Z.eqb_refl in Hx. discriminate.
Qed.

(** X8.  A confirmed [deleteLog] that the backend accepts, or that runs
    while the application believes the backend is not connected, removes
    every log carrying the id and keeps the other logs in their order;
    the rest of the application record is untouched, and the success is
    reported.  In the unconnected case no request is sent: the deletion
    is local only. *)
Theorem deleteLog_removes_log (w : World Server) (logId : Z) :
  (apiConnected (app w) = false \/
   exists body sv,
     serve_delete_log backend logId (server w) = (Response true body, sv)) ->
  let run := deleteLog backend logId true w in
  app (final run) =
    set_logs (List.filter (fun l => negb (log_id l =? logId)) (logs (app w)))
             (app w) /\
  ~ In logId (map log_id (logs (app (final run)))) /\
  In (Toast (lit "Log deleted successfully!") success) (events run) /\
  (apiConnected (app w) = false ->
   requests (events run) = [] /\ server (final run) = server w).
Proof.
  intros Hok run. subst run.
  destruct (apiConnected (app w)) eqn:Ec.
  - destruct Hok as [Hoff | (body & sv & Hs)]; [discriminate|].
    rewrite (deleteLog_accepted_run w logId body sv Ec Hs).
    cbn [final events fst snd].
    rewrite hook_applied_app, logs_rendered_app. cbn [app logs set_logs].
    split; [reflexivity|]. split; [apply filter_id_gone|].
    split; [simpl; auto | discriminate].
  - rewrite (deleteLog_offline_run w logId Ec).
    cbn [final events fst snd].
    rewrite hook_applied_app, logs_rendered_app,
            hook_applied_server, logs_rendered_server. cbn [app server logs set_logs].
    split; [reflexivity|]. split; [apply filter_id_gone|].
    split; [simpl; auto | intros _; split; reflexivity].
Qed.

(** X9.  When the backend refuses a confirmed deletion, by a network
    failure or by a response that is not ok, [deleteLog] changes neither
    the application record nor the page; it logs the error and reports
    ["Failed to delete log: <message>"]. *)
Theorem deleteLog_refused (w : World Server) (logId : Z)
    (reply : FetchResult unit) (sv : Server) :
  apiConnected (app w) = true ->
  serve_delete_log backend logId (server w) = (reply, sv) ->
  (forall body, reply <> Response true body) ->
  let message := match reply with
                 | NetworkError m => m
                 | Response _ _ => lit "Failed to delete log from server"
                 end in
  deleteLog backend logId true w =
  (Normal tt, mkWorld (app w) (dom w) (clock w) sv,
   [ Fetch (DELETE_log logId);
     ConsoleError (lit "Error deleting log:") message;
     Toast (lit "Failed to delete log: " ++ message) error ]).
Proof.
  intros Hc Hs Hno message. unfold deleteLog.
  destruct reply as [m|[|] body].
  - assert (fetch (DELETE_log logId) (serve_delete_log backend logId) w
            = (Throw m, mkWorld (app w) (dom w) (clock w) sv,
               [Fetch (DELETE_log logId)])) as Hf
      by (unfold fetch; rewrite Hs; reflexivity).
    rewrite (try_catch_throw _ _ w m (mkWorld (app w) (dom w) (clock w) sv)
               [Fetch (DELETE_log logId)]).
    2:{ rewrite bind_get_app, Hc.
        apply bind_throw. apply bind_throw. exact Hf. }
    reflexivity.
  - exfalso. apply (Hno body). reflexivity.
  - assert (fetch (DELETE_log logId) (serve_delete_log backend logId) w
            = (Normal (false, body), mkWorld (app w) (dom w) (clock w) sv,
               [Fetch (DELETE_log logId)])) as Hf
      by (unfold fetch; rewrite Hs; reflexivity).
    rewrite (try_catch_throw _ _ w (lit "Failed to delete log from server")
               (mkWorld (app w) (dom w) (clock w) sv)
               [Fetch (DELETE_log logId)]).
    2:{ rewrite bind_get_app, Hc.
        apply bind_throw. rewrite (bind_normal _ _ _ _ _ _ Hf). reflexivity. }
    reflexivity.
Qed.

Lemma logs_rendered_auto w :
  auto_diary (dom (logs_rendered w)) = auto_diary (dom w) /\
  auto_tasks (dom (logs_rendered w)) = auto_tasks (dom w).
Proof. unfold logs_rendered. destruct (logs_list (dom w)); split; reflexivity. Qed.

(** X10.  With non-blank input, a backend that accepts the log and the
    two automatic options unchecked, [addLog] posts the trimmed content
    once, appends the log the backend returns at the end of the
    collection, sets the next-id counter to that log's id plus one,
    empties the input field, re-renders the list and reports success;
    diary entries and tasks are untouched. *)
Theorem addLog_appends (w : World Server) (value : jsstring)
    (reply : LogReply) (sv : Server) :
  log_input (dom w) = Some value ->
  trim value <> [] ->
  serve_post_logs backend (trim value) (server w)
    = (Response true (JsonValue reply), sv) ->
  auto_diary (dom w) <> Some true ->
  auto_tasks (dom w) <> Some true ->
  addLog backend w =
  (Normal tt,
   logs_rendered
     (mkWorld
        (set_nextLogId (log_id (reply_log reply) + 1)
           (set_logs (logs (app w) ++ [reply_log reply]) (app w)))
        (set_log_input (Some []) (dom w)) (clock w) sv),
   [ Fetch (POST_logs (trim value));
     Toast (lit "Log entry added successfully!") success ]).
Proof.
  intros Hv Hne Hs Hd Ht. unfold addLog. rewrite bind_get_dom, Hv.
  destruct (trim value) as [|c r] eqn:Etrim; [congruence|]. rewrite <- Etrim in *.
  replace (falsy_str (trim value)) with false by (rewrite Etrim; reflexivity).
  assert (fetch (POST_logs (trim value)) (serve_post_logs backend (trim value)) w
          = (Normal (true, JsonValue reply),
             mkWorld (app w) (dom w) (clock w) sv,
             [Fetch (POST_logs (trim value))])) as Hf
    by (unfold fetch; rewrite Hs; reflexivity).
  apply try_catch_normal.
  rewrite (bind_normal _ _ _ _ _ _ Hf).
  cbn [fst snd negb json]. cbv iota.
  rewrite (bind_normal _ _ _ tt _ [] eq_refl).
  rewrite (bind_normal _ _ _ reply _ [] eq_refl).
  rewrite bind_modify_app, bind_modify_app, bind_modify_dom.
  rewrite (bind_normal _ _ _ _ _ _ (renderLogs_run _)).
  unfold showToast. rewrite bind_emit, bind_get_dom.
  match goal with
  | |- context [logs_rendered ?w1] =>
      destruct (logs_rendered_auto w1) as [Ea Eb]; rewrite Ea, Eb
  end.
  cbn [dom set_log_input auto_diary auto_tasks app clock server].
  destruct (auto_diary (dom w)) as [[|]|]; try congruence;
    destruct (auto_tasks (dom w)) as [[|]|]; try congruence; reflexivity.
Qed.

(** X11.  When the backend does not accept the log (network failure,
    response not ok, or a body that does not parse), [addLog] leaves the
    application record and the page as they were, the text in the input
    field included; the error is logged and reported as
    ["Failed to add log entry"]. *)
Theorem addLog_failure_keeps_input (w : World Server) (value : jsstring)
    (reply : FetchResult LogReply) (sv : Server) :
  log_input (dom w) = Some value ->
  trim value <> [] ->
  serve_post_logs backend (trim value) (server w) = (reply, sv) ->
  (forall r, reply <> Response true (JsonValue r)) ->
  let message := match reply with
                 | NetworkError m => m
                 | Response false _ => lit "Failed to save log"
                 | Response true (JsonError m) => m
                 | Response true (JsonValue _) => []
                 end in
  addLog backend w =
  (Normal tt, mkWorld (app w) (dom w) (clock w) sv,
   [ Fetch (POST_logs (trim value));
     ConsoleError (lit "Error adding log:") message;
     Toast (lit "Failed to add log entry") error ]).
Proof.
  intros Hv Hne Hs Hno message. unfold addLog. rewrite bind_get_dom, Hv.
  destruct (trim value) as [|c r] eqn:Etrim; [congruence|]. rewrite <- Etrim in *.
  replace (falsy_str (trim value)) with false by (rewrite Etrim; reflexivity).
  destruct reply as [m|[|] [m|r0]].
  - rewrite (try_catch_throw _ _ w m (mkWorld (app w) (dom w) (clock w) sv)
               [Fetch (POST_logs (trim value))]); [reflexivity|].
    apply bind_throw. unfold fetch. rewrite Hs. reflexivity.
  - rewrite (try_catch_throw _ _ w m (mkWorld (app w) (dom w) (clock w) sv)
               [Fetch (POST_logs (trim value))]); [reflexivity|].
    rewrite (bind_normal _ _ w (true, JsonError m)
               (mkWorld (app w) (dom w) (clock w) sv)
               [Fetch (POST_logs (trim value))]);
      [|unfold fetch; rewrite Hs; reflexivity].
    reflexivity.
  - exfalso. apply (Hno r0). reflexivity.
  - rewrite (try_catch_throw _ _ w (lit "Failed to save log")
               (mkWorld (app w) (dom w) (clock w) sv)
               [Fetch (POST_logs (trim value))]); [reflexivity|].
    rewrite (bind_normal _ _ w (false, JsonError m)
               (mkWorld (app w) (dom w) (clock w) sv)
               [Fetch (POST_logs (trim value))]);
      [|unfold fetch; rewrite Hs; reflexivity].
    reflexivity.
  - rewrite (try_catch_throw _ _ w (lit "Failed to save log")
               (mkWorld (app w) (dom w) (clock w) sv)
               [Fetch (POST_logs (trim value))]); [reflexivity|].
    rewrite (bind_normal _ _ w (false, JsonValue r0)
               (mkWorld (app w) (dom w) (clock w) sv)
               [Fetch (POST_logs (trim value))]);
      [|unfold fetch; rewrite Hs; reflexivity].
    reflexivity.
Qed.

End DeleteAddProperties.

Lemma deleteLog_removes_log_witness :
  app (final (deleteLog day_after 1 true sample_world)) =
    set_logs [] (app sample_world) /\
  ~ In 1 (map log_id (logs (app (final (deleteLog day_after 1 true sample_world))))) /\
  In (Toast (lit "Log deleted successfully!") success)
     (events (deleteLog day_after 1 true sample_world)).
Proof.
  destruct (deleteLog_removes_log day_after sample_world 1) as (H1 & H2 & H3 & _).
  - right. exists (JsonValue tt), tt. reflexivity.
  - split; [exact H1 | split; [exact H2 | exact H3]].
Defined.

Lemma deleteLog_refused_witness :
  deleteLog refusing 1 true sample_world =
  (Normal tt, sample_world,
   [ Fetch (DELETE_log 1);
     ConsoleError (lit "Error deleting log:") (lit "Failed to delete log from server");
     Toast (lit "Failed to delete log: Failed to delete log from server") error ]).
Proof.
  apply (deleteLog_refused refusing sample_world 1
           (Response false (JsonError [])) tt).
  - reflexivity.
  - reflexivity.
  - intros body H. discriminate H.
Defined.

Lemma addLog_appends_witness :
  addLog day_after (mkWorld sample_app (set_log_input (Some (lit " Lunch ")) page) noon tt) =
  (Normal tt,
   logs_rendered
     (mkWorld
        (set_nextLogId 3
           (set_logs [yesterday_log; mkLog 2 (lit "Lunch") (lit "120000021025") 1]
                     sample_app))
        (set_log_input (Some []) page) noon tt),
   [ Fetch (POST_logs (lit "Lunch"));
     Toast (lit "Log entry added successfully!") success ]).
Proof.
  apply (addLog_appends day_after
           (mkWorld sample_app (set_log_input (Some (lit " Lunch ")) page) noon tt)
           (lit " Lunch ")
           (mkLogReply (mkLog 2 (lit "Lunch") (lit "120000021025") 1)) tt).
  - reflexivity.
  - vm_compute. discriminate.
  - reflexivity.
  - simpl. discriminate.
  - simpl. discriminate.
Defined.

Lemma addLog_failure_keeps_input_witness :
  addLog refusing (mkWorld sample_app (set_log_input (Some (lit " Lunch ")) page) noon tt) =
  (Normal tt, mkWorld sample_app (set_log_input (Some (lit " Lunch ")) page) noon tt,
   [ Fetch (POST_logs (lit "Lunch"));
     ConsoleError (lit "Error adding log:") (lit "Failed to save log");
     Toast (lit "Failed to add log entry") error ]).
Proof.
  apply (addLog_failure_keeps_input refusing
           (mkWorld sample_app (set_log_input (Some (lit " Lunch ")) page) noon tt)
           (lit " Lunch ") (Response false (JsonError [])) tt).
  - reflexivity.
  - vm_compute. discriminate.
  - reflexivity.
  - intros r H. discriminate H.
Defined.

(* ================================================================== *)
(** ** Further properties: what reaches the backend *)

Lemma benign_toast (Q : Event -> Prop) :
  benign Q -> forall m t, Q (Toast m t).
Proof. intros H. apply H. Qed.

Lemma benign_console (Q : Event -> Prop) :
  benign Q -> forall l m, Q (ConsoleError l m).
Proof. intros H. apply H. Qed.

Lemma benign_fetch (Q : Event -> Prop) :
  benign Q -> forall r, writes_no_log (Fetch r) -> Q (Fetch r).
Proof. intros H. apply H. Qed.

Ltac emits_auto :=
  repeat first
    [ emits_step
    | match goal with
      | |- emits _ (json _) => unfold json
      | |- emits _ (showToast _ _) => unfold showToast
      | |- emits _ (if ?b then _ else _) => destruct b
      | |- emits _ (match ?b with JsonError _ => _ | JsonValue _ => _ end) =>
          destruct b
      | |- emits _ (match ?b with Some _ => _ | None => _ end) => destruct b
      | |- emits _ (match ?b with [] => _ | _ :: _ => _ end) => destruct b
      | H : benign ?Q |- ?Q (Toast _ _) => apply (benign_toast _ H)
      | H : benign ?Q |- ?Q (ConsoleError _ _) => apply (benign_console _ H)
      | H : benign ?Q |- ?Q (Fetch _) => apply (benign_fetch _ H); exact I
      end ].

Section Requests.

Context {Server : Type} (backend : Backend Server).
Implicit Types w : World Server.

Lemma emits_impl {A} (Q Q' : Event -> Prop) (c : M Server A) :
  (forall e, Q e -> Q' e) -> emits Q c -> emits Q' c.
Proof.
  intros H Hc w. eapply Forall_impl; [exact H | apply Hc].
Qed.

Lemma benign_writes_no_log : benign writes_no_log.
Proof. repeat split; auto. Qed.

Lemma loadData_benign (Q : Event -> Prop) :
  benign Q -> emits Q (loadData backend).
Proof. intros HQ. unfold loadData, json, showToast. emits_auto. Qed.

Lemma renderLogs_benign (Q : Event -> Prop) :
  emits (Server:=Server) Q renderLogs.
Proof. intros w. rewrite renderLogs_run. constructor. Qed.

Lemma renderTasks_benign (Q : Event -> Prop) (filter : jsstring) :
  emits (Server:=Server) Q (renderTasks filter).
Proof. intros w. rewrite renderTasks_run. constructor. Qed.

Lemma handleLogChange_benign (Q : Event -> Prop) :
  emits (Server:=Server) Q handleLogChange.
Proof. intros w. rewrite handleLogChange_run. constructor. Qed.

Lemma displayDiaryEntry_benign (Q : Event -> Prop) (e : DiaryEntry) :
  emits (Server:=Server) Q (displayDiaryEntry e).
Proof. unfold displayDiaryEntry. emits_auto. Qed.

Lemma generateDiary_benign (Q : Event -> Prop) (isRegenerate isIncremental : bool) :
  benign Q -> emits Q (generateDiary backend isRegenerate isIncremental).
Proof.
  intros HQ. unfold generateDiary, json, showToast.
  repeat first [ apply (loadData_benign _ HQ)
               | apply displayDiaryEntry_benign
               | progress emits_auto ].
Qed.

Lemma extractTasks_benign (Q : Event -> Prop) (onlyNew : bool) :
  benign Q -> emits Q (extractTasks backend onlyNew).
Proof.
  intros HQ. unfold extractTasks, json, showToast.
  repeat first [ apply (loadData_benign _ HQ)
               | apply renderTasks_benign
               | progress emits_auto ].
Qed.

Lemma editLog_benign (Q : Event -> Prop) (logId : Z) (answer : option jsstring) :
  benign Q -> emits (Server:=Server) Q (editLog logId answer).
Proof.
  intros HQ. unfold editLog, showToast.
  repeat first [ apply renderLogs_benign
               | apply handleLogChange_benign
               | progress emits_auto ].
Qed.

Lemma addManualTask_benign (Q : Event -> Prop) :
  benign Q -> emits (Server:=Server) Q addManualTask.
Proof.
  intros HQ. unfold addManualTask, showToast.
  repeat first [ apply renderTasks_benign
               | progress emits_auto ].
Qed.

(** X12.  The backend's log collection is written by [addLog] and
    [deleteLog] only: [loadData], [generateDiary], [extractTasks],
    [editLog] and [addManualTask] never send [POST /logs] nor
    [DELETE /logs/<id>], whatever the backend answers. *)
Theorem only_addLog_and_deleteLog_write_logs
    (w : World Server) (isRegenerate isIncremental onlyNew : bool)
    (logId : Z) (answer : option jsstring) :
  Forall writes_no_log (events (loadData backend w)) /\
  Forall writes_no_log
    (events (generateDiary backend isRegenerate isIncremental w)) /\
  Forall writes_no_log (events (extractTasks backend onlyNew w)) /\
  Forall writes_no_log (events (editLog logId answer w)) /\
  Forall writes_no_log (events (addManualTask w)).
Proof.
  pose proof benign_writes_no_log as HQ.
  split; [apply (loadData_benign _ HQ)|].
  split; [apply (generateDiary_benign _ _ _ HQ)|].
  split; [apply (extractTasks_benign _ _ HQ)|].
  split; [apply (editLog_benign _ _ _ HQ) | apply (addManualTask_benign _ HQ)].
Qed.

Lemma trimStart_snoc (l : jsstring) (c : code_unit) :
  isWhiteSpace c = false -> trimStart (l ++ [c]) = trimStart l ++ [c].
Proof.
  intros Hc. induction l as [|x l IH]; simpl.
  - rewrite Hc. reflexivity.
  - destruct (isWhiteSpace x); [exact IH | reflexivity].
Qed.

Lemma trimStart_head (s : jsstring) :
  match hd_error (trimStart s) with
  | Some c => isWhiteSpace c = false
  | None => True
  end.
Proof.
  induction s as [|x s IH]; simpl; [exact I|].
  destruct (isWhiteSpace x) eqn:E; [exact IH | simpl; exact E].
Qed.

Lemma trimEnd_cons (c : code_unit) (s : jsstring) :
  isWhiteSpace c = false -> trimEnd (c :: s) = c :: trimEnd s.
Proof.
  intros Hc. unfold trimEnd. simpl rev.
  rewrite trimStart_snoc by exact Hc.
  rewrite rev_app_distr. reflexivity.
Qed.

(** What [trim] returns neither starts nor ends with white space. *)
Lemma trim_ends_clean (s : jsstring) : ends_clean (trim s).
Proof.
  unfold ends_clean, trim. split.
  - pose proof (trimStart_head s) as H.
    destruct (trimStart s) as [|c r]; [exact I|].
    simpl in H. rewrite trimEnd_cons by exact H. simpl. exact H.
  - unfold trimEnd. rewrite rev_involutive. apply trimStart_head.
Qed.

(** X13.  Whatever the page holds and whatever the backend answers,
    every [POST /logs] that [addLog] sends carries the trimmed value of
    the input field, which is not empty and neither starts nor ends with
    white space; and [addLog] never sends a [DELETE]. *)
Theorem addLog_posts_trimmed_content (w : World Server) :
  (forall content,
     In (Fetch (POST_logs content)) (events (addLog backend w)) ->
     exists value,
       log_input (dom w) = Some value /\ content = trim value /\
       content <> [] /\ ends_clean content) /\
  (forall logId, ~ In (Fetch (DELETE_log logId)) (events (addLog backend w))).
Proof.
  unfold addLog. rewrite bind_get_dom.
  destruct (log_input (dom w)) as [value|] eqn:Ev.
  2:{ split; intros ? []. }
  destruct (trim value) as [|c r] eqn:Etrim.
  { cbn. split; [intros ? [H|[]] | intros ? [H|[]]]; discriminate H. }
  rewrite <- Etrim. replace (falsy_str (trim value)) with false
    by (rewrite Etrim; reflexivity).
  set (Q := fun e => match e with
                     | Fetch (POST_logs content) => content = trim value
                     | Fetch (DELETE_log _) => False
                     | _ => True
                     end).
  assert (benign Q) as HQ.
  { repeat split; try exact I. intros [] H; try exact I; destruct H. }
  match goal with
  | |- context [events (?c w)] => assert (emits Q c) as Hc
  end.
  { apply emits_try_catch; [|intros m; emits_auto].
    apply emits_bind; [apply emits_fetch; reflexivity | intros response].
    repeat first [ apply renderLogs_benign
                 | apply (generateDiary_benign _ _ _ HQ)
                 | apply (extractTasks_benign _ _ HQ)
                 | progress emits_auto ]. }
  specialize (Hc w). rewrite Forall_forall in Hc.
  split.
  - intros content Hin. apply Hc in Hin. unfold Q in Hin.
    exists value. split; [reflexivity|]. split; [exact Hin|].
    subst content. split; [congruence | apply trim_ends_clean].
  - intros logId Hin. apply Hc in Hin. exact Hin.
Qed.

End Requests.

(* ================================================================== *)
(** ** Further properties: synthesis and loading *)

Section SynthesisProperties.

Context {Server : Type} (backend : Backend Server).
Implicit Types w : World Server.

Lemma generateDiary_guard_run w (isRegenerate isIncremental : bool) :
  logs (app w) = [] \/ apiConnected (app w) = false ->
  generateDiary backend isRegenerate isIncremental w =
    (Normal tt, w,
     [Toast (match logs (app w) with
             | [] => lit "Add some logs first to generate a diary entry"
             | _ => lit "Backend server not available"
             end) error]).
Proof.
  intros H. unfold generateDiary. rewrite bind_get_app.
  destruct (logs (app w)) as [|l ls]; [reflexivity|].
  destruct H as [H|H]; [discriminate|]. rewrite H. reflexivity.
Qed.

Lemma extractTasks_guard_run w (onlyNew : bool) :
  logs (app w) = [] \/ apiConnected (app w) = false ->
  extractTasks backend onlyNew w =
    (Normal tt, w,
     [Toast (match logs (app w) with
             | [] => lit "Add some logs first to extract tasks"
             | _ => lit "Backend server not available"
             end) error]).
Proof.
  intros H. unfold extractTasks. rewrite bind_get_app.
  destruct (logs (app w)) as [|l ls]; [reflexivity|].
  destruct H as [H|H]; [discriminate|]. rewrite H. reflexivity.
Qed.

(** X14.  Without logs, or while the application believes the backend
    is not connected, [generateDiary] and [extractTasks] send nothing and
    change nothing; each reports one error, the missing logs taking
    precedence over the missing connection. *)
Theorem synthesis_guards (w : World Server)
    (isRegenerate isIncremental onlyNew : bool) :
  logs (app w) = [] \/ apiConnected (app w) = false ->
  generateDiary backend isRegenerate isIncremental w =
    (Normal tt, w,
     [Toast (match logs (app w) with
             | [] => lit "Add some logs first to generate a diary entry"
             | _ => lit "Backend server not available"
             end) error]) /\
  extractTasks backend onlyNew w =
    (Normal tt, w,
     [Toast (match logs (app w) with
             | [] => lit "Add some logs first to extract tasks"
             | _ => lit "Backend server not available"
             end) error]).
Proof.
  intros H. split.
  - apply generateDiary_guard_run. exact H.
  - apply extractTasks_guard_run. exact H.
Qed.

Lemma loadData_logs_then_reject w (d1 : LogsData) (m : jsstring) (sv1 sv2 : Server) :
  serve_get_logs backend (server w) = (Response true (JsonValue d1), sv1) ->
  serve_get_diary backend sv1 = (NetworkError m, sv2) ->
  loadData backend w =
  (Normal tt,
   mkWorld (set_nextLogId (or_one (ld_nextId d1))
              (set_logs (or_array (ld_logs d1)) (app w)))
           (dom w) (clock w) sv2,
   [ Fetch GET_logs; Fetch GET_diary;
     ConsoleError (lit "Error loading data:") m;
     Toast (lit "Failed to load data from server") error ]).
Proof.
  intros E1 E2.
  unfold loadData, try_catch, bind, fetch, json, ret, modify_app, emit, showToast.
  cbn [server app dom clock]. rewrite E1.
  cbn [fst snd app server dom clock]. rewrite E2. reflexivity.
Qed.

(** X15.  [loadData] is not all-or-nothing.  When the logs are delivered
    and the diary request then fails on the network, the logs and their
    counter are replaced, the diary entries and the tasks keep their
    previous values, the tasks are never requested, and the failure is
    reported once. *)
Theorem loadData_stops_at_first_failure
    (w : World Server) (d1 : LogsData) (m : jsstring) (sv1 sv2 : Server) :
  serve_get_logs backend (server w) = (Response true (JsonValue d1), sv1) ->
  serve_get_diary backend sv1 = (NetworkError m, sv2) ->
  let run := loadData backend w in
  logs (app (final run)) = or_array (ld_logs d1) /\
  nextLogId (app (final run)) = or_one (ld_nextId d1) /\
  diaryEntries (app (final run)) = diaryEntries (app w) /\
  tasks (app (final run)) = tasks (app w) /\
  nextDiaryId (app (final run)) = nextDiaryId (app w) /\
  nextTaskId (app (final run)) = nextTaskId (app w) /\
  events run =
    [ Fetch GET_logs; Fetch GET_diary;
      ConsoleError (lit "Error loading data:") m;
      Toast (lit "Failed to load data from server") error ].
Proof.
  intros E1 E2 run. subst run.
  rewrite (loadData_logs_then_reject w d1 m sv1 sv2 E1 E2).
  repeat split.
Qed.

(** X16.  A response that is not ok is skipped in silence: when the
    three endpoints answer without the ok flag, [loadData] asks all
    three, keeps every collection and counter, and reports nothing. *)
Theorem loadData_skips_not_ok
    (w : World Server) (b1 : Json LogsData) (b2 : Json DiaryData)
    (b3 : Json TasksData) (sv1 sv2 sv3 : Server) :
  serve_get_logs backend (server w) = (Response false b1, sv1) ->
  serve_get_diary backend sv1 = (Response false b2, sv2) ->
  serve_get_tasks backend sv2 = (Response false b3, sv3) ->
  loadData backend w =
  (Normal tt, mkWorld (app w) (dom w) (clock w) sv3,
   [Fetch GET_logs; Fetch GET_diary; Fetch GET_tasks]).
Proof.
  intros E1 E2 E3.
  unfold loadData, try_catch, bind, fetch, json, ret, modify_app, emit, showToast.
  cbn [server app dom clock]. rewrite E1.
  cbn [fst snd app server dom clock]. rewrite E2.
  cbn [fst snd app server dom clock]. rewrite E3. reflexivity.
Qed.

Lemma loadData_all_delivered w (d1 : LogsData) (d2 : DiaryData) (d3 : TasksData)
    (sv1 sv2 sv3 : Server) :
  serve_get_logs backend (server w) = (Response true (JsonValue d1), sv1) ->
  serve_get_diary backend sv1 = (Response true (JsonValue d2), sv2) ->
  serve_get_tasks backend sv2 = (Response true (JsonValue d3), sv3) ->
  loadData backend w =
  (Normal tt,
   mkWorld
     {| logs := or_array (ld_logs d1);
        diaryEntries := or_array (dd_entries d2);
        tasks := or_array (td_tasks d3);
        currentTab := currentTab (app w);
        nextLogId := or_one (ld_nextId d1);
        nextTaskId := or_one (td_nextId d3);
        nextDiaryId := or_one (dd_nextId d2);
        apiConnected := apiConnected (app w) |}
     (dom w) (clock w) sv3,
   [Fetch GET_logs; Fetch GET_diary; Fetch GET_tasks]).
Proof.
  intros E1 E2 E3.
  unfold loadData, try_catch, bind, fetch, json, ret, modify_app.
  cbn [server app dom clock]. rewrite E1.
  cbn [fst snd app server dom clock]. rewrite E2.
  cbn [fst snd app server dom clock]. rewrite E3. reflexivity.
Qed.

Lemma displayDiaryEntry_run w (entry : DiaryEntry) :
  displayDiaryEntry entry w = (Normal tt, diary_displayed entry w, []).
Proof.
  unfold displayDiaryEntry, diary_displayed. rewrite bind_modify_dom.
  unfold modify_dom. cbn [app dom clock server].
  destruct (diary_text (dom w)); reflexivity.
Qed.

(** X17.  A successful synthesis is one request followed by a reload.
    With logs present, the backend believed connected, the generation
    request answered ok and the three collections delivered afterwards,
    [generateDiary] replaces every collection and counter by what was
    delivered, shows the delivered entry dated today when there is one
    (its content in the diary text, the update button hidden again), and
    reports the success under the name of the requested action. *)
Theorem generateDiary_reloads
    (w : World Server) (isRegenerate isIncremental : bool)
    (result : MessageBody) (d1 : LogsData) (d2 : DiaryData) (d3 : TasksData)
    (sv0 sv1 sv2 sv3 : Server) :
  logs (app w) <> [] ->
  apiConnected (app w) = true ->
  serve_generate_diary backend (isoDate (clock w)) (server w)
    = (Response true (JsonValue result), sv0) ->
  serve_get_logs backend sv0 = (Response true (JsonValue d1), sv1) ->
  serve_get_diary backend sv1 = (Response true (JsonValue d2), sv2) ->
  serve_get_tasks backend sv2 = (Response true (JsonValue d3), sv3) ->
  let loaded :=
    mkWorld
      {| logs := or_array (ld_logs d1);
         diaryEntries := or_array (dd_entries d2);
         tasks := or_array (td_tasks d3);
         currentTab := currentTab (app w);
         nextLogId := or_one (ld_nextId d1);
         nextTaskId := or_one (td_nextId d3);
         nextDiaryId := or_one (dd_nextId d2);
         apiConnected := true |}
      (dom w) (clock w) sv3 in
  generateDiary backend isRegenerate isIncremental w =
  (Normal tt,
   match find (fun entry => str_eqb (diary_date entry) (isoDate (clock w)))
              (or_array (dd_entries d2)) with
   | Some entry => diary_displayed entry loaded
   | None => loaded
   end,
   [ Fetch (POST_generate_diary (isoDate (clock w)));
     Fetch GET_logs; Fetch GET_diary; Fetch GET_tasks;
     Toast (lit "Diary entry "
              ++ (if isRegenerate then lit "regenerated"
                  else if isIncremental then lit "updated" else lit "generated")
              ++ lit " successfully!") success ]).
Proof.
  intros Hl Hc Eg E1 E2 E3 loaded.
  unfold generateDiary. rewrite bind_get_app.
  destruct (logs (app w)) as [|l0 ls] eqn:El; [congruence|].
  rewrite Hc. cbn [negb].
  apply try_catch_normal.
  rewrite bind_get_clock.
  rewrite (bind_normal _ _ w (true, JsonValue result)
             (mkWorld (app w) (dom w) (clock w) sv0)
             [Fetch (POST_generate_diary (isoDate (clock w)))]);
    [|unfold fetch; rewrite Eg; reflexivity].
  cbn [fst snd negb json]. cbv iota.
  rewrite (bind_normal _ _ _ tt _ [] eq_refl).
  rewrite (bind_normal _ _ _ result _ [] eq_refl).
  rewrite (bind_normal _ _ _ _ _ _
             (loadData_all_delivered (mkWorld (app w) (dom w) (clock w) sv0)
                d1 d2 d3 sv1 sv2 sv3 E1 E2 E3)).
  cbn [app dom clock server]. rewrite Hc. fold loaded.
  rewrite bind_get_app.
  cbn [app diaryEntries]. subst loaded. cbn [app diaryEntries].
  destruct (find _ (or_array (dd_entries d2))) as [entry|].
  - rewrite (bind_normal _ _ _ _ _ _ (displayDiaryEntry_run _ entry)).
    reflexivity.
  - rewrite (bind_normal _ _ _ tt _ [] eq_refl). reflexivity.
Qed.

End SynthesisProperties.

Lemma synthesis_guards_witness :
  generateDiary day_after false false
    (mkWorld (set_apiConnected false sample_app) page noon tt) =
    (Normal tt, mkWorld (set_apiConnected false sample_app) page noon tt,
     [Toast (lit "Backend server not available") error]) /\
  extractTasks day_after false
    (mkWorld (set_apiConnected false sample_app) page noon tt) =
    (Normal tt, mkWorld (set_apiConnected false sample_app) page noon tt,
     [Toast (lit "Backend server not available") error]).
Proof.
  apply (synthesis_guards day_after
           (mkWorld (set_apiConnected false sample_app) page noon tt)
           false false false).
  right. reflexivity.
Defined.

Lemma loadData_stops_at_first_failure_witness :
  let run := loadData diary_down sample_world in
  logs (app (final run)) = [yesterday_log] /\
  nextLogId (app (final run)) = 2 /\
  diaryEntries (app (final run)) = diaryEntries (app sample_world) /\
  tasks (app (final run)) = tasks (app sample_world) /\
  nextDiaryId (app (final run)) = nextDiaryId (app sample_world) /\
  nextTaskId (app (final run)) = nextTaskId (app sample_world) /\
  events run =
    [ Fetch GET_logs; Fetch GET_diary;
      ConsoleError (lit "Error loading data:") (lit "Failed to fetch");
      Toast (lit "Failed to load data from server") error ].
Proof.
  apply (loadData_stops_at_first_failure diary_down sample_world
           (mkLogsData (Some [yesterday_log]) (Some 2))
           (lit "Failed to fetch") tt tt); reflexivity.
Defined.

Lemma loadData_skips_not_ok_witness :
  loadData refusing sample_world =
  (Normal tt, sample_world, [Fetch GET_logs; Fetch GET_diary; Fetch GET_tasks]).
Proof.
  apply (loadData_skips_not_ok refusing sample_world
           (JsonError []) (JsonError []) (JsonError []) tt tt tt); reflexivity.
Defined.

Lemma generateDiary_reloads_witness :
  diaryEntries (app (final (generateDiary synthesised false true sample_world)))
    = [sample_diary; today_diary] /\
  diary_text (dom (final (generateDiary synthesised false true sample_world)))
    = Some (lit "Called the dentist.") /\
  update_diary_btn (dom (final (generateDiary synthesised false true sample_world)))
    = Some true /\
  events (generateDiary synthesised false true sample_world) =
    [ Fetch (POST_generate_diary (lit "2025-10-02"));
      Fetch GET_logs; Fetch GET_diary; Fetch GET_tasks;
      Toast (lit "Diary entry updated successfully!") success ].
Proof.
  rewrite (generateDiary_reloads synthesised sample_world false true
             (mkMessageBody None)
             (mkLogsData (Some [yesterday_log]) (Some 2))
             (mkDiaryData (Some [sample_diary; today_diary]) (Some 3))
             (mkTasksData (Some sample_tasks) (Some 5))
             tt tt tt tt);
    try reflexivity.
  - repeat split.
  - simpl. discriminate.
Defined.

(* ================================================================== *)
(** ** Further properties: local edits and the task actions *)

Section LocalProperties.

Context {Server : Type} (backend : Backend Server) (tb : TaskBackend Server).
Implicit Types w : World Server.

Lemma find_log_absent (logId : Z) (l : list LogEntry) :
  ~ In logId (map log_id l) -> find (fun y => log_id y =? logId) l = None.
Proof.
  induction l as [|y r IH]; simpl; [reflexivity|].
  intros H. destruct (log_id y =? logId) eqn:E.
  - apply Z.eqb_eq in E. exfalso. apply H. left. exact E.
  - apply IH. intros Hin. apply H. right. exact Hin.
Qed.

(** X18.  An edit is local only.  Whatever the id and the answer,
    [editLog] sends no request and leaves the backend as it is, so the
    new content exists in the browser alone; its only possible report is
    the success toast.  For an id that is not in the collection it does
    nothing at all. *)
Theorem editLog_is_local_only
    (w : World Server) (logId : Z) (answer : option jsstring) :
  requests (events (editLog logId answer w)) = [] /\
  server (final (editLog logId answer w)) = server w /\
  (events (editLog logId answer w) = [] \/
   events (editLog logId answer w)
     = [Toast (lit "Log updated successfully!") success]) /\
  (~ In logId (map log_id (logs (app w))) ->
   editLog logId answer w = (Normal tt, w, [])).
Proof.
  assert (editLog logId answer w = (Normal tt, w, []) \/
          exists w1, server w1 = server w /\
            editLog logId answer w =
            (Normal tt, w1, [Toast (lit "Log updated successfully!") success]))
    as Hrun.
  { unfold editLog. rewrite bind_get_app.
    destruct (find _ _); [|left; reflexivity].
    destruct answer as [newContent|]; [|left; reflexivity].
    destruct (falsy_str (trim newContent)); cbn [negb]; [left; reflexivity|].
    right. rewrite bind_modify_app.
    rewrite (bind_normal _ _ _ _ _ _ (renderLogs_run _)).
    unfold showToast. rewrite bind_emit, handleLogChange_run.
    eexists. split. 2: reflexivity.
    cbn [final fst snd].
    rewrite hook_applied_server, logs_rendered_server. reflexivity. }
  split; [|split; [|split]].
  - destruct Hrun as [E|(w1 & _ & E)]; rewrite E; reflexivity.
  - destruct Hrun as [E|(w1 & Hs & E)]; rewrite E; [reflexivity | exact Hs].
  - destruct Hrun as [E|(w1 & _ & E)]; rewrite E; [left | right]; reflexivity.
  - intros Habs. unfold editLog. rewrite bind_get_app.
    rewrite (find_log_absent _ _ Habs). reflexivity.
Qed.

Lemma renderLogs_total : total (Server:=Server) renderLogs.
Proof. intros w. rewrite renderLogs_run. eexists; reflexivity. Qed.

Lemma handleLogChange_total : total (Server:=Server) handleLogChange.
Proof. intros w. rewrite handleLogChange_run. eexists; reflexivity. Qed.

Lemma renderTasks_total' (filter : jsstring) :
  total (Server:=Server) (renderTasks filter).
Proof. intros w. rewrite renderTasks_run. eexists; reflexivity. Qed.

Lemma displayDiaryEntry_total' (e : DiaryEntry) :
  total (Server:=Server) (displayDiaryEntry e).
Proof. intros w. rewrite displayDiaryEntry_run. eexists; reflexivity. Qed.

Lemma total_get_clock : total (Server:=Server) get_clock.
Proof. intros w; eexists; reflexivity. Qed.

Ltac total_auto :=
  repeat first
    [ apply renderLogs_total
    | apply handleLogChange_total
    | apply renderTasks_total'
    | apply displayDiaryEntry_total'
    | apply total_get_clock
    | total_step
    | match goal with
      | |- total (showToast _ _) => unfold showToast
      | |- total (if ?b then _ else _) => destruct b
      | |- total (match ?b with Some _ => _ | None => _ end) => destruct b
      | |- total (match ?b with [] => _ | _ :: _ => _ end) => destruct b
      end ].

Lemma loadData_total' : total (loadData backend).
Proof. unfold loadData. total_auto. Qed.

Lemma generateDiary_total (isRegenerate isIncremental : bool) :
  total (generateDiary backend isRegenerate isIncremental).
Proof. unfold generateDiary. total_auto. Qed.

Lemma extractTasks_total (onlyNew : bool) : total (extractTasks backend onlyNew).
Proof. unfold extractTasks. total_auto. Qed.

Lemma updateDiarySection_total : total (Server:=Server) updateDiarySection.
Proof. unfold updateDiarySection. total_auto. Qed.

Lemma showEmptyStates_total : total (Server:=Server) showEmptyStates.
Proof.
  unfold showEmptyStates, updateTasksSection.
  total_step; [total_step|].
  destruct (str_eqb _ _); [apply updateDiarySection_total|].
  destruct (str_eqb _ _); total_auto.
Qed.

Lemma checkApiConnection_total : total (checkApiConnection tb).
Proof. unfold checkApiConnection. total_auto. Qed.

(** X19.  No exception escapes the methods that talk to the backend or
    to the user, nor [init] and [viewHistoryEntry]: whatever the backend
    answers (rejections, refusals, bodies that do not parse), whatever
    the page holds and whatever the user answers, each of them completes
    normally, each [try] having caught what was thrown inside it.
    ([switchTab] is not one of them: nothing catches the error of its
    [querySelector].) *)
Theorem no_exception_escapes
    (w : World Server) (b1 b2 : bool) (id : Z) (answer : option jsstring)
    (filter date : jsstring) :
  completion (loadData backend w) = Normal tt /\
  completion (generateDiary backend b1 b2 w) = Normal tt /\
  completion (extractTasks backend b1 w) = Normal tt /\
  completion (addLog backend w) = Normal tt /\
  completion (editLog id answer w) = Normal tt /\
  completion (deleteLog backend id b1 w) = Normal tt /\
  completion (addManualTask w) = Normal tt /\
  completion (checkApiConnection tb w) = Normal tt /\
  completion (init backend tb w) = Normal tt /\
  completion (toggleTaskComplete tb id w) = Normal tt /\
  completion (deleteTask tb id b1 w) = Normal tt /\
  completion (viewHistoryEntry date w) = Normal tt.
Proof.
  assert (forall c : M Server unit, total c -> completion (c w) = Normal tt) as Hn.
  { intros c Hc. destruct (Hc w) as [[] H]. exact H. }
  repeat split; apply Hn.
  - apply loadData_total'.
  - apply generateDiary_total.
  - apply extractTasks_total.
  - unfold addLog. total_step; [total_step|].
    destruct (log_input a); [|total_step].
    destruct (falsy_str _); total_auto.
  - unfold editLog. total_auto.
  - unfold deleteLog. destruct b1; total_auto.
  - unfold addManualTask. total_auto.
  - apply checkApiConnection_total.
  - unfold init.
    total_step; [apply checkApiConnection_total|].
    total_step; [apply loadData_total'|].
    total_step; [apply renderLogs_total | apply showEmptyStates_total].
  - unfold toggleTaskComplete. total_auto.
  - unfold deleteTask. destruct b1; total_auto.
  - unfold viewHistoryEntry, hideDiaryHistory. total_auto.
Qed.

End LocalProperties.

(* ================================================================== *)
(** ** Further properties: toggling and deleting tasks *)

Section TaskActionProperties.

Context {Server : Type} (tb : TaskBackend Server).
Implicit Types w : World Server.

Lemma find_task_id (taskId : Z) (l : list Task) :
  In taskId (map task_id l) ->
  exists x, find (fun t => task_id t =? taskId) l = Some x /\ task_id x = taskId.
Proof.
  induction l as [|y r IH]; simpl; [intros []|].
  intros [E|Hin].
  - rewrite E, Z.eqb_refl. eauto.
  - destruct (task_id y =? taskId) eqn:Ey; [apply Z.eqb_eq in Ey; eauto|].
    apply IH, Hin.
Qed.

Lemma find_task_absent (taskId : Z) (l : list Task) :
  ~ In taskId (map task_id l) -> find (fun t => task_id t =? taskId) l = None.
Proof.
  induction l as [|y r IH]; simpl; [reflexivity|].
  intros H. destruct (task_id y =? taskId) eqn:E.
  - apply Z.eqb_eq in E. exfalso. apply H. left. exact E.
  - apply IH. intros Hin. apply H. right. exact Hin.
Qed.

(** [toggle_completed] flips the first task carrying the id and nothing
    else. *)
Lemma toggle_completed_first (taskId : Z) (l : list Task) :
  In taskId (map task_id l) ->
  exists l1 x l2,
    l = l1 ++ x :: l2 /\ task_id x = taskId /\
    (forall y, In y l1 -> task_id y <> taskId) /\
    toggle_completed taskId l = l1 ++ flip_completed x :: l2.
Proof.
  induction l as [|y r IH]; simpl; [intros []|].
  intros Hin. destruct (task_id y =? taskId) eqn:E.
  - apply Z.eqb_eq in E. exists [], y, r. simpl. intuition.
  - apply Z.eqb_neq in E. destruct Hin as [Hy|Hin]; [congruence|].
    destruct (IH Hin) as (l1 & x & l2 & El & Ex & Hl1 & Ea).
    exists (y :: l1), x, l2. simpl. rewrite El at 1. rewrite Ea.
    repeat split; auto.
    intros z [<-|Hz]; auto.
Qed.

Lemma toggle_completed_ids (taskId : Z) (l : list Task) :
  map task_id (toggle_completed taskId l) = map task_id l.
Proof.
  induction l as [|y r IH]; simpl; [reflexivity|].
  destruct (task_id y =? taskId); simpl; [reflexivity | rewrite IH; reflexivity].
Qed.

Lemma call_run {A} (serve : Server -> FetchResult A * Server) w :
  call serve w =
  match serve (server w) with
  | (NetworkError m, sv) => (Throw m, mkWorld (app w) (dom w) (clock w) sv, [])
  | (Response ok body, sv) =>
      (Normal (ok, body), mkWorld (app w) (dom w) (clock w) sv, [])
  end.
Proof. reflexivity. Qed.

Lemma toggleTaskComplete_accepted w (taskId : Z) (body : Json unit) (sv : Server) :
  serve_toggle_task tb taskId (server w) = (Response true body, sv) ->
  toggleTaskComplete tb taskId w =
  match find (fun t => task_id t =? taskId) (tasks (app w)) with
  | Some task =>
      (Normal tt,
       rendered (lit "all")
         (mkWorld (set_tasks (toggle_completed taskId (tasks (app w))) (app w))
                  (dom w) (clock w) sv),
       [Toast (lit "Task "
                 ++ (if negb (task_completed task) then lit "completed"
                     else lit "reopened")
                 ++ lit "!") success])
  | None => (Normal tt, mkWorld (app w) (dom w) (clock w) sv, [])
  end.
Proof.
  intros Hs. unfold toggleTaskComplete.
  assert (call (serve_toggle_task tb taskId) w
          = (Normal (true, body), mkWorld (app w) (dom w) (clock w) sv, [])) as Hc
    by (rewrite call_run, Hs; reflexivity).
  destruct (find (fun t => task_id t =? taskId) (tasks (app w))) as [task|] eqn:Ef.
  - apply try_catch_normal.
    rewrite (bind_normal _ _ _ _ _ _ Hc). cbn [fst snd negb]. cbv iota.
    rewrite (bind_normal _ _ _ tt _ [] eq_refl).
    rewrite bind_get_app. cbn [app]. rewrite Ef.
    rewrite bind_modify_app.
    rewrite (bind_normal _ _ _ _ _ _ (renderTasks_run _ _)).
    reflexivity.
  - apply try_catch_normal.
    rewrite (bind_normal _ _ _ _ _ _ Hc). cbn [fst snd negb]. cbv iota.
    rewrite (bind_normal _ _ _ tt _ [] eq_refl).
    rewrite bind_get_app. cbn [app]. rewrite Ef. reflexivity.
Qed.

(** X20.  When the backend accepts the toggle of a task the application
    holds, [toggleTaskComplete] flips the [completed] flag of the first
    task carrying the id, leaves every other task and every other field
    of the application record as it was, puts the collection back in
    rendering order when the task list is in the page, and reports
    ["Task completed!"] or ["Task reopened!"] according to the new
    flag. *)
Theorem toggleTaskComplete_flips
    (w : World Server) (taskId : Z) (body : Json unit) (sv : Server) :
  serve_toggle_task tb taskId (server w) = (Response true body, sv) ->
  In taskId (map task_id (tasks (app w))) ->
  let run := toggleTaskComplete tb taskId w in
  exists l1 x l2,
    tasks (app w) = l1 ++ x :: l2 /\ task_id x = taskId /\
    (forall y, In y l1 -> task_id y <> taskId) /\
    Permutation (tasks (app (final run))) (l1 ++ flip_completed x :: l2) /\
    (tasks_list (dom w) = None ->
     tasks (app (final run)) = l1 ++ flip_completed x :: l2) /\
    app (final run) = set_tasks (tasks (app (final run))) (app w) /\
    events run =
      [Toast (if task_completed x then lit "Task reopened!"
              else lit "Task completed!") success].
Proof.
  intros Hs Hin run. subst run.
  rewrite (toggleTaskComplete_accepted w taskId body sv Hs).
  destruct (toggle_completed_first taskId _ Hin) as (l1 & x & l2 & El & Ex & Hl1 & Et).
  assert (find (fun t => task_id t =? taskId) (tasks (app w)) = Some x) as Ef.
  { rewrite El. clear El Et. induction l1 as [|y l1 IH]; simpl.
    - rewrite Ex, Z.eqb_refl. reflexivity.
    - assert (task_id y <> taskId) as Hy by (apply Hl1; left; reflexivity).
      apply Z.eqb_neq in Hy. rewrite Hy. apply IH.
      intros z Hz. apply Hl1. right. exact Hz. }
  rewrite Ef. exists l1, x, l2.
  split; [exact El|]. split; [exact Ex|]. split; [exact Hl1|].
  cbn [final events fst snd].
  set (w1 := mkWorld (set_tasks (toggle_completed taskId (tasks (app w))) (app w))
                     (dom w) (clock w) sv).
  split; [|split; [|split]].
  - rewrite <- Et. apply (rendered_tasks_perm (lit "all") w1).
  - intros Hnone. unfold rendered. subst w1. cbn [dom app]. rewrite Hnone.
    cbn [app tasks set_tasks]. exact Et.
  - unfold rendered. subst w1. cbn [dom app tasks set_tasks].
    destruct (tasks_list (dom w)); [|reflexivity].
    change (filteredTasks (lit "all") (toggle_completed taskId (tasks (app w))))
      with (toggle_completed taskId (tasks (app w))).
    destruct (toggle_completed taskId (tasks (app w))) eqn:E; reflexivity.
  - destruct (task_completed x); reflexivity.
Qed.

(** X21.  When the backend does not accept the toggle (network failure
    or a response that is not ok), [toggleTaskComplete] changes nothing
    in the application record or the page and reports
    ["Failed to update task"]; and when the backend accepts but the
    application holds no task with the id, nothing changes and nothing
    is reported. *)
Theorem toggleTaskComplete_without_effect
    (w : World Server) (taskId : Z) (reply : FetchResult unit) (sv : Server) :
  serve_toggle_task tb taskId (server w) = (reply, sv) ->
  (forall body, reply <> Response true body) \/
  ~ In taskId (map task_id (tasks (app w))) ->
  final (toggleTaskComplete tb taskId w) = mkWorld (app w) (dom w) (clock w) sv /\
  events (toggleTaskComplete tb taskId w) =
    match reply with
    | Response true _ => []
    | NetworkError m =>
        [ConsoleError (lit "Error toggling task:") m;
         Toast (lit "Failed to update task") error]
    | Response false _ =>
        [ConsoleError (lit "Error toggling task:") (lit "Failed to update task");
         Toast (lit "Failed to update task") error]
    end.
Proof.
  intros Hs Hcase.
  destruct reply as [m|[|] body].
  - unfold toggleTaskComplete.
    rewrite (try_catch_throw _ _ w m (mkWorld (app w) (dom w) (clock w) sv) []).
    + split; reflexivity.
    + apply bind_throw. rewrite call_run, Hs. reflexivity.
  - destruct Hcase as [Hno|Habs]; [exfalso; apply (Hno body); reflexivity|].
    rewrite (toggleTaskComplete_accepted w taskId body sv Hs).
    rewrite (find_task_absent _ _ Habs). split; reflexivity.
  - unfold toggleTaskComplete.
    rewrite (try_catch_throw _ _ w (lit "Failed to update task")
               (mkWorld (app w) (dom w) (clock w) sv) []).
    + split; reflexivity.
    + rewrite (bind_normal _ _ w (false, body)
                 (mkWorld (app w) (dom w) (clock w) sv) []);
        [|rewrite call_run, Hs; reflexivity].
      reflexivity.
Qed.

Lemma toggle_completed_map (taskId : Z) (l : list Task) :
  NoDup (map task_id l) -> toggle_completed taskId l = map (flip_if taskId) l.
Proof.
  induction l as [|y r IH]; simpl; [reflexivity|].
  intros Hnd. inversion Hnd as [|? ? Hy Hr]; subst.
  unfold flip_if at 1. destruct (task_id y =? taskId) eqn:E.
  - f_equal. apply Z.eqb_eq in E.
    clear IH Hnd Hr. induction r as [|z r IHr]; simpl; [reflexivity|].
    assert (task_id z <> taskId) as Hz.
    { intros Hz. apply Hy. left. congruence. }
    apply Z.eqb_neq in Hz. unfold flip_if at 1. rewrite Hz. f_equal.
    apply IHr. intros Hin. apply Hy. right. exact Hin.
  - f_equal. apply IH. exact Hr.
Qed.

Lemma flip_if_involutive (taskId : Z) (t : Task) :
  flip_if taskId (flip_if taskId t) = t.
Proof.
  unfold flip_if. destruct (task_id t =? taskId) eqn:E.
  - cbn [flip_completed task_id]. rewrite E.
    destruct t as [? ? [|] ? ? ? ? ?]; reflexivity.
  - rewrite E. reflexivity.
Qed.

Lemma flip_if_id (taskId : Z) (l : list Task) :
  map task_id (map (flip_if taskId) l) = map task_id l.
Proof.
  rewrite map_map. apply map_ext. intros t. unfold flip_if.
  destruct (task_id t =? taskId); reflexivity.
Qed.

(** One accepted toggle, on the collection alone. *)
Lemma toggleTaskComplete_tasks w (taskId : Z) :
  (forall sv, exists body sv',
     serve_toggle_task tb taskId sv = (Response true body, sv')) ->
  NoDup (map task_id (tasks (app w))) ->
  Permutation (tasks (app (final (toggleTaskComplete tb taskId w))))
              (map (flip_if taskId) (tasks (app w))).
Proof.
  intros Hok Hnd. destruct (Hok (server w)) as (body & sv & Hs).
  rewrite (toggleTaskComplete_accepted w taskId body sv Hs).
  destruct (find (fun t => task_id t =? taskId) (tasks (app w))) as [task|] eqn:Ef.
  - cbn [final fst snd].
    rewrite (rendered_tasks_perm (lit "all") _). cbn [app tasks set_tasks].
    rewrite (toggle_completed_map _ _ Hnd). reflexivity.
  - cbn [final fst snd app].
    rewrite <- (toggle_completed_map _ _ Hnd).
    clear Hnd. induction (tasks (app w)) as [|y r IH]; simpl in *; [reflexivity|].
    destruct (task_id y =? taskId); [discriminate|].
    constructor. apply IH. exact Ef.
Qed.

(** X22.  Toggling twice gives the tasks back: with a backend that
    accepts toggles and task ids that are pairwise distinct, two
    successive [toggleTaskComplete] of the same id leave the collection
    holding exactly the tasks it held, each with its original flag. *)
Theorem toggleTaskComplete_twice (w : World Server) (taskId : Z) :
  (forall sv, exists body sv',
     serve_toggle_task tb taskId sv = (Response true body, sv')) ->
  NoDup (map task_id (tasks (app w))) ->
  Permutation
    (tasks (app (final (toggleTaskComplete tb taskId
                          (final (toggleTaskComplete tb taskId w))))))
    (tasks (app w)).
Proof.
  intros Hok Hnd.
  pose proof (toggleTaskComplete_tasks w taskId Hok Hnd) as H1.
  assert (NoDup (map task_id
            (tasks (app (final (toggleTaskComplete tb taskId w)))))) as Hnd1.
  { eapply Permutation_NoDup.
    - symmetry. apply Permutation_map. exact H1.
    - rewrite flip_if_id. exact Hnd. }
  rewrite (toggleTaskComplete_tasks _ taskId Hok Hnd1).
  rewrite (Permutation_map (flip_if taskId) H1).
  rewrite map_map.
  rewrite (map_ext _ (fun t => t) (flip_if_involutive taskId)).
  rewrite map_id. reflexivity.
Qed.

End TaskActionProperties.

Lemma toggleTaskComplete_flips_witness :
  map (fun t => (task_id t, task_completed t))
      (tasks (app (final (toggleTaskComplete task_ok 2 sample_world))))
    = [(3, false); (4, false); (1, true); (2, true)] /\
  events (toggleTaskComplete task_ok 2 sample_world)
    = [Toast (lit "Task completed!") success].
Proof.
  destruct (toggleTaskComplete_flips task_ok sample_world 2 (JsonValue tt) tt)
    as (l1 & x & l2 & _ & _ & _ & _ & _ & _ & _).
  - reflexivity.
  - simpl. auto.
  - split; reflexivity.
Defined.

Lemma toggleTaskComplete_without_effect_witness :
  final (toggleTaskComplete task_down 2 sample_world) = sample_world /\
  events (toggleTaskComplete task_down 2 sample_world) =
    [ConsoleError (lit "Error toggling task:") (lit "Failed to fetch");
     Toast (lit "Failed to update task") error].
Proof.
  apply (toggleTaskComplete_without_effect task_down sample_world 2
           (NetworkError (lit "Failed to fetch")) tt).
  - reflexivity.
  - left. intros body H. discriminate H.
Defined.

Lemma toggleTaskComplete_twice_witness :
  Permutation
    (tasks (app (final (toggleTaskComplete task_ok 2
                          (final (toggleTaskComplete task_ok 2 sample_world))))))
    (tasks (app sample_world)).
Proof.
  apply (toggleTaskComplete_twice task_ok sample_world 2).
  - intros sv. exists (JsonValue tt), sv. reflexivity.
  - simpl. repeat constructor; simpl; intuition discriminate.
Defined.

(* ================================================================== *)
(** ** Further properties: deleting tasks and the id invariant *)

Section TaskInvariants.

Context {Server : Type} (tb : TaskBackend Server).
Implicit Types w : World Server.

Lemma deleteTask_local w (taskId : Z) :
  bind (modify_app (fun a =>
          set_tasks (List.filter (fun t => negb (task_id t =? taskId)) (tasks a)) a))
       (fun _ => renderTasks (lit "all") ;;
                 showToast (lit "Task deleted successfully!") success) w
  = (Normal tt,
     rendered (lit "all")
       (mkWorld
          (set_tasks (List.filter (fun t => negb (task_id t =? taskId))
                                  (tasks (app w))) (app w))
          (dom w) (clock w) (server w)),
     [Toast (lit "Task deleted successfully!") success]).
Proof.
  rewrite bind_modify_app.
  rewrite (bind_normal _ _ _ _ _ _ (renderTasks_run _ _)). reflexivity.
Qed.

Lemma deleteTask_offline_run w (taskId : Z) :
  apiConnected (app w) = false ->
  deleteTask tb taskId true w =
  (Normal tt,
   rendered (lit "all")
     (mkWorld
        (set_tasks (List.filter (fun t => negb (task_id t =? taskId))
                                (tasks (app w))) (app w))
        (dom w) (clock w) (server w)),
   [Toast (lit "Task deleted successfully!") success]).
Proof.
  intros Ec. unfold deleteTask. apply try_catch_normal.
  rewrite bind_get_app, Ec.
  rewrite (bind_normal _ _ w tt w []); [|reflexivity].
  rewrite deleteTask_local. reflexivity.
Qed.

Lemma deleteTask_accepted_run w (taskId : Z) (body : Json unit) (sv : Server) :
  apiConnected (app w) = true ->
  serve_delete_task tb taskId (server w) = (Response true body, sv) ->
  deleteTask tb taskId true w =
  (Normal tt,
   rendered (lit "all")
     (mkWorld
        (set_tasks (List.filter (fun t => negb (task_id t =? taskId))
                                (tasks (app w))) (app w))
        (dom w) (clock w) sv),
   [Toast (lit "Task deleted successfully!") success]).
Proof.
  intros Ec Hs. unfold deleteTask. apply try_catch_normal.
  rewrite bind_get_app, Ec.
  rewrite (bind_normal _ _ w tt (mkWorld (app w) (dom w) (clock w) sv) []).
  2:{ rewrite (bind_normal _ _ w (true, body)
                 (mkWorld (app w) (dom w) (clock w) sv) []);
        [reflexivity | rewrite call_run, Hs; reflexivity]. }
  rewrite deleteTask_local. reflexivity.
Qed.

Lemma deleteTask_refused_run w (taskId : Z) (reply : FetchResult unit) (sv : Server) :
  apiConnected (app w) = true ->
  serve_delete_task tb taskId (server w) = (reply, sv) ->
  (forall body, reply <> Response true body) ->
  deleteTask tb taskId true w =
  (Normal tt, mkWorld (app w) (dom w) (clock w) sv,
   [ ConsoleError (lit "Error deleting task:")
       match reply with
       | NetworkError m => m
       | Response _ _ => lit "Failed to delete task from server"
       end;
     Toast (lit "Failed to delete task: "
              ++ match reply with
                 | NetworkError m => m
                 | Response _ _ => lit "Failed to delete task from server"
                 end) error ]).
Proof.
  intros Hc Hs Hno. unfold deleteTask.
  destruct reply as [m|[|] body].
  - rewrite (try_catch_throw _ _ w m (mkWorld (app w) (dom w) (clock w) sv) []);
      [reflexivity|].
    rewrite bind_get_app, Hc.
    apply bind_throw. apply bind_throw. rewrite call_run, Hs. reflexivity.
  - exfalso. apply (Hno body). reflexivity.
  - rewrite (try_catch_throw _ _ w (lit "Failed to delete task from server")
               (mkWorld (app w) (dom w) (clock w) sv) []); [reflexivity|].
    rewrite bind_get_app, Hc.
    apply bind_throw.
    rewrite (bind_normal _ _ w (false, body)
               (mkWorld (app w) (dom w) (clock w) sv) []);
      [reflexivity | rewrite call_run, Hs; reflexivity].
Qed.

Lemma filter_task_gone (taskId : Z) (l : list Task) :
  ~ In taskId (map task_id (List.filter (fun t => negb (task_id t =? taskId)) l)).
Proof.
  intros Hin. apply in_map_iff in Hin. destruct Hin as (x & Ex & Hx).
  apply filter_In in Hx. destruct Hx as [_ Hx].
  rewrite <- Ex, Z.eqb_refl in Hx. discriminate.
Qed.

(** X23.  A confirmed [deleteTask] that the backend accepts, or that
    runs while the application believes the backend is not connected,
    leaves no task carrying the id and keeps every other task; the rest
    of the application record is untouched and the success is reported.
    When the backend refuses instead, nothing changes and
    ["Failed to delete task: <message>"] is reported. *)
Theorem deleteTask_outcome
    (w : World Server) (taskId : Z) (reply : FetchResult unit) (sv : Server) :
  serve_delete_task tb taskId (server w) = (reply, sv) ->
  let run := deleteTask tb taskId true w in
  let accepted :=
    negb (apiConnected (app w))
    || match reply with Response true _ => true | _ => false end in
  if accepted then
    Permutation (tasks (app (final run)))
                (List.filter (fun t => negb (task_id t =? taskId)) (tasks (app w))) /\
    ~ In taskId (map task_id (tasks (app (final run)))) /\
    app (final run) = set_tasks (tasks (app (final run))) (app w) /\
    events run = [Toast (lit "Task deleted successfully!") success]
  else
    app (final run) = app w /\ dom (final run) = dom w /\
    exists message,
      events run =
        [ ConsoleError (lit "Error deleting task:") message;
          Toast (lit "Failed to delete task: " ++ message) error ].
Proof.
  intros Hs run accepted.
  assert (forall sv' : Server,
    let w1 := mkWorld
                (set_tasks (List.filter (fun t => negb (task_id t =? taskId))
                                        (tasks (app w))) (app w))
                (dom w) (clock w) sv' in
    Permutation (tasks (app (rendered (lit "all") w1)))
                (List.filter (fun t => negb (task_id t =? taskId)) (tasks (app w))) /\
    ~ In taskId (map task_id (tasks (app (rendered (lit "all") w1)))) /\
    app (rendered (lit "all") w1)
      = set_tasks (tasks (app (rendered (lit "all") w1))) (app w)) as Hdone.
  { intros sv' w1.
    pose proof (rendered_tasks_perm (lit "all") w1) as Hp.
    split; [exact Hp|]. split.
    - intros Hin.
      apply (Permutation_in _ (Permutation_map task_id Hp)) in Hin.
      apply (filter_task_gone taskId (tasks (app w))). exact Hin.
    - unfold rendered. subst w1. cbn [dom app tasks set_tasks].
      destruct (tasks_list (dom w)); [|reflexivity].
      change (filteredTasks (lit "all") ?l) with l.
      destruct (List.filter _ (tasks (app w))); reflexivity. }
  subst run accepted.
  destruct (apiConnected (app w)) eqn:Ec; cbn [negb orb].
  - destruct reply as [m|[|] body].
    + rewrite (deleteTask_refused_run w taskId _ sv Ec Hs);
        [|intros body H; discriminate H].
      cbn [final events fst snd app dom]. repeat split. eexists; reflexivity.
    + rewrite (deleteTask_accepted_run w taskId body sv Ec Hs).
      cbn [final events fst snd].
      destruct (Hdone sv) as (H1 & H2 & H3). repeat split; assumption.
    + rewrite (deleteTask_refused_run w taskId _ sv Ec Hs);
        [|intros body' H; discriminate H].
      cbn [final events fst snd app dom]. repeat split. eexists; reflexivity.
  - rewrite (deleteTask_offline_run w taskId Ec).
    cbn [final events fst snd].
    destruct (Hdone (server w)) as (H1 & H2 & H3). repeat split; assumption.
Qed.

Lemma fresh_transfer (a a' : App) :
  Permutation (tasks a') (tasks a) -> nextTaskId a' = nextTaskId a ->
  task_ids_fresh a -> task_ids_fresh a'.
Proof.
  intros Hp Hn [Hnd Hlt]. unfold task_ids_fresh. rewrite Hn. split.
  - eapply Permutation_NoDup; [|exact Hnd].
    symmetry. apply Permutation_map. exact Hp.
  - eapply Permutation_Forall; [symmetry; exact Hp | exact Hlt].
Qed.

Lemma rendered_nextTaskId w (filter : jsstring) :
  nextTaskId (app (rendered filter w)) = nextTaskId (app w).
Proof.
  unfold rendered. destruct (tasks_list (dom w)); [|reflexivity].
  destruct (filteredTasks filter (tasks (app w))); [reflexivity|].
  destruct (aliases_tasks filter); reflexivity.
Qed.

Lemma rendered_fresh w (filter : jsstring) :
  task_ids_fresh (app w) -> task_ids_fresh (app (rendered filter w)).
Proof.
  apply fresh_transfer; [apply rendered_tasks_perm | apply rendered_nextTaskId].
Qed.

Lemma NoDup_map_filter {A B} (f : A -> B) (p : A -> bool) (l : list A) :
  NoDup (map f l) -> NoDup (map f (List.filter p l)).
Proof.
  induction l as [|x r IH]; simpl; [auto|].
  intros H. inversion H as [|? ? Hx Hr]; subst.
  destruct (p x); simpl; [|apply IH; exact Hr].
  constructor; [|apply IH; exact Hr].
  intros Hin. apply Hx. apply in_map_iff in Hin.
  destruct Hin as (y & Ey & Hy). apply filter_In in Hy.
  apply in_map_iff. exists y. tauto.
Qed.

Lemma addManualTask_run w :
  addManualTask w =
  match manual_task_input (dom w), manual_task_priority (dom w) with
  | Some value, Some priority =>
      match trim value with
      | [] => (Normal tt, w, [Toast (lit "Please enter a task description") error])
      | _ =>
          (Normal tt,
           rendered (lit "all")
             (mkWorld
                (set_tasks (tasks (app w) ++ [manual_task w value priority])
                   (set_nextTaskId (nextTaskId (app w) + 1) (app w)))
                (set_manual_task_input (Some []) (dom w)) (clock w) (server w)),
           [Toast (lit "Manual task added successfully!") success])
      end
  | _, _ => (Normal tt, w, [])
  end.
Proof.
  unfold addManualTask. rewrite bind_get_dom.
  destruct (manual_task_input (dom w)) as [value|]; [|reflexivity].
  destruct (manual_task_priority (dom w)) as [priority|]; [|reflexivity].
  unfold manual_task.
  destruct (trim value) as [|c r] eqn:Et; [destruct w; reflexivity|].
  cbn [falsy_str].
  rewrite bind_get_app, bind_get_clock.
  rewrite bind_modify_app, bind_modify_app, bind_modify_dom.
  rewrite (bind_normal _ _ _ _ _ _ (renderTasks_run _ _)). reflexivity.
Qed.

(** X24.  The task ids stay fresh.  If the ids of the tasks are pairwise
    distinct and all below the next-id counter, they still are after
    [addManualTask], [renderTasks], [toggleTaskComplete] and
    [deleteTask], whatever the page holds and the backend answers; so a
    manual task never takes an id in use. *)
Theorem task_ids_stay_fresh
    (w : World Server) (taskId : Z) (confirmed : bool) (filter : jsstring) :
  task_ids_fresh (app w) ->
  task_ids_fresh (app (final (addManualTask w))) /\
  task_ids_fresh (app (final (renderTasks filter w))) /\
  task_ids_fresh (app (final (toggleTaskComplete tb taskId w))) /\
  task_ids_fresh (app (final (deleteTask tb taskId confirmed w))).
Proof.
  intros Hf. split; [|split; [|split]].
  - rewrite addManualTask_run.
    destruct (manual_task_input (dom w)) as [value|]; [|exact Hf].
    destruct (manual_task_priority (dom w)) as [priority|]; [|exact Hf].
    destruct (trim value) as [|c0 r0]; [exact Hf|].
    cbn [final fst snd]. apply rendered_fresh. cbn [app].
    destruct Hf as [Hnd Hlt]. unfold task_ids_fresh.
    cbn [tasks nextTaskId set_tasks set_nextTaskId]. split.
    + rewrite map_app. cbn [map manual_task task_id].
      apply NoDup_app_remove_l with (l := []). simpl.
      eapply Permutation_NoDup;
        [apply Permutation_cons_append|].
      constructor; [|exact Hnd].
      intros Hin. apply in_map_iff in Hin. destruct Hin as (t1 & Et1 & Ht1).
      rewrite Forall_forall in Hlt. apply Hlt in Ht1. lia.
    + apply Forall_app. split.
      * eapply Forall_impl; [|exact Hlt]. intros t Ht. cbv beta in *. lia.
      * constructor; [cbn [manual_task task_id]; lia | constructor].
  - rewrite renderTasks_run. apply rendered_fresh. exact Hf.
  - destruct (serve_toggle_task tb taskId (server w)) as [reply sv] eqn:Hs.
    destruct reply as [m|[|] body].
    + unfold toggleTaskComplete.
      rewrite (try_catch_throw _ _ w m (mkWorld (app w) (dom w) (clock w) sv) []);
        [exact Hf|].
      apply bind_throw. rewrite call_run, Hs. reflexivity.
    + rewrite (toggleTaskComplete_accepted tb w taskId body sv Hs).
      destruct (find _ _); [|exact Hf].
      cbn [final fst snd]. apply rendered_fresh. cbn [app].
      destruct Hf as [Hnd Hlt]. unfold task_ids_fresh.
      cbn [tasks nextTaskId set_tasks]. split.
      * rewrite toggle_completed_ids. exact Hnd.
      * rewrite (toggle_completed_map _ _ Hnd).
        apply Forall_forall. intros u Hu. apply in_map_iff in Hu.
        destruct Hu as (u0 & <- & Hu0).
        rewrite Forall_forall in Hlt. apply Hlt in Hu0.
        unfold flip_if. destruct (task_id u0 =? taskId); exact Hu0.
    + unfold toggleTaskComplete.
      rewrite (try_catch_throw _ _ w (lit "Failed to update task")
                 (mkWorld (app w) (dom w) (clock w) sv) []); [exact Hf|].
      rewrite (bind_normal _ _ w (false, body)
                 (mkWorld (app w) (dom w) (clock w) sv) []);
        [reflexivity | rewrite call_run, Hs; reflexivity].
  - destruct confirmed; [|exact Hf].
    assert (forall sv' : Server,
      task_ids_fresh (app (rendered (lit "all")
        (mkWorld
           (set_tasks (List.filter (fun t => negb (task_id t =? taskId))
                                   (tasks (app w))) (app w))
           (dom w) (clock w) sv')))) as Hdone.
    { intros sv'. apply rendered_fresh. cbn [app].
      destruct Hf as [Hnd Hlt]. unfold task_ids_fresh.
      cbn [tasks nextTaskId set_tasks]. split.
      - apply NoDup_map_filter. exact Hnd.
      - apply Forall_forall. intros u Hu. apply filter_In in Hu.
        rewrite Forall_forall in Hlt. apply Hlt. apply Hu. }
    destruct (apiConnected (app w)) eqn:Ec.
    + destruct (serve_delete_task tb taskId (server w)) as [reply sv] eqn:Hs.
      destruct reply as [m|[|] body].
      * rewrite (deleteTask_refused_run w taskId _ sv Ec Hs);
          [exact Hf | intros body H; discriminate H].
      * rewrite (deleteTask_accepted_run w taskId body sv Ec Hs). apply Hdone.
      * rewrite (deleteTask_refused_run w taskId _ sv Ec Hs);
          [exact Hf | intros body' H; discriminate H].
    + rewrite (deleteTask_offline_run w taskId Ec). apply Hdone.
Qed.

End TaskInvariants.

Lemma deleteTask_outcome_witness :
  map task_id (tasks (app (final (deleteTask task_ok 3 true sample_world))))
    = [4; 2; 1] /\
  events (deleteTask task_ok 3 true sample_world)
    = [Toast (lit "Task deleted successfully!") success] /\
  app (final (deleteTask task_down 3 true sample_world)) = app sample_world /\
  events (deleteTask task_down 3 true sample_world)
    = [ ConsoleError (lit "Error deleting task:") (lit "Failed to fetch");
        Toast (lit "Failed to delete task: Failed to fetch") error ].
Proof.
  pose proof (deleteTask_outcome task_ok sample_world 3 (Response true (JsonValue tt)) tt
                eq_refl) as Hok.
  pose proof (deleteTask_outcome task_down sample_world 3
                (NetworkError (lit "Failed to fetch")) tt eq_refl) as Hdown.
  cbv zeta in Hok, Hdown.
  change (negb (apiConnected (app sample_world))) with false in Hok, Hdown.
  cbn [orb] in Hok, Hdown.
  destruct Hok as (_ & _ & _ & Hev). destruct Hdown as (Happ & _ & _).
  split; [reflexivity|]. split; [exact Hev|]. split; [exact Happ | reflexivity].
Defined.

Lemma task_ids_stay_fresh_witness :
  task_ids_fresh (app (final (addManualTask sample_world))) /\
  task_ids_fresh (app (final (renderTasks (lit "all") sample_world))) /\
  task_ids_fresh (app (final (toggleTaskComplete task_ok 2 sample_world))) /\
  task_ids_fresh (app (final (deleteTask task_ok 2 true sample_world))).
Proof.
  apply (task_ids_stay_fresh task_ok sample_world 2 true (lit "all")).
  split.
  - simpl. repeat constructor; simpl; intuition discriminate.
  - simpl. repeat constructor.
Defined.

(* ================================================================== *)
(** ** Further properties: connection check, start-up, tabs, history *)

Section StartupProperties.

Context {Server : Type} (backend : Backend Server) (tb : TaskBackend Server).
Implicit Types w : World Server.

Lemma checkApiConnection_run w (reply : FetchResult unit) (sv : Server) :
  serve_status tb (server w) = (reply, sv) ->
  checkApiConnection tb w =
  (Normal tt,
   mkWorld
     (set_apiConnected
        match reply with Response true _ => true | _ => false end (app w))
     (dom w) (clock w) sv,
   match reply with
   | Response true _ => []
   | NetworkError m => [ConsoleError (lit "API connection failed:") m]
   | Response false _ =>
       [ConsoleError (lit "API connection failed:") (lit "API not responding")]
   end).
Proof.
  intros Hs. unfold checkApiConnection.
  destruct reply as [m|[|] body].
  - rewrite (try_catch_throw _ _ w m (mkWorld (app w) (dom w) (clock w) sv) []);
      [reflexivity|].
    apply bind_throw. rewrite call_run, Hs. reflexivity.
  - apply try_catch_normal.
    rewrite (bind_normal _ _ w (true, body)
               (mkWorld (app w) (dom w) (clock w) sv) []);
      [reflexivity | rewrite call_run, Hs; reflexivity].
  - rewrite (try_catch_throw _ _ w (lit "API not responding")
               (mkWorld (app w) (dom w) (clock w) sv) []); [reflexivity|].
    rewrite (bind_normal _ _ w (false, body)
               (mkWorld (app w) (dom w) (clock w) sv) []);
      [reflexivity | rewrite call_run, Hs; reflexivity].
Qed.


(** X26.  After a failed connection check the application works on its
    own: [generateDiary] and [extractTasks] send nothing, and a confirmed
    [deleteLog] removes the log from the browser without telling the
    backend. *)
Theorem failed_check_cuts_the_backend_off
    (w : World Server) (reply : FetchResult unit) (sv : Server)
    (isRegenerate isIncremental onlyNew : bool) (logId : Z) :
  serve_status tb (server w) = (reply, sv) ->
  (forall body, reply <> Response true body) ->
  let offline := final (checkApiConnection tb w) in
  requests (events (generateDiary backend isRegenerate isIncremental offline)) = [] /\
  requests (events (extractTasks backend onlyNew offline)) = [] /\
  requests (events (deleteLog backend logId true offline)) = [] /\
  server (final (deleteLog backend logId true offline)) = sv /\
  logs (app (final (deleteLog backend logId true offline)))
    = List.filter (fun l => negb (log_id l =? logId)) (logs (app w)).
Proof.
  intros Hs Hno offline.
  assert (apiConnected (app offline) = false /\
          logs (app offline) = logs (app w) /\ server offline = sv)
    as (Hflag & Hlogs & Hsv).
  { subst offline. rewrite (checkApiConnection_run w reply sv Hs).
    cbn [final fst snd app server].
    destruct reply as [m|[|] body]; try (repeat split; reflexivity).
    exfalso. apply (Hno body). reflexivity. }
  rewrite (generateDiary_guard_run backend offline _ _ (or_intror Hflag)).
  rewrite (extractTasks_guard_run backend offline _ (or_intror Hflag)).
  rewrite (deleteLog_offline_run backend offline logId Hflag).
  cbn [final events fst snd].
  rewrite hook_applied_app, logs_rendered_app,
          hook_applied_server, logs_rendered_server.
  cbn [app server logs set_logs]. rewrite Hlogs, Hsv.
  repeat split.
Qed.

Lemma updateDiarySection_app w :
  app (final (updateDiarySection w)) = app w /\ events (updateDiarySection w) = [].
Proof.
  unfold updateDiarySection. rewrite bind_get_clock, bind_get_app.
  destruct (logs (app w)); [split; reflexivity|].
  destruct (find _ _); [|split; reflexivity].
  rewrite displayDiaryEntry_run. split; reflexivity.
Qed.

(** X27.  Start-up loads the data whether or not the backend passed the
    connection check.  From the first tab and with the three collections
    delivered after the status request, [init] leaves the application
    record holding what was delivered, the connection flag telling how
    the status request went, and the log list rendered; the collections
    are requested in the order logs, diary, tasks, and no toast is
    shown. *)
Theorem init_loads_regardless_of_check
    (w : World Server) (reply : FetchResult unit)
    (d1 : LogsData) (d2 : DiaryData) (d3 : TasksData) (sv0 sv1 sv2 sv3 : Server) :
  currentTab (app w) = lit "logs" ->
  serve_status tb (server w) = (reply, sv0) ->
  serve_get_logs backend sv0 = (Response true (JsonValue d1), sv1) ->
  serve_get_diary backend sv1 = (Response true (JsonValue d2), sv2) ->
  serve_get_tasks backend sv2 = (Response true (JsonValue d3), sv3) ->
  let loaded :=
    mkWorld
      {| logs := or_array (ld_logs d1);
         diaryEntries := or_array (dd_entries d2);
         tasks := or_array (td_tasks d3);
         currentTab := lit "logs";
         nextLogId := or_one (ld_nextId d1);
         nextTaskId := or_one (td_nextId d3);
         nextDiaryId := or_one (dd_nextId d2);
         apiConnected :=
           match reply with Response true _ => true | _ => false end |}
      (dom w) (clock w) sv3 in
  final (init backend tb w) = logs_rendered loaded /\
  events (init backend tb w) =
    match reply with
    | Response true _ => []
    | NetworkError m => [ConsoleError (lit "API connection failed:") m]
    | Response false _ =>
        [ConsoleError (lit "API connection failed:") (lit "API not responding")]
    end ++ [Fetch GET_logs; Fetch GET_diary; Fetch GET_tasks].
Proof.
  intros Htab Hs E1 E2 E3 loaded.
  unfold init.
  rewrite (bind_normal _ _ _ _ _ _ (checkApiConnection_run w reply sv0 Hs)).
  rewrite (bind_normal _ _ _ _ _ _
             (loadData_all_delivered backend
                (mkWorld
                   (set_apiConnected
                      match reply with Response true _ => true | _ => false end
                      (app w))
                   (dom w) (clock w) sv0)
                d1 d2 d3 sv1 sv2 sv3 E1 E2 E3)).
  cbn [app dom clock server set_apiConnected currentTab apiConnected].
  rewrite Htab. fold loaded.
  rewrite (bind_normal _ _ _ _ _ _ (renderLogs_run loaded)).
  assert (showEmptyStates (logs_rendered loaded)
          = (Normal tt, logs_rendered loaded, [])) as Hshow.
  { unfold showEmptyStates. rewrite bind_get_app, logs_rendered_app.
    subst loaded. cbn [app currentTab]. reflexivity. }
  rewrite Hshow. cbn [completion final events fst snd].
  split; [reflexivity|].
  rewrite !app_nil_r. reflexivity.
Qed.

Lemma diary_displayed_text w (entry : DiaryEntry) :
  diary_text (dom (diary_displayed entry w)) =
  match diary_text (dom w) with
  | Some _ => Some (diary_content entry)
  | None => None
  end.
Proof.
  unfold diary_displayed. cbn [dom].
  destruct (diary_text (dom w)) eqn:E1, (update_diary_btn (dom w)) eqn:E2;
    cbn; rewrite ?E1, ?E2; cbn; rewrite ?E1; reflexivity.
Qed.

Lemma diary_displayed_btn w (entry : DiaryEntry) :
  update_diary_btn (dom (diary_displayed entry w)) =
  match update_diary_btn (dom w) with
  | Some _ => Some true
  | None => None
  end.
Proof.
  unfold diary_displayed. cbn [dom].
  destruct (diary_text (dom w)) eqn:E1, (update_diary_btn (dom w)) eqn:E2;
    cbn; rewrite ?E1, ?E2; cbn; rewrite ?E2; reflexivity.
Qed.

(** X28.  Viewing a history entry shows that entry: for a date that has
    an entry, [viewHistoryEntry] ends with the content of the first
    entry of that date in the diary text and the update button hidden,
    even though today's entry is displayed on the way; for a date
    without an entry it does nothing.  The application record is never
    changed. *)
Theorem viewHistoryEntry_shows_entry (w : World Server) (date : jsstring) :
  let after := final (viewHistoryEntry date w) in
  app after = app w /\
  events (viewHistoryEntry date w) = [] /\
  match find (fun e => str_eqb (diary_date e) date) (diaryEntries (app w)) with
  | Some entry =>
      diary_date entry = date /\
      diary_text (dom after) =
        match diary_text (dom w) with
        | Some _ => Some (diary_content entry)
        | None => None
        end /\
      update_diary_btn (dom after) =
        match update_diary_btn (dom w) with
        | Some _ => Some true
        | None => None
        end
  | None => after = w
  end.
Proof.
  intros after. subst after.
  unfold viewHistoryEntry. rewrite bind_get_app.
  destruct (find (fun e => str_eqb (diary_date e) date) (diaryEntries (app w)))
    as [entry|] eqn:Ef; [|repeat split].
  assert (diary_date entry = date) as Hd.
  { apply find_some in Ef. apply str_eqb_eq. apply Ef. }
  assert (forall w1 : World Server,
            hideDiaryHistory w = (Normal tt, w1, []) ->
            app w1 = app w ->
            (diary_text (dom w1) = None <-> diary_text (dom w) = None) ->
            (update_diary_btn (dom w1) = None <-> update_diary_btn (dom w) = None) ->
            app (final (bind hideDiaryHistory (fun _ => displayDiaryEntry entry) w))
              = app w /\
            events (bind hideDiaryHistory (fun _ => displayDiaryEntry entry) w) = [] /\
            diary_date entry = date /\
            diary_text (dom (final
              (bind hideDiaryHistory (fun _ => displayDiaryEntry entry) w))) =
              match diary_text (dom w) with
              | Some _ => Some (diary_content entry)
              | None => None
              end /\
            update_diary_btn (dom (final
              (bind hideDiaryHistory (fun _ => displayDiaryEntry entry) w))) =
              match update_diary_btn (dom w) with
              | Some _ => Some true
              | None => None
              end) as Hgen.
  { intros w1 Hh Ha Ht Hu.
    rewrite (bind_normal _ _ _ _ _ _ Hh), displayDiaryEntry_run.
    cbn [completion final events fst snd].
    rewrite diary_displayed_text, diary_displayed_btn.
    cbn [diary_displayed app].
    split; [exact Ha|]. split; [reflexivity|]. split; [exact Hd|]. split.
    - destruct (diary_text (dom w1)), (diary_text (dom w)); try reflexivity;
        destruct Ht as [Ht1 Ht2];
        [specialize (Ht2 eq_refl) | specialize (Ht1 eq_refl)]; discriminate.
    - destruct (update_diary_btn (dom w1)), (update_diary_btn (dom w));
        try reflexivity; destruct Hu as [Hu1 Hu2];
        [specialize (Hu2 eq_refl) | specialize (Hu1 eq_refl)]; discriminate. }
  unfold hideDiaryHistory in Hgen at 1.
  rewrite bind_get_clock, bind_get_app in Hgen.
  destruct (find (fun entry0 => str_eqb (diary_date entry0) (isoDate (clock w)))
                 (diaryEntries (app w))) as [today|] eqn:Etoday.
  - apply (Hgen (diary_displayed today w)).
    + apply displayDiaryEntry_run.
    + reflexivity.
    + rewrite diary_displayed_text. destruct (diary_text (dom w)); split; congruence.
    + rewrite diary_displayed_btn.
      destruct (update_diary_btn (dom w)); split; congruence.
  - apply (Hgen w); [reflexivity | reflexivity | tauto | tauto].
Qed.

Lemma rendered_app w (filter : jsstring) :
  app (rendered filter w) = set_tasks (tasks (app (rendered filter w))) (app w).
Proof.
  unfold rendered.
  destruct (tasks_list (dom w)); [|symmetry; apply set_tasks_same].
  destruct (filteredTasks filter (tasks (app w)));
    [symmetry; apply set_tasks_same|].
  destruct (aliases_tasks filter); [reflexivity | symmetry; apply set_tasks_same].
Qed.

(** X29.  Switching tabs loses nothing.  Whether [switchTab] returns or
    its [querySelector] throws, the logs, the diary entries, the
    counters and the connection flag are as before, the tasks are the
    same tasks (possibly put in rendering order), and nothing is sent or
    reported.  Without a tab name it does nothing.  With one, it throws
    exactly when the browser refuses the selector built from the name,
    and then the current tab is as before; otherwise it returns with the
    name recorded as the current tab. *)
Theorem switchTab_keeps_data
    (selector_error : jsstring -> option jsstring)
    (w : World Server) (tabName : option jsstring) :
  let run := switchTab selector_error tabName w in
  let after := final run in
  logs (app after) = logs (app w) /\
  diaryEntries (app after) = diaryEntries (app w) /\
  Permutation (tasks (app after)) (tasks (app w)) /\
  nextLogId (app after) = nextLogId (app w) /\
  nextTaskId (app after) = nextTaskId (app w) /\
  nextDiaryId (app after) = nextDiaryId (app w) /\
  apiConnected (app after) = apiConnected (app w) /\
  events run = [] /\
  completion run =
    match tabName with
    | Some (c :: name) =>
        match selector_error (c :: name) with
        | Some message => Throw message
        | None => Normal tt
        end
    | _ => Normal tt
    end /\
  currentTab (app after) =
    match tabName with
    | Some (c :: name) =>
        match selector_error (c :: name) with
        | Some _ => currentTab (app w)
        | None => c :: name
        end
    | _ => currentTab (app w)
    end.
Proof.
  intros run after. subst after run. unfold switchTab.
  destruct tabName as [[|c name]|]; try (repeat split; reflexivity).
  cbn [falsy_str].
  destruct (selector_error (c :: name)) as [message|];
    [repeat split; reflexivity|].
  rewrite bind_modify_app.
  set (w1 := mkWorld (set_currentTab (c :: name) (app w)) (dom w) (clock w) (server w)).
  destruct (str_eqb (c :: name) (lit "logs")).
  { rewrite renderLogs_run. cbn [final events completion fst snd].
    rewrite logs_rendered_app. repeat split; reflexivity. }
  destruct (str_eqb (c :: name) (lit "diary")).
  { destruct (updateDiarySection_app w1) as [Ha He].
    destruct (updateDiarySection_total w1) as [[] Hc].
    rewrite Ha. repeat split; try reflexivity; assumption. }
  destruct (str_eqb (c :: name) (lit "tasks")); [|repeat split; reflexivity].
  unfold updateTasksSection. rewrite renderTasks_run.
  cbn [final events completion fst snd].
  pose proof (rendered_tasks_perm (lit "all") w1) as Hp.
  pose proof (rendered_app w1 (lit "all")) as Hr.
  rewrite Hr. cbn [logs diaryEntries tasks nextLogId nextTaskId nextDiaryId
                   apiConnected currentTab set_tasks].
  repeat split; try reflexivity. exact Hp.
Qed.

End StartupProperties.


Lemma failed_check_cuts_the_backend_off_witness :
  let offline := final (checkApiConnection task_down sample_world) in
  requests (events (generateDiary day_after false false offline)) = [] /\
  requests (events (extractTasks day_after false offline)) = [] /\
  requests (events (deleteLog day_after 1 true offline)) = [] /\
  server (final (deleteLog day_after 1 true offline)) = tt /\
  logs (app (final (deleteLog day_after 1 true offline))) = [].
Proof.
  apply (failed_check_cuts_the_backend_off day_after task_down sample_world
           (NetworkError (lit "Failed to fetch")) tt false false false 1).
  - reflexivity.
  - intros body H. discriminate H.
Defined.

Lemma init_loads_regardless_of_check_witness :
  app (final (init day_after task_down (mkWorld constructor page noon tt))) =
    {| logs := [yesterday_log]; diaryEntries := [sample_diary];
       tasks := sample_tasks; currentTab := lit "logs";
       nextLogId := 2; nextTaskId := 5; nextDiaryId := 2;
       apiConnected := false |} /\
  events (init day_after task_down (mkWorld constructor page noon tt))
    = [ConsoleError (lit "API connection failed:") (lit "Failed to fetch");
       Fetch GET_logs; Fetch GET_diary; Fetch GET_tasks].
Proof.
  destruct (init_loads_regardless_of_check day_after task_down
              (mkWorld constructor page noon tt)
              (NetworkError (lit "Failed to fetch"))
              (mkLogsData (Some [yesterday_log]) (Some 2))
              (mkDiaryData (Some [sample_diary]) (Some 2))
              (mkTasksData (Some sample_tasks) (Some 5))
              tt tt tt tt eq_refl eq_refl eq_refl eq_refl eq_refl)
    as (Hfinal & Hev).
  split; [rewrite Hfinal; reflexivity | exact Hev].
Defined.
